(** * apprenticeVr: the download processor and the archive extraction

    A shallow embedding of
    - [DownloadProcessor] (src/main/index.ts, third document: the rclone
      transfer driver: [updateItemStatus], [cancelDownload],
      [startDownload] with its data handler and its exit handling), and
    - [GameService.extractMetaArchive] (same file, second document: the 7z
      extraction with its wrong-password flag),
    together with the JavaScript library operations they call (string
    operations, the three regular expressions of the data handler, UTF-8
    encoding and MD5 as [crypto.createHash('md5')] computes it). *)

From Stdlib Require Import NArith List String Ascii Lia Bool.
From stdpp Require Import base decidable option list numbers countable gmap.
Import ListNotations.

Local Open Scope N_scope.

(** ** JavaScript strings

    A JavaScript string is a sequence of UTF-16 code units; [length],
    [substring], [split], [includes] and the regular expressions (none of
    them has the [u] flag) all work on code units. *)

Definition char16 : Type := N.
Definition jsstring : Type := list char16.

(** A literal written in ASCII. *)
Definition js (s : string) : jsstring :=
  map N_of_ascii (list_ascii_of_string s).

Definition LF : char16 := 10.
Definition CR : char16 := 13.

(** Truthiness of a string value that may be [undefined]: the empty string
    and [undefined] are falsy. *)
Definition truthy (o : option jsstring) : bool :=
  match o with
  | Some (_ :: _) => true
  | _ => false
  end.

(** [a || b] on optional strings. *)
Definition js_or (a b : option jsstring) : option jsstring :=
  if truthy a then a else b.

(** [s.startsWith(p)] at the head of [s]. *)
Fixpoint starts_with (p s : jsstring) : bool :=
  match p, s with
  | [], _ => true
  | _ :: _, [] => false
  | a :: p', b :: s' => (a =? b) && starts_with p' s'
  end.

(** [s.includes(p)]. *)
Fixpoint includes (p s : jsstring) : bool :=
  starts_with p s ||
  match s with
  | [] => false
  | _ :: s' => includes p s'
  end.

(** [s.substring(0, n)]. *)
Definition substring0 (n : nat) (s : jsstring) : jsstring := firstn n s.

(** [s.split('\n')]: every separator ends a piece, the last piece is what
    follows the last separator (possibly empty). *)
Fixpoint split_on_aux (sep : char16) (cur : jsstring) (s : jsstring)
  : list jsstring :=
  match s with
  | [] => [rev cur]
  | c :: s' =>
      if c =? sep then rev cur :: split_on_aux sep [] s'
      else split_on_aux sep (c :: cur) s'
  end.

Definition split_on (sep : char16) (s : jsstring) : list jsstring :=
  split_on_aux sep [] s.

(** [pieces.join('\n')]. *)
Fixpoint join_with (sep : char16) (pieces : list jsstring) : jsstring :=
  match pieces with
  | [] => []
  | [p] => p
  | p :: rest => p ++ sep :: join_with sep rest
  end.

(** [a.slice(-n)]: the last [n] elements. *)
Definition slice_last {A} (n : nat) (l : list A) : list A :=
  skipn (length l - n) l.

(** [a.slice(0, -1)]. *)
Definition slice_init {A} (l : list A) : list A := removelast l.

(** [s.split(/\r\n|\n|\r/)]: at a carriage return followed by a line feed
    the first alternative matches both. *)
Fixpoint split_lines_aux (cur : jsstring) (s : jsstring) : list jsstring :=
  match s with
  | [] => [rev cur]
  | c :: s' =>
      if c =? CR then
        match s' with
        | d :: s'' =>
            if d =? LF then rev cur :: split_lines_aux [] s''
            else rev cur :: split_lines_aux [] s'
        | [] => rev cur :: split_lines_aux [] s'
        end
      else if c =? LF then rev cur :: split_lines_aux [] s'
      else split_lines_aux (c :: cur) s'
  end.

Definition split_lines (s : jsstring) : list jsstring := split_lines_aux [] s.

Definition nonempty (s : jsstring) : bool :=
  match s with
  | [] => false
  | _ => true
  end.

(** ** Character classes of the regular expressions *)

(** [\d]. *)
Definition is_digit (c : char16) : bool := (48 <=? c) && (c <=? 57).

(** [\s]: the white space and line terminator code units of ECMAScript. *)
Definition is_space (c : char16) : bool :=
  ((9 <=? c) && (c <=? 13)) || (c =? 32) || (c =? 160) || (c =? 5760)
  || ((8192 <=? c) && (c <=? 8202)) || (c =? 8232) || (c =? 8233)
  || (c =? 8239) || (c =? 8287) || (c =? 12288) || (c =? 65279).

(** The longest prefix of [s] whose code units satisfy [p], and the rest. *)
Fixpoint span (p : char16 -> bool) (s : jsstring) : jsstring * jsstring :=
  match s with
  | [] => ([], [])
  | c :: s' =>
      if p c then let '(a, b) := span p s' in (c :: a, b) else ([], s)
  end.

(** The integer a string of decimal digits denotes. *)
Definition digits_value (ds : jsstring) : N :=
  fold_left (fun acc c => 10 * acc + (c - 48)) ds 0.

(** The JavaScript numbers the code computes from digits are non-negative
    integers or [Infinity]. They are kept in [N], [Infinity] as 2^1024, the
    first power of two beyond every finite double: order and equality of
    such numbers are then those of [N]. *)
Definition Infinity : N := 2 ^ 1024.

(** The double nearest to a non-negative integer: the integer itself up to
    53 bits; beyond, the leading 53 bits, rounded to nearest, ties to the
    even mantissa; [Infinity] from 2^1024 - 2^970 on. *)
Definition to_double (n : N) : N :=
  if N.size n <=? 53 then n
  else
    let shift := N.size n - 53 in
    let mantissa := N.shiftr n shift in
    let rest := n - N.shiftl mantissa shift in
    let half := N.shiftl 1 (shift - 1) in
    let rounded :=
      if (half <? rest) || ((rest =? half) && N.odd mantissa)
      then mantissa + 1 else mantissa in
    N.min (N.shiftl rounded shift) Infinity.

(** [parseInt(ds, 10)] on a string of decimal digits: the number value of
    the integer they denote. (Past twenty significant digits the language
    leaves the last bits to the engine; V8 rounds correctly, as here.) *)
Definition parseInt (ds : jsstring) : N := to_double (digits_value ds).

(** The decimal digits of a number, as [String(n)] prints an integer. *)
Definition digit_char (d : N) : char16 := 48 + d.

Fixpoint to_digits (fuel : nat) (n : N) (acc : jsstring) : jsstring :=
  match fuel with
  | O => acc
  | S fuel' =>
      let acc' := digit_char (n mod 10) :: acc in
      if n / 10 =? 0 then acc' else to_digits fuel' (n / 10) acc'
  end.

Definition String_of_N (n : N) : jsstring :=
  to_digits (S (N.to_nat (N.log2 n))) n [].

(** ** The three regular expressions of the data handler

    None of them has the [g] flag, so [test] and [match] look for the
    leftmost match from the start of the line and keep no state. *)

(** The rest of [s] after the prefix [p], when [s] starts with [p]. *)
Definition strip_prefix (p s : jsstring) : option jsstring :=
  if starts_with p s then Some (skipn (length p) s) else None.

(** The leftmost position at which [here] matches. *)
Fixpoint search {A} (here : jsstring -> option A) (s : jsstring) : option A :=
  match here s with
  | Some x => Some x
  | None =>
      match s with
      | [] => None
      | _ :: s' => search here s'
      end
  end.

(** [/, (\d+)%, /] tried at the head of [s]; the result is group 1. The
    greedy [\d+] has one way to succeed: the whole run of digits. *)
Definition transfer_here (s : jsstring) : option jsstring :=
  match strip_prefix (js ", ") s with
  | Some r =>
      let '(ds, r') := span is_digit r in
      if nonempty ds && starts_with (js "%, ") r' then Some ds else None
  | None => None
  end.

Definition transferLineRegex (s : jsstring) : option jsstring :=
  search transfer_here s.

(** [\S+?] followed by [suffix]: the shortest non-empty run of non-space
    code units after which [suffix] stands. *)
Fixpoint lazy_nonspace (suffix : jsstring) (s : jsstring) : option jsstring :=
  match s with
  | [] => None
  | c :: s' =>
      if is_space c then None
      else if starts_with suffix s' then Some [c]
      else option_map (cons c) (lazy_nonspace suffix s')
  end.

(** [/, (\d+\.\d+ \S+?B\/s),/] tried at the head of [s]. *)
Definition speed_here (s : jsstring) : option jsstring :=
  match strip_prefix (js ", ") s with
  | Some r =>
      let '(d1, r1) := span is_digit r in
      match nonempty d1, strip_prefix (js ".") r1 with
      | true, Some r2 =>
          let '(d2, r3) := span is_digit r2 in
          match nonempty d2, strip_prefix (js " ") r3 with
          | true, Some r4 =>
              match lazy_nonspace (js "B/s,") r4 with
              | Some unit_ => Some (d1 ++ js "." ++ d2 ++ js " " ++ unit_ ++ js "B/s")
              | None => None
              end
          | _, _ => None
          end
      | _, _ => None
      end
  | None => None
  end.

Definition speedRegex (s : jsstring) : option jsstring := search speed_here s.

(** [/, ETA (\S+)/] tried at the head of [s]. *)
Definition eta_here (s : jsstring) : option jsstring :=
  match strip_prefix (js ", ETA ") s with
  | Some r =>
      let '(tok, _) := span (fun c => negb (is_space c)) r in
      if nonempty tok then Some tok else None
  | None => None
  end.

Definition etaRegex (s : jsstring) : option jsstring := search eta_here s.

(** [re.test(s)]. *)
Definition test {A} (re : jsstring -> option A) (s : jsstring) : bool :=
  match re s with
  | Some _ => true
  | None => false
  end.

(** ** UTF-8 encoding of a string ([hash.update(string)])

    A surrogate pair encodes one code point in four bytes; a surrogate
    without its partner is replaced by U+FFFD. *)

Definition is_high_surrogate (c : char16) : bool :=
  (0xD800 <=? c) && (c <=? 0xDBFF).
Definition is_low_surrogate (c : char16) : bool :=
  (0xDC00 <=? c) && (c <=? 0xDFFF).

Definition utf8_code_point (cp : N) : list N :=
  if cp <? 0x80 then [cp]
  else if cp <? 0x800 then
    [N.lor 0xC0 (N.shiftr cp 6); N.lor 0x80 (N.land cp 0x3F)]
  else if cp <? 0x10000 then
    [N.lor 0xE0 (N.shiftr cp 12);
     N.lor 0x80 (N.land (N.shiftr cp 6) 0x3F);
     N.lor 0x80 (N.land cp 0x3F)]
  else
    [N.lor 0xF0 (N.shiftr cp 18);
     N.lor 0x80 (N.land (N.shiftr cp 12) 0x3F);
     N.lor 0x80 (N.land (N.shiftr cp 6) 0x3F);
     N.lor 0x80 (N.land cp 0x3F)].

Definition replacement_bytes : list N := [0xEF; 0xBF; 0xBD].

Fixpoint utf8_encode (s : jsstring) : list N :=
  match s with
  | [] => []
  | c :: s' =>
      if is_high_surrogate c then
        match s' with
        | d :: s'' =>
            if is_low_surrogate d then
              utf8_code_point
                (0x10000 + N.shiftl (c - 0xD800) 10 + (d - 0xDC00))
              ++ utf8_encode s''
            else replacement_bytes ++ utf8_encode s'
        | [] => replacement_bytes
        end
      else if is_low_surrogate c then replacement_bytes ++ utf8_encode s'
      else utf8_code_point c ++ utf8_encode s'
  end.

(** ** MD5 (RFC 1321), on a list of bytes *)

Module MD5.

Definition mask32 : N := 0xFFFFFFFF.
Definition add32 (a b : N) : N := N.land (a + b) mask32.
Definition not32 (a : N) : N := N.lxor a mask32.
Definition rotl32 (x : N) (c : N) : N :=
  N.land (N.lor (N.shiftl x c) (N.shiftr x (32 - c))) mask32.

Definition K : list N :=
  [0xd76aa478; 0xe8c7b756; 0x242070db; 0xc1bdceee;
   0xf57c0faf; 0x4787c62a; 0xa8304613; 0xfd469501;
   0x698098d8; 0x8b44f7af; 0xffff5bb1; 0x895cd7be;
   0x6b901122; 0xfd987193; 0xa679438e; 0x49b40821;
   0xf61e2562; 0xc040b340; 0x265e5a51; 0xe9b6c7aa;
   0xd62f105d; 0x02441453; 0xd8a1e681; 0xe7d3fbc8;
   0x21e1cde6; 0xc33707d6; 0xf4d50d87; 0x455a14ed;
   0xa9e3e905; 0xfcefa3f8; 0x676f02d9; 0x8d2a4c8a;
   0xfffa3942; 0x8771f681; 0x6d9d6122; 0xfde5380c;
   0xa4beea44; 0x4bdecfa9; 0xf6bb4b60; 0xbebfbc70;
   0x289b7ec6; 0xeaa127fa; 0xd4ef3085; 0x04881d05;
   0xd9d4d039; 0xe6db99e5; 0x1fa27cf8; 0xc4ac5665;
   0xf4292244; 0x432aff97; 0xab9423a7; 0xfc93a039;
   0x655b59c3; 0x8f0ccc92; 0xffeff47d; 0x85845dd1;
   0x6fa87e4f; 0xfe2ce6e0; 0xa3014314; 0x4e0811a1;
   0xf7537e82; 0xbd3af235; 0x2ad7d2bb; 0xeb86d391].

Definition S_ : list N :=
  [7; 12; 17; 22; 7; 12; 17; 22; 7; 12; 17; 22; 7; 12; 17; 22;
   5; 9; 14; 20; 5; 9; 14; 20; 5; 9; 14; 20; 5; 9; 14; 20;
   4; 11; 16; 23; 4; 11; 16; 23; 4; 11; 16; 23; 4; 11; 16; 23;
   6; 10; 15; 21; 6; 10; 15; 21; 6; 10; 15; 21; 6; 10; 15; 21].

(** Message padding: a one bit, zeros up to 56 modulo 64, then the bit
    length as 64 bits, least significant byte first. *)
Definition le_bytes (n : nat) (x : N) : list N :=
  map (fun i => N.land (N.shiftr x (8 * N.of_nat i)) 0xFF) (seq 0 n).

Definition pad (msg : list N) : list N :=
  let len := length msg in
  let zeros := ((55 + 64 - len mod 64) mod 64)%nat in
  msg ++ 0x80 :: repeat 0 zeros ++ le_bytes 8 (8 * N.of_nat len).

Fixpoint words (bs : list N) : list N :=
  match bs with
  | b0 :: b1 :: b2 :: b3 :: r =>
      (b0 + N.shiftl b1 8 + N.shiftl b2 16 + N.shiftl b3 24) :: words r
  | _ => []
  end.

Definition state : Type := N * N * N * N.

Definition round (M : list N) (st : state) (i : nat) : state :=
  let '(a, b, c, d) := st in
  let '(f, g) :=
    if (i <? 16)%nat then
      (N.lor (N.land b c) (N.land (not32 b) d), i)
    else if (i <? 32)%nat then
      (N.lor (N.land d b) (N.land (not32 d) c), ((5 * i + 1) mod 16)%nat)
    else if (i <? 48)%nat then
      (N.lxor (N.lxor b c) d, ((3 * i + 5) mod 16)%nat)
    else
      (N.lxor c (N.lor b (not32 d)), ((7 * i) mod 16)%nat) in
  let f' := add32 (add32 (add32 f a) (nth i K 0)) (nth g M 0) in
  (d, add32 b (rotl32 f' (nth i S_ 0)), b, c).

Definition block (st : state) (M : list N) : state :=
  let '(a0, b0, c0, d0) := st in
  let '(a, b, c, d) := fold_left (round M) (seq 0 64) st in
  (add32 a0 a, add32 b0 b, add32 c0 c, add32 d0 d).

Fixpoint blocks (fuel : nat) (ws : list N) (st : state) : state :=
  match fuel, ws with
  | S fuel', _ :: _ => blocks fuel' (skipn 16 ws) (block st (firstn 16 ws))
  | _, _ => st
  end.

Definition init : state := (0x67452301, 0xefcdab89, 0x98badcfe, 0x10325476).

(** The sixteen bytes of the digest. *)
Definition digest (msg : list N) : list N :=
  let ws := words (pad msg) in
  let '(a, b, c, d) := blocks (length ws) ws init in
  le_bytes 4 a ++ le_bytes 4 b ++ le_bytes 4 c ++ le_bytes 4 d.

End MD5.

(** [digest('hex')]: two lowercase hexadecimal digits per byte. *)
Definition hex_digit (d : N) : char16 := if d <? 10 then 48 + d else 87 + d.

Definition hex_of_bytes (bs : list N) : jsstring :=
  flat_map (fun b => [hex_digit (N.shiftr b 4); hex_digit (N.land b 0xF)]) bs.

(** ** The data model and the queue manager

    Neither types.ts nor queueManager.ts is among the sources; the
    processor only calls [findItem] and [updateItem]. *)

(** Modelled from the spec: the status of a [DownloadItem], "one of Queued,
    Downloading, Extracting, Completed, Installing, InstallError, Error,
    Cancelled" (section 3). *)
Inductive DownloadStatus :=
  | Queued | Downloading | Extracting | Completed
  | Installing | InstallError | Error | Cancelled.

(** Modelled from the spec: the [DownloadItem] record of section 3 (release
    name, package and display name, status, progress, extraction progress,
    speed, ETA, error, download path), with the [pid] field that
    [DownloadProcessor] writes for the attached subprocess. Optional fields
    are [option]s: [None] is JavaScript's [undefined]. *)
Record DownloadItem := {
  releaseName : jsstring;
  packageName : jsstring;
  gameName : jsstring;
  status : DownloadStatus;
  progress : N;
  error : option jsstring;
  speed : option jsstring;
  eta : option jsstring;
  extractProgress : option N;
  downloadPath : option jsstring;
  pid : option N
}.

(** [Partial<DownloadItem>] as the processor builds it: a key may be absent
    ([None]), or present with a value that may itself be [undefined]. *)
Record Updates := {
  u_status : option DownloadStatus;
  u_progress : option N;
  u_error : option (option jsstring);
  u_speed : option (option jsstring);
  u_eta : option (option jsstring);
  u_extractProgress : option (option N);
  u_downloadPath : option (option jsstring);
  u_pid : option (option N)
}.

(** The update [{ pid: undefined }]. *)
Definition clear_pid : Updates :=
  {| u_status := None; u_progress := None; u_error := None; u_speed := None;
     u_eta := None; u_extractProgress := None; u_downloadPath := None;
     u_pid := Some None |}.

Global Instance DownloadStatus_eq_dec : EqDecision DownloadStatus.
Proof. solve_decision. Defined.

Global Instance DownloadItem_eq_dec : EqDecision DownloadItem.
Proof. solve_decision. Defined.

(** Modelled from the spec: the Queue Store of section 4.1 "owns the ordered
    collection of download items". *)
Definition Queue : Type := list DownloadItem.

(** Modelled from the spec: [find(releaseName) -> item|absent] (queue
    manager, section 4.1). Items are values: a record obtained here still
    shows the fields it had when a later update has replaced it in the
    queue. *)
Definition findItem (q : Queue) (name : jsstring) : option DownloadItem :=
  List.find (fun it => bool_decide (releaseName it = name)) q.

(** Modelled from the spec: the "field-level merge" of [updateItem]
    (section 4.1). A key of the update overwrites the item's field, also
    when its value is [undefined]: this is how the processor clears [pid]
    and [error]. *)
Definition merge (it : DownloadItem) (u : Updates) : DownloadItem :=
  {| releaseName := releaseName it;
     packageName := packageName it;
     gameName := gameName it;
     status := default (status it) (u_status u);
     progress := default (progress it) (u_progress u);
     error := default (error it) (u_error u);
     speed := default (speed it) (u_speed u);
     eta := default (eta it) (u_eta u);
     extractProgress := default (extractProgress it) (u_extractProgress u);
     downloadPath := default (downloadPath it) (u_downloadPath u);
     pid := default (pid it) (u_pid u) |}.

(** Modelled from the spec: [updateItem(releaseName, partialFields) -> bool]
    "applies field-level merge; returns whether any field actually changed
    value; fails silently (returns false) if item absent" (section 4.1). The
    merged record takes the place of the first item of that name. *)
Fixpoint updateItem (q : Queue) (name : jsstring) (u : Updates)
  : Queue * bool :=
  match q with
  | [] => ([], false)
  | it :: rest =>
      if bool_decide (releaseName it = name) then
        (merge it u :: rest, negb (bool_decide (merge it u = it)))
      else
        let '(rest', changed) := updateItem rest name u in
        (it :: rest', changed)
  end.

(** ** The download processor *)

(** What the processor keeps of an execa subprocess: its [pid] (undefined
    when the spawn failed) and whether the combined output stream [all]
    exists. *)
Record ExecaProcess := {
  proc_pid : option N;
  proc_all : bool
}.

(** The option record of the remote configuration. *)
Record VrpConfig := {
  baseUri : option jsstring;
  password : option jsstring
}.

(** What the processor does to the outside, in order. *)
Inductive Effect :=
  | Mkdir (path : jsstring)
  | Spawn (file : jsstring) (args : list jsstring)
  | RemoveAllListeners (p : ExecaProcess)
  | Kill (p : ExecaProcess).

(** The fields of [DownloadProcessor], the queue of its [queueManager], the
    effects so far and the number of calls of [debouncedEmitUpdate]. *)
Record State := {
  queue : Queue;
  activeDownloads : gmap jsstring ExecaProcess;
  vrpConfig : option VrpConfig;
  downloadsDir : jsstring;
  effects : list Effect;
  emitted : nat
}.

(** The state with another queue, table of subprocesses, or more effects. *)
Definition with_queue (q : Queue) (st : State) : State :=
  {| queue := q; activeDownloads := activeDownloads st;
     vrpConfig := vrpConfig st; downloadsDir := downloadsDir st;
     effects := effects st; emitted := emitted st |}.

Definition with_active (m : gmap jsstring ExecaProcess) (st : State) : State :=
  {| queue := queue st; activeDownloads := m;
     vrpConfig := vrpConfig st; downloadsDir := downloadsDir st;
     effects := effects st; emitted := emitted st |}.

Definition do_effects (es : list Effect) (st : State) : State :=
  {| queue := queue st; activeDownloads := activeDownloads st;
     vrpConfig := vrpConfig st; downloadsDir := downloadsDir st;
     effects := effects st ++ es; emitted := emitted st |}.

(** One call of the emitter passed to the constructor. *)
Definition debouncedEmitUpdate (st : State) : State :=
  {| queue := queue st; activeDownloads := activeDownloads st;
     vrpConfig := vrpConfig st; downloadsDir := downloadsDir st;
     effects := effects st; emitted := S (emitted st) |}.

(** [setVrpConfig(config)]. *)
Definition setVrpConfig (cfg : option VrpConfig) (st : State) : State :=
  {| queue := queue st; activeDownloads := activeDownloads st;
     vrpConfig := cfg; downloadsDir := downloadsDir st;
     effects := effects st; emitted := emitted st |}.

(** [this.queueManager.updateItem(name, u)] with its result. *)
Definition qm_updateItem (name : jsstring) (u : Updates) (st : State)
  : State * bool :=
  let '(q, changed) := updateItem (queue st) name u in (with_queue q st, changed).

(** [updateItemStatus]: the update always carries status, progress, error,
    speed and ETA; the extraction progress is set when given, cleared when
    the status is neither Extracting nor Completed, and left alone
    otherwise. *)
Definition updateItemStatus (name : jsstring) (s : DownloadStatus)
    (p : N) (err spd et : option jsstring) (xp : option N) (st : State)
  : State :=
  let updates :=
    {| u_status := Some s; u_progress := Some p; u_error := Some err;
       u_speed := Some spd; u_eta := Some et;
       u_extractProgress :=
         match xp with
         | Some x => Some (Some x)
         | None =>
             match s with
             | Extracting | Completed => None
             | _ => Some None
             end
         end;
       u_downloadPath := None; u_pid := None |} in
  let '(st', updated) := qm_updateItem name updates st in
  if updated then debouncedEmitUpdate st' else st'.

(** The second parameter of [cancelDownload]: ['Cancelled' | 'Error']. *)
Inductive FinalStatus := FinalCancelled | FinalError.

Definition status_of_final (f : FinalStatus) : DownloadStatus :=
  match f with
  | FinalCancelled => Cancelled
  | FinalError => Error
  end.

(** [process?.pid] as a condition: a pid that is defined and not 0. *)
Definition pid_truthy (p : ExecaProcess) : bool :=
  match proc_pid p with
  | Some n => negb (n =? 0)
  | None => false
  end.

Definition detach (p : ExecaProcess) : list Effect :=
  if proc_all p then [RemoveAllListeners p] else [].

(** The update [cancelDownload] builds for the item it found. *)
Definition cancel_updates (item : DownloadItem) (finalStatus : FinalStatus)
    (errorMsg : option jsstring) : Updates :=
  {| u_pid := Some None;
     u_status :=
       match status item, finalStatus with
       | Error, FinalCancelled => None
       | _, _ => Some (status_of_final finalStatus)
       end;
     u_progress :=
       match finalStatus with
       | FinalCancelled => Some 0
       | FinalError => None
       end;
     u_error :=
       match finalStatus with
       | FinalError => Some (js_or errorMsg (error item))
       | FinalCancelled => Some None
       end;
     u_speed := None; u_eta := None; u_extractProgress := None;
     u_downloadPath := None |}.

(** [cancelDownload(releaseName, finalStatus = 'Cancelled', errorMsg?)]. *)
Definition cancelDownload (name : jsstring) (finalStatus : FinalStatus)
    (errorMsg : option jsstring) (st : State) : State :=
  let st1 :=
    match activeDownloads st !! name with
    | Some process =>
        if pid_truthy process then
          with_active (delete name (activeDownloads st))
            (do_effects (detach process ++ [Kill process]) st)
        else st
    | None => st
    end in
  match findItem (queue st1) name with
  | Some item =>
      let '(st2, updated) :=
        qm_updateItem name (cancel_updates item finalStatus errorMsg) st1 in
      if updated then debouncedEmitUpdate st2 else st2
  | None => st1
  end.

(** What [startDownload] resolves to. *)
Record Outcome := {
  success : bool;
  startExtraction : bool;
  finalState : option DownloadItem
}.

Definition failed (fs : option DownloadItem) : Outcome :=
  {| success := false; startExtraction := false; finalState := fs |}.

(** The error object execa rejects with. *)
Record ExecaError := {
  exitCode : option N;
  isCanceled : bool;
  shortMessage : jsstring;
  message : jsstring;
  all_ : option jsstring;
  stderr : option jsstring;
  stdout : option jsstring
}.

(** What the [catch] clauses tell apart: an execa error (an object with a
    [shortMessage]), another [Error], anything else (with its [String]). *)
Inductive Thrown :=
  | ThrownExeca (e : ExecaError)
  | ThrownError (msg : jsstring)
  | ThrownOther (str : jsstring).

(** The remote object identifier: the hex MD5 digest of the release name
    followed by a line feed. *)
Definition gameNameHash (name : jsstring) : jsstring :=
  hex_of_bytes (MD5.digest (utf8_encode (name ++ [LF]))).

Definition rclone_source (name : jsstring) : jsstring :=
  js ":http:/" ++ gameNameHash name.

Definition rclone_args (name downloadPath uri : jsstring) : list jsstring :=
  [js "copy"; rclone_source name; downloadPath; js "--http-url"; uri;
   js "--no-check-certificate"; js "--progress"; js "--stats=1s";
   js "--stats-one-line"].

(** The base URI, when the configuration has a base URI and a password
    (both truthy). *)
Definition config_ready (c : option VrpConfig) : option jsstring :=
  match c with
  | Some cfg =>
      match baseUri cfg with
      | Some uri =>
          if truthy (Some uri) && truthy (password cfg) then Some uri else None
      | None => None
      end
  | None => None
  end.

(** The clean-up of the exit paths: forget the handle and clear the pid. *)
Definition cleanup (name : jsstring) (st : State) : State :=
  match activeDownloads st !! name with
  | Some _ =>
      fst (qm_updateItem name
             clear_pid
             (with_active (delete name (activeDownloads st)) st))
  | None => st
  end.

(** The tail of the subprocess output appended to the error message. *)
Definition lastLines (e : ExecaError) : jsstring :=
  let output :=
    default [] (js_or (js_or (js_or (all_ e) (stderr e)) (stdout e)) (Some [])) in
  join_with LF (slice_last 5 (split_on LF output)).

Definition execa_errorMessage (e : ExecaError) : jsstring :=
  let m := default [] (js_or (Some (shortMessage e)) (Some (message e))) in
  if nonempty (lastLines e) then m ++ LF :: js "..." ++ LF :: lastLines e else m.

(** The [catch] clause of [startDownload]. *)
Definition startDownload_catch (name : jsstring) (err : Thrown) (st : State)
  : State * Outcome :=
  let currentItemState := findItem (queue st) name in
  let statusBeforeCatch := status <$> currentItemState in
  let progressBefore := default 0 (progress <$> currentItemState) in
  let handled :=
    match statusBeforeCatch with
    | Some Cancelled | Some Error => true
    | _ => false
    end in
  let sigterm :=
    match err with
    | ThrownExeca e => bool_decide (exitCode e = Some 143)
    | _ => false
    end in
  if sigterm then (cleanup name st, failed currentItemState)
  else
    let st1 := cleanup name st in
    let report (errorMessage : jsstring) : State * Outcome :=
      let errorMessage := substring0 500 errorMessage in
      let st2 :=
        if negb handled then
          updateItemStatus name Error progressBefore (Some errorMessage)
            None None None st1
        else if bool_decide (statusBeforeCatch = Some Error) then
          debouncedEmitUpdate
            (fst (qm_updateItem name
                    {| u_status := None; u_progress := None;
                       u_error := Some (Some errorMessage);
                       u_speed := None; u_eta := None;
                       u_extractProgress := None; u_downloadPath := None;
                       u_pid := None |} st1))
        else st1 in
      (st2, failed (findItem (queue st2) name)) in
    match err with
    | ThrownExeca e =>
        if isCanceled e then
          let st2 :=
            if negb handled then
              updateItemStatus name Cancelled progressBefore None None None
                None st1
            else st1 in
          (st2, failed (findItem (queue st2) name))
        else report (execa_errorMessage e)
    | ThrownError msg => report msg
    | ThrownOther str => report str
    end.

(** The code after [await rcloneProcess] when the promise is fulfilled (the
    process exited with code 0). *)
Definition startDownload_resolved (name : jsstring) (st : State)
  : State * Outcome :=
  let finalItemState := findItem (queue st) name in
  match status <$> finalItemState with
  | Some Downloading =>
      let st1 :=
        fst (qm_updateItem name
               clear_pid
               (with_active (delete name (activeDownloads st)) st)) in
      (st1, {| success := true; startExtraction := true;
               finalState := finalItemState |})
  | _ => (cleanup name st, failed finalItemState)
  end.

(** The data handler's reaction when the item is gone or no longer
    Downloading: drop the handle, if there still is one. *)
Definition stop_processing (name : jsstring) (st : State) : State :=
  match activeDownloads st !! name with
  | Some proc =>
      with_active (delete name (activeDownloads st))
        (do_effects (detach proc ++ [Kill proc]) st)
  | None => st
  end.

(** The body of the loop over [linesToProcess], first part: the progress
    update. [cur] is [currentItemState], the item as found when the data
    event began. *)
Definition progress_update (name : jsstring) (cur : DownloadItem) (st : State)
    (line : jsstring) : State :=
  match transferLineRegex line with
  | Some g1 =>
      if truthy (Some g1) then
        let currentProgress := parseInt g1 in
        if progress cur <=? currentProgress then
          updateItemStatus name Downloading currentProgress None
            (js_or (speedRegex line) (speed cur))
            (js_or (etaRegex line) (eta cur)) None st
        else st
      else st
  | None => st
  end.

(** Second part: the authentication failure. (The third [if] of the loop
    only writes to the log.) *)
Definition auth_check (name : jsstring) (st : State) (line : jsstring)
  : State :=
  if includes (js "Auth Error") line || includes (js "authentication failed") line
  then cancelDownload name FinalError
         (Some (js "Auth failed (check VRP password?)")) st
  else st.

Definition processLine (name : jsstring) (cur : DownloadItem) (st : State)
    (line : jsstring) : State :=
  auth_check name (progress_update name cur st line) line.

(** What a data event makes of the buffer: the lines to process now and the
    new buffer. *)
Definition take_lines (outputBuffer data : jsstring)
  : list jsstring * jsstring :=
  let buffer := outputBuffer ++ data in
  let lines := List.filter nonempty (split_lines buffer) in
  match last lines with
  | Some lastLine =>
      if test transferLineRegex lastLine && test etaRegex lastLine
      then (lines, [])
      else (slice_init lines, lastLine)
  | None => ([], buffer)
  end.

(** The handler of a [data] event of the combined output; the state of a run
    is the processor's state and the closure's [outputBuffer]. *)
Definition onData (name : jsstring) (run : State * jsstring) (data : jsstring)
  : State * jsstring :=
  let '(st, outputBuffer) := run in
  match findItem (queue st) name with
  | Some currentItemState =>
      match status currentItemState with
      | Downloading =>
          let '(linesToProcess, outputBuffer') := take_lines outputBuffer data in
          (fold_left (processLine name currentItemState) linesToProcess st,
           outputBuffer')
      | _ => (stop_processing name st, outputBuffer)
      end
  | None => (stop_processing name st, outputBuffer)
  end.

(** What [fs.mkdir] did. *)
Inductive MkdirResult :=
  | MkdirOk
  | MkdirError (msg : jsstring)
  | MkdirThrewOther.

Section StartDownload.

(** [path.join] and [dependencyService.getRclonePath()]. *)
Variable path_join : jsstring -> jsstring -> jsstring.
Variable getRclonePath : option jsstring.

(** [startDownload] up to [await rcloneProcess]: [None] when the
    subprocess runs and the function waits for it, the outcome when it
    returned before. [mkdir] is what [fs.mkdir] did and [spawned] the
    object [execa] returned. *)
Definition startDownload_begin (item : DownloadItem) (mkdir : MkdirResult)
    (spawned : ExecaProcess) (st : State) : State * option Outcome :=
  let name := releaseName item in
  match config_ready (vrpConfig st), getRclonePath with
  | None, _ =>
      (updateItemStatus name Error 0 (Some (js "Missing VRP configuration"))
         None None None st, Some (failed None))
  | Some uri, rclonePath =>
      if negb (truthy rclonePath) then
        (updateItemStatus name Error 0
           (Some (js "Rclone dependency not found")) None None None st,
         Some (failed None))
      else
        let downloadPath := path_join (downloadsDir st) name in
        let st1 :=
          fst (qm_updateItem name
                 {| u_status := None; u_progress := None; u_error := None;
                    u_speed := None; u_eta := None;
                    u_extractProgress := None;
                    u_downloadPath := Some (Some downloadPath);
                    u_pid := None |} st) in
        let st2 := do_effects [Mkdir downloadPath] st1 in
        let mkdir_failed (errorMsg : jsstring) :=
          (updateItemStatus name Error 0 (Some (substring0 500 errorMsg))
             None None None st2, Some (failed None)) in
        match mkdir with
        | MkdirError msg =>
            mkdir_failed (js "Failed to create directory: " ++ msg)
        | MkdirThrewOther =>
            mkdir_failed (js "Failed to create directory " ++ downloadPath)
        | MkdirOk =>
            let st3 :=
              updateItemStatus name Downloading 0 None None None None st2 in
            let st4 :=
              do_effects
                [Spawn (default [] rclonePath)
                   (rclone_args name downloadPath uri)] st3 in
            if pid_truthy spawned && proc_all spawned then
              let st5 :=
                with_active (<[name := spawned]> (activeDownloads st4)) st4 in
              (fst (qm_updateItem name
                      {| u_status := None; u_progress := None;
                         u_error := None; u_speed := None; u_eta := None;
                         u_extractProgress := None; u_downloadPath := None;
                         u_pid := Some (proc_pid spawned) |} st5), None)
            else
              let '(st5, o) :=
                startDownload_catch name
                  (ThrownError (js "Failed to start rclone process.")) st4 in
              (st5, Some o)
        end
  end.

End StartDownload.

(** A run of the transfer stage after the spawn: data events of the
    combined output, then the end of [await rcloneProcess], fulfilled or
    rejected. Cancellation is a call of [cancelDownload] between two of
    them. *)
Inductive RunEvent :=
  | DataEvent (data : jsstring)
  | ExitFulfilled
  | ExitRejected (err : Thrown).

Definition run_step (name : jsstring) (run : State * jsstring) (e : RunEvent)
  : State * jsstring :=
  match e with
  | DataEvent data => onData name run data
  | ExitFulfilled => (fst (startDownload_resolved name (fst run)), snd run)
  | ExitRejected err => (fst (startDownload_catch name err (fst run)), snd run)
  end.

Definition run_events (name : jsstring) (es : list RunEvent)
    (run : State * jsstring) : State * jsstring :=
  fold_left (run_step name) es run.

(** ** The extraction of the meta archive ([GameService.extractMetaArchive])

    The progress messages sent to the window are left out ([Math.round] of a
    floating-point quotient); the counters they are computed from are kept. *)

Module GameService.

Record Extraction := {
  totalFiles : N;
  extractedFiles : N;
  wrongPassword : bool
}.

Definition started : Extraction :=
  {| totalFiles := 0; extractedFiles := 0; wrongPassword := false |}.

(** One code unit against an ASCII letter under the [i] flag. *)
Definition eq_ci (lower c : char16) : bool :=
  (c =? lower) || (c =? lower - 32).

(** [/(\d+) files?/i] tried at the head of [s]; the result is group 1. *)
Definition files_here (s : jsstring) : option jsstring :=
  let '(ds, r) := span is_digit s in
  match r with
  | sp :: f :: i :: l :: e :: _ =>
      if nonempty ds && (sp =? 32) && eq_ci 102 f && eq_ci 105 i
         && eq_ci 108 l && eq_ci 101 e
      then Some ds else None
  | _ => None
  end.

Definition filesRegex (s : jsstring) : option jsstring := search files_here s.

(** The handler of a [data] event of stdout. *)
Definition on_stdout (x : Extraction) (output : jsstring) : Extraction :=
  let wrong := wrongPassword x || includes (js "Wrong password") output in
  let total :=
    match filesRegex output with
    | Some g1 =>
        if truthy (Some g1) && (totalFiles x =? 0) then parseInt g1
        else totalFiles x
    | None => totalFiles x
    end in
  let extracted :=
    if includes (js "Extracting") output then extractedFiles x + 1
    else extractedFiles x in
  {| totalFiles := total; extractedFiles := extracted;
     wrongPassword := wrong |}.

(** The handler of a [data] event of stderr. *)
Definition on_stderr (x : Extraction) (err : jsstring) : Extraction :=
  {| totalFiles := totalFiles x; extractedFiles := extractedFiles x;
     wrongPassword :=
       wrongPassword x || includes (js "Wrong password") err |}.

Inductive OutputEvent :=
  | Stdout (data : jsstring)
  | Stderr (data : jsstring).

Definition on_output (x : Extraction) (e : OutputEvent) : Extraction :=
  match e with
  | Stdout d => on_stdout x d
  | Stderr d => on_stderr x d
  end.

(** The value of a fulfilled execa promise, as far as it is read. *)
Record ExecaResult := {
  result_exitCode : N;
  result_stderr : jsstring
}.

(** How [await sevenZipProcess] ends. *)
Inductive Settled :=
  | Fulfilled (r : ExecaResult)
  | Rejected (err : Thrown).

(** execa's promise for a process that exited with [code]: with the option
    [reject] (true unless the call says otherwise) a non-zero exit code
    rejects the promise with an execa error; the [catch] clause of
    [startDownload] above reads [exitCode] from that error. *)
Definition execa_settles (reject : bool) (code : N) (err_output : jsstring)
    (e : ExecaError) : Settled :=
  if (code =? 0) || negb reject
  then Fulfilled {| result_exitCode := code; result_stderr := err_output |}
  else Rejected (ThrownExeca e).

(** The message of a caught value as the inner [catch] reads it. *)
Definition thrown_message (t : Thrown) : jsstring :=
  match t with
  | ThrownExeca e => message e
  | ThrownError m => m
  | ThrownOther s => s
  end.

(** [extractMetaArchive]: [None] when it returns, the message of the error
    it throws otherwise. [events] are the data events of the two streams
    in the order they arrived. *)
Definition extractMetaArchive (cfg : option VrpConfig)
    (events : list OutputEvent) (settled : Settled) : option jsstring :=
  if negb (truthy (cfg ≫= password)) then
    Some (js "Password not found in vrpConfig")
  else
    let x := fold_left on_output events started in
    let thrown : option Thrown :=
      match settled with
      | Rejected err => Some err
      | Fulfilled result =>
          if negb (result_exitCode result =? 0) then
            if wrongPassword x then
              Some (ThrownError (js "Extraction failed: Wrong password for archive"))
            else
              Some (ThrownError
                      (js "7z failed with exit code "
                       ++ String_of_N (result_exitCode result)
                       ++ js ": " ++ result_stderr result))
          else None
      end in
    match thrown with
    | Some decodeError =>
        Some (js "Failed to use password: " ++ thrown_message decodeError)
    | None => None
    end.

End GameService.

(** ** Operations and predicates of the properties *)

(** What the driver can be asked to do, or be told by its subprocess. *)
Inductive Operation :=
  | OpSetVrpConfig (cfg : option VrpConfig)
  | OpStartDownload (path_join : jsstring -> jsstring -> jsstring)
      (getRclonePath : option jsstring) (item : DownloadItem)
      (mkdir : MkdirResult) (spawned : ExecaProcess)
  | OpData (name outputBuffer data : jsstring)
  | OpFulfilled (name : jsstring)
  | OpRejected (name : jsstring) (err : Thrown)
  | OpCancelDownload (name : jsstring) (finalStatus : FinalStatus)
      (errorMsg : option jsstring).

Definition perform (st : State) (op : Operation) : State :=
  match op with
  | OpSetVrpConfig cfg => setVrpConfig cfg st
  | OpStartDownload path_join getRclonePath item mkdir spawned =>
      fst (startDownload_begin path_join getRclonePath item mkdir spawned st)
  | OpData name outputBuffer data => fst (onData name (st, outputBuffer) data)
  | OpFulfilled name => fst (startDownload_resolved name st)
  | OpRejected name err => fst (startDownload_catch name err st)
  | OpCancelDownload name finalStatus errorMsg =>
      cancelDownload name finalStatus errorMsg st
  end.

(** A non-empty error goes with the status Error or InstallError. *)
Definition error_has_status (it : DownloadItem) : Prop :=
  truthy (error it) = true -> status it = Error \/ status it = InstallError.

Definition errors_have_status (st : State) : Prop :=
  Forall error_has_status (queue st).

(** The item is in the queue with a progress of at least [p]. *)
Definition progress_at_least (name : jsstring) (p : N) (st : State) : Prop :=
  exists it, findItem (queue st) name = Some it /\ p <= progress it.

(** A lowercase hexadecimal digit. *)
Definition is_lower_hex (c : char16) : bool :=
  ((48 <=? c) && (c <=? 57)) || ((97 <=? c) && (c <=? 102)).

(** ** Sample values *)

Definition sample_name : jsstring := js "Beat Saber v1.2".

Definition sample_item (s : DownloadStatus) (p : N) (e : option jsstring)
  : DownloadItem :=
  {| releaseName := sample_name; packageName := js "com.example.game";
     gameName := js "Beat Saber"; status := s; progress := p; error := e;
     speed := None; eta := None; extractProgress := None;
     downloadPath := None; pid := None |}.

Definition sample_process : ExecaProcess :=
  {| proc_pid := Some 4242; proc_all := true |}.

Definition sample_config : VrpConfig :=
  {| baseUri := Some (js "https://host.example/files");
     password := Some (js "c2VjcmV0") |}.

(** A processor with one queued entry and no subprocess. *)
Definition sample_idle (it : DownloadItem) (cfg : option VrpConfig) : State :=
  {| queue := [it]; activeDownloads := ∅; vrpConfig := cfg;
     downloadsDir := js "/downloads"; effects := []; emitted := 0 |}.

(** The sample item as [startDownload] leaves it when the transfer runs. *)
Definition sample_downloading : DownloadItem :=
  {| releaseName := sample_name; packageName := js "com.example.game";
     gameName := js "Beat Saber"; status := Downloading; progress := 0;
     error := None; speed := None; eta := None; extractProgress := None;
     downloadPath := Some (js "/downloads/Beat Saber v1.2");
     pid := Some 4242 |}.

(** A processor in the middle of a transfer of the sample release. *)
Definition sample_running : State :=
  {| queue := [sample_downloading];
     activeDownloads := {[ sample_name := sample_process ]};
     vrpConfig := Some sample_config;
     downloadsDir := js "/downloads"; effects := []; emitted := 0 |}.

(** [path.join] on two plain POSIX segments. *)
Definition sample_join (dir name : jsstring) : jsstring := dir ++ js "/" ++ name.

(** What the tests below look at: status, progress, error and ETA. *)
Definition shown (st : State) (name : jsstring)
  : option (DownloadStatus * N * option jsstring * option jsstring) :=
  (fun it => (status it, progress it, error it, eta it)) <$> findItem (queue st) name.

(** The execa error of a subprocess that exited with [code]. *)
Definition sample_exit (code : N) (output : option jsstring) : ExecaError :=
  {| exitCode := Some code; isCanceled := false;
     shortMessage := js "Command failed with exit code " ++ String_of_N code
                     ++ js ": rclone copy";
     message := js "Command failed with exit code " ++ String_of_N code
                ++ js ": rclone copy";
     all_ := output; stderr := None; stdout := None |}.

(** ** More of the download processor *)

(** [isDownloadActive(releaseName)]. *)
Definition isDownloadActive (name : jsstring) (st : State) : bool :=
  bool_decide (is_Some (activeDownloads st !! name)).

(** The release an operation is about. *)
Definition op_target (op : Operation) : option jsstring :=
  match op with
  | OpSetVrpConfig _ => None
  | OpStartDownload _ _ item _ _ => Some (releaseName item)
  | OpData name _ _ => Some name
  | OpFulfilled name => Some name
  | OpRejected name _ => Some name
  | OpCancelDownload name _ _ => Some name
  end.

(** An effect on a running subprocess, as opposed to a directory made or a
    process spawned. *)
Definition is_signal (e : Effect) : bool :=
  match e with
  | RemoveAllListeners _ | Kill _ => true
  | Mkdir _ | Spawn _ _ => false
  end.

(** The number of line feeds of a string. *)
Definition count_lf (s : jsstring) : nat :=
  length (List.filter (fun c => c =? LF) s).

(** A string without line terminator of [/\r\n|\n|\r/]. *)
Definition no_line_end (s : jsstring) : Prop :=
  Forall (fun c => (c =? CR) = false /\ (c =? LF) = false) s.

(** [q'] has the releases of [q] in the same order, and the same item as
    [q] under every release name other than [name]. *)
Definition touches_only (name : option jsstring) (q q' : Queue) : Prop :=
  map releaseName q' = map releaseName q
  /\ forall other, name <> Some other -> findItem q' other = findItem q other.

(** Another queue entry for the samples. *)
Definition sample_item_named (name : jsstring) (s : DownloadStatus)
  : DownloadItem :=
  {| releaseName := name; packageName := js "com.example.other";
     gameName := name; status := s; progress := 0; error := None;
     speed := None; eta := None; extractProgress := None;
     downloadPath := None; pid := None |}.

(** From [st] to [st'] the effects grew by signals only, and the table of
    subprocesses is the same or lost the handle of [name]. *)
Definition only_signals (name : jsstring) (st st' : State) : Prop :=
  exists es,
    effects st' = effects st ++ es
    /\ Forall (fun e => is_signal e = true) es
    /\ (activeDownloads st' = activeDownloads st
        \/ activeDownloads st' = delete name (activeDownloads st)).

(** The update [updateItemStatus] hands to the queue manager. *)
Definition status_updates (s : DownloadStatus) (p : N)
    (err spd et : option jsstring) (xp : option N) : Updates :=
  {| u_status := Some s; u_progress := Some p; u_error := Some err;
     u_speed := Some spd; u_eta := Some et;
     u_extractProgress :=
       match xp with
       | Some x => Some (Some x)
       | None =>
           match s with
           | Extracting | Completed => None
           | _ => Some None
           end
       end;
     u_downloadPath := None; u_pid := None |}.

(** ** More string operations *)

(** [s.trim()]: white space and line terminators off both ends. *)
Fixpoint trim_start (s : jsstring) : jsstring :=
  match s with
  | c :: s' => if is_space c then trim_start s' else s
  | [] => []
  end.

Definition trim (s : jsstring) : jsstring :=
  rev (trim_start (rev (trim_start s))).

(** [a.indexOf(x)] on an array of strings: [None] is -1. *)
Fixpoint indexOf (x : jsstring) (a : list jsstring) : option nat :=
  match a with
  | [] => None
  | y :: a' => if bool_decide (y = x) then Some O else S <$> indexOf x a'
  end.

(** [s.endsWith(p)]. *)
Definition ends_with (p s : jsstring) : bool := starts_with (rev p) (rev s).

(** [pieces.join(sep)] with a separator string. *)
Fixpoint join_str (sep : jsstring) (pieces : list jsstring) : jsstring :=
  match pieces with
  | [] => []
  | [p] => p
  | p :: rest => p ++ sep ++ join_str sep rest
  end.

(** ** The extraction counters, read per data event *)

(** The data event holds the marker of a wrong password. *)
Definition mentions_wrong_password (e : GameService.OutputEvent) : bool :=
  match e with
  | GameService.Stdout d | GameService.Stderr d =>
      includes (js "Wrong password") d
  end.

(** The data event is one of stdout that holds "Extracting". *)
Definition mentions_extracting (e : GameService.OutputEvent) : bool :=
  match e with
  | GameService.Stdout d => includes (js "Extracting") d
  | GameService.Stderr _ => false
  end.

(** ** The game list ([GameService.parseGameList]) *)

Module GameCatalog.

Section ParseGameList.

(** JavaScript numbers, [parseFloat(downloads) || 0], [path.join] of three
    segments, [existsSync], and [gameName.replace(/\s+/g, '-').toLowerCase()]
    are taken as they come; [metaPath] is the field of the service. *)
Variable Number : Type.
Variable downloads_number : jsstring -> Number.
Variable path_join3 : jsstring -> jsstring -> jsstring -> jsstring.
Variable existsSync : jsstring -> bool.
Variable slug : jsstring -> jsstring.
Variable metaPath : jsstring.

Record GameInfo := {
  id : jsstring;
  name : jsstring;
  packageName : jsstring;
  version : jsstring;
  size : jsstring;
  lastUpdated : jsstring;
  releaseName : jsstring;
  downloads : Number;
  thumbnailPath : jsstring;
  isInstalled : bool
}.

(** [index >= 0 ? parts[index].trim() : absent]. (An index beyond the parts
    cannot occur: a line with fewer parts than columns is skipped before.) *)
Definition column (index : option nat) (parts : list jsstring)
    (absent : jsstring) : jsstring :=
  match index with
  | Some i => trim (nth i parts [])
  | None => absent
  end.

(** The body of the loop for one trimmed, non-empty line: the entry, or
    [None] when the line is skipped. *)
Definition parseGameLine (columns : list jsstring) (line : jsstring)
  : option GameInfo :=
  let parts := split_on 59 line in
  if (length parts <? length columns)%nat then None
  else
    let gameName := column (indexOf (js "Game Name") columns) parts (js "Unknown") in
    let packageName := column (indexOf (js "Package Name") columns) parts [] in
    let versionCode := column (indexOf (js "Version Code") columns) parts [] in
    let size :=
      match indexOf (js "Size (MB)") columns with
      | Some i => trim (nth i parts []) ++ js " MB"
      | None => []
      end in
    let lastUpdated := column (indexOf (js "Last Updated") columns) parts [] in
    let releaseName := column (indexOf (js "Release Name") columns) parts [] in
    let downloads := column (indexOf (js "Downloads") columns) parts [] in
    if negb (nonempty gameName) || negb (nonempty packageName) then None
    else
      let thumbnailPath :=
        if nonempty packageName
        then path_join3 metaPath (js "thumbnails") (packageName ++ js ".jpg")
        else [] in
      Some {| id := if nonempty packageName then packageName else slug gameName;
              name := gameName;
              packageName := packageName;
              version := versionCode;
              size := size;
              lastUpdated := lastUpdated;
              releaseName := releaseName;
              downloads := downloads_number downloads;
              thumbnailPath :=
                if existsSync thumbnailPath then thumbnailPath else [];
              isInstalled := false |}.

(** The column names of a header line. *)
Definition header_columns (headerLine : jsstring) : list jsstring :=
  map trim (split_on 59 headerLine).

(** [parseGameList(data)]: the value of [this.games] afterwards, [games]
    being its value before. *)
Definition parseGameList (data : jsstring) (games : list GameInfo)
  : list GameInfo :=
  match split_on LF data with
  | headerLine :: rest =>
      if negb (nonempty headerLine) || negb (includes (js ";") headerLine)
      then games
      else
        omap (fun l =>
                let line := trim l in
                if nonempty line
                then parseGameLine (header_columns headerLine) line
                else None) rest
  | [] => games
  end.

End ParseGameList.

Arguments id {Number} _.
Arguments name {Number} _.
Arguments packageName {Number} _.
Arguments thumbnailPath {Number} _.
Arguments isInstalled {Number} _.
Arguments parseGameLine {Number} _ _ _ _ _ _ _.
Arguments parseGameList {Number} _ _ _ _ _ _ _.

End GameCatalog.

(** ** The two [initialize] methods and their flags *)

(** Modelled from the uses in the sources ('./service' is not among them):
    the values of [ServiceStatus] that the two services return. *)
Inductive ServiceStatus := INITIALIZING | INITIALIZED | ERROR.

Record Flags := {
  isInitializing : bool;
  isInitialized : bool
}.

(** The part of [initialize] before its first [await], the same in
    [GameService] and [DependencyService]: the status returned at once, or
    [None] when the call goes on, with [isInitializing] set. *)
Definition initialize_enter (force : bool) (f : Flags)
  : Flags * option ServiceStatus :=
  if isInitializing f then (f, Some INITIALIZING)
  else if negb force && isInitialized f then (f, Some INITIALIZED)
  else ({| isInitializing := true; isInitialized := isInitialized f |}, None).

(** How the rest of [GameService.initialize] goes: [fs.mkdir], which stands
    before the [try], rejects with [t]; or the body of the [try] throws; or
    it returns. *)
Inductive GameInit :=
  | MkdirRejects (t : Thrown)
  | BodyThrows
  | BodyReturns.

(** The rest of [GameService.initialize]: the flags, and on the right the
    status the promise is fulfilled with, on the left what it is rejected
    with. *)
Definition game_initialize_leave (how : GameInit) (f : Flags)
  : Flags * (Thrown + ServiceStatus) :=
  match how with
  | MkdirRejects t => (f, inl t)
  | BodyThrows =>
      ({| isInitializing := false; isInitialized := true |}, inr ERROR)
  | BodyReturns =>
      ({| isInitializing := false; isInitialized := true |}, inr INITIALIZED)
  end.

(** ** The dependency service *)

Module Dependencies.

Record DependencyInfo := {
  ready : bool;
  path : option jsstring;
  error : option jsstring
}.

(** The three entries of [DependencyStatus] (the [downloading] flags of
    rclone and adb are not read by the code modelled here). *)
Record DependencyStatus := {
  sevenZip : DependencyInfo;
  rclone : DependencyInfo;
  adb : DependencyInfo
}.

(** [process.platform] and [process.arch]. *)
Inductive Platform := Win32 | Darwin | Linux | OtherPlatform (name : jsstring).
Inductive Arch := X64 | Arm64 | Ia32 | OtherArch (name : jsstring).

Definition platform_name (p : Platform) : jsstring :=
  match p with
  | Win32 => js "win32"
  | Darwin => js "darwin"
  | Linux => js "linux"
  | OtherPlatform n => n
  end.

(** The end of [DependencyService.initialize], after the three checks have
    returned with [status]: the flags are set first; then the error message
    of the rejection on the left, or the status returned on the right. *)
Definition initialize_leave (status : DependencyStatus) (f : Flags)
  : Flags * (jsstring + ServiceStatus) :=
  let f' := {| isInitializing := false; isInitialized := true |} in
  if negb (ready (sevenZip status)) || negb (ready (rclone status))
     || negb (ready (adb status))
  then
    let missing :=
      (if ready (sevenZip status) then [] else [js "7zip"])
      ++ (if ready (rclone status) then [] else [js "rclone"])
      ++ (if ready (adb status) then [] else [js "adb"]) in
    let errorMessage :=
      js "Dependency setup failed. Missing or failed: "
      ++ join_str (js ", ") missing ++ js ". " in
    let errorMessage :=
      if truthy (error (sevenZip status))
      then errorMessage ++ js "7zip Error: "
           ++ default [] (error (sevenZip status)) ++ js " "
      else errorMessage in
    let errorMessage :=
      if truthy (error (rclone status))
      then errorMessage ++ js "Rclone Error: "
           ++ default [] (error (rclone status))
      else errorMessage in
    let errorMessage :=
      if truthy (error (adb status))
      then errorMessage ++ js "ADB Error: " ++ default [] (error (adb status))
      else errorMessage in
    (f', inl errorMessage)
  else (f', inr INITIALIZED).

(** An asset of a GitHub release. *)
Record GitHubAsset := {
  asset_name : jsstring;
  browser_download_url : option jsstring
}.

(** [getRcloneDownloadUrl]. [response] is what the request gave: [None]
    when it threw, else the [assets] of the release, [None] when that is
    missing or no array. *)
Definition getRcloneDownloadUrl (platform : Platform) (arch : Arch)
    (response : option (option (list GitHubAsset))) : option jsstring :=
  match response with
  | None => None
  | Some None => None
  | Some (Some assets) =>
      let platformSuffix :=
        match platform with
        | Win32 => Some (js "windows")
        | Darwin => Some (js "osx")
        | Linux => Some (js "linux")
        | OtherPlatform _ => None
        end in
      let archSuffix :=
        match arch with
        | X64 => Some (js "amd64")
        | Arm64 => Some (js "arm64")
        | Ia32 => Some (js "386")
        | OtherArch _ => None
        end in
      match platformSuffix, archSuffix with
      | Some ps, Some asx =>
          let targetFileNamePattern := js "-" ++ ps ++ js "-" ++ asx ++ js ".zip" in
          match List.find (fun a => ends_with targetFileNamePattern (asset_name a))
                  assets with
          | Some targetAsset =>
              if truthy (browser_download_url targetAsset)
              then browser_download_url targetAsset
              else None
          | None => None
          end
      | _, _ => None
      end
  end.

(** What a call of [copyFileSync] or [chmodSync] did. *)
Inductive FsResult :=
  | FsOk
  | FsError (msg : jsstring)
  | FsThrewOther (str : jsstring).

Definition fs_message (r : FsResult) : jsstring :=
  match r with
  | FsOk => []
  | FsError m => m
  | FsThrewOther s => s
  end.

(** The calls [checkBundled7zip] makes on files. *)
Inductive FsEffect :=
  | CopyFile (source target : jsstring)
  | Chmod (target : jsstring).

(** [s.split(/[/\\]/).pop()]: what follows the last slash or backslash. *)
Fixpoint after_last_separator (cur s : jsstring) : jsstring :=
  match s with
  | [] => rev cur
  | c :: s' =>
      if (c =? 47) || (c =? 92) then after_last_separator [] s'
      else after_last_separator (c :: cur) s'
  end.

Section Bundled7zip.

(** [path.join] of three and of two segments, [existsSync] as it answers
    at the time of the call, the platform, [app.isPackaged] and the two
    directories of the service. *)
Variable path_join3 : jsstring -> jsstring -> jsstring -> jsstring.
Variable path_join : jsstring -> jsstring -> jsstring.
Variable existsSync : jsstring -> bool.
Variable platform : Platform.
Variable isPackaged : bool.
Variable resourcesBinDir : jsstring.
Variable binDir : jsstring.

(** [get7zPath()]: [None] when it throws (unsupported platform). *)
Definition get7zPath : option jsstring :=
  let dirs :=
    match platform with
    | Win32 => Some (js "win", js "7za.exe")
    | Linux => Some (js "linux", js "7zzs")
    | Darwin => Some (js "mac", js "7zz")
    | OtherPlatform _ => None
    end in
  match dirs with
  | Some (platformDir, binaryName) =>
      Some (path_join3 resourcesBinDir
              (if isPackaged then [] else platformDir) binaryName)
  | None => None
  end.

(** [checkBundled7zip()], given what [copyFileSync] and [chmodSync] do when
    they are called: the entry of 7zip afterwards and the calls made, or
    [None] when [get7zPath] threw. *)
Definition checkBundled7zip (copy chmod : FsResult) (s : DependencyInfo)
  : option (DependencyInfo * list FsEffect) :=
  match get7zPath with
  | None => None
  | Some source7zPath =>
      if negb (nonempty source7zPath) then
        Some ({| ready := false; path := path s;
                 error := Some (js "Unsupported platform for bundled 7zip: "
                                ++ platform_name platform) |}, [])
      else if negb (existsSync source7zPath) then
        Some ({| ready := false; path := path s;
                 error := Some (js "Bundled 7zip NOT found at source path: "
                                ++ source7zPath
                                ++ js ". Check app packaging.") |}, [])
      else
        let binaryName := after_last_separator [] source7zPath in
        if negb (nonempty binaryName) then
          Some ({| ready := false; path := path s;
                   error := Some (js "Could not determine binary name from path: "
                                  ++ source7zPath) |}, [])
        else
          let target7zPath := path_join binDir binaryName in
          let copied :=
            if existsSync target7zPath then []
            else [CopyFile source7zPath target7zPath] in
          match (if existsSync target7zPath then FsOk else copy) with
          | FsOk =>
              match platform with
              | Win32 =>
                  Some ({| ready := true; path := Some target7zPath;
                           error := None |}, copied)
              | _ =>
                  match chmod with
                  | FsOk =>
                      Some ({| ready := true; path := Some target7zPath;
                               error := None |},
                            copied ++ [Chmod target7zPath])
                  | failure =>
                      Some ({| ready := false; path := Some target7zPath;
                               error :=
                                 Some (js "Permission error on copied file: "
                                       ++ fs_message failure) |},
                            copied ++ [Chmod target7zPath])
                  end
              end
          | failure =>
              Some ({| ready := false; path := Some source7zPath;
                       error := Some (js "Failed to set up 7zip: "
                                      ++ fs_message failure) |}, copied)
          end
  end.

End Bundled7zip.

End Dependencies.

(** One call of [GameService.initialize], from the flags before it: the
    flags after it, and the status returned on the right, what the promise
    is rejected with on the left. [how] is read only when the call goes past
    its guards. *)
Definition game_initialize (force : bool) (how : GameInit) (f : Flags)
  : Flags * (Thrown + ServiceStatus) :=
  match initialize_enter force f with
  | (f', Some s) => (f', inr s)
  | (f', None) => game_initialize_leave how f'
  end.

(** How a call of [DependencyService.initialize] goes once past its guards:
    [fsPromises.mkdir] rejects or [checkBundled7zip] throws, with [t],
    before the flags are set again; or the three checks return with
    [status]. *)
Inductive DependencyInit :=
  | SetupThrows (t : Thrown)
  | ChecksReturn (status : Dependencies.DependencyStatus).

(** One call of [DependencyService.initialize]: the flags after it, and the
    status returned on the right, what the promise is rejected with on the
    left. *)
Definition dependency_initialize (force : bool) (how : DependencyInit)
    (f : Flags) : Flags * (Thrown + ServiceStatus) :=
  match initialize_enter force f with
  | (f', Some s) => (f', inr s)
  | (f', None) =>
      match how with
      | SetupThrows t => (f', inl t)
      | ChecksReturn status =>
          match Dependencies.initialize_leave status f' with
          | (f'', inl errorMessage) => (f'', inl (ThrownError errorMessage))
          | (f'', inr s) => (f'', inr s)
          end
      end
  end.

(** ** The handler of 'initialize-dependencies' *)

(** One call of the progress callback: [{ name, percentage }]. The status
    object passed with it is the one of the service, as in the two messages
    that end the set-up. *)
Record ProgressReport := {
  report_name : jsstring;
  report_percentage : N
}.

(** What the handler sends to the renderer: 'dependency-progress',
    'dependency-setup-complete', 'service-init-error' and
    'dependency-setup-error'. *)
Inductive RendererMessage :=
  | DependencyProgress (report : ProgressReport)
  | DependencySetupComplete
  | ServiceInitError (message : jsstring)
  | DependencySetupError (message : jsstring).

(** What the handler does that can be seen: a message sent, or the
    [initialize] of one of the three other services called. *)
Inductive HandlerStep :=
  | Sends (m : RendererMessage)
  | InitializesAdb
  | InitializesGames
  | InitializesDownloads.

(** [error instanceof Error ? error.message : fallback]. *)
Definition message_or (fallback : jsstring) (t : Thrown) : jsstring :=
  match t with
  | ThrownExeca e => message e
  | ThrownError m => m
  | ThrownOther _ => fallback
  end.

(** [sendDependencyProgress], the callback the handler passes to
    [dependencyService.initialize]; [window] is the answer of
    [mainWindow && !mainWindow.isDestroyed()] when it is called. *)
Definition sendDependencyProgress (window : bool) (report : ProgressReport)
  : list HandlerStep :=
  if window then [Sends (DependencyProgress report)] else [].

(** The calls of the callback during one call of
    [DependencyService.initialize]. [checkOrDownloadRclone] and
    [checkOrDownloadAdb] call it when their binary is missing, first with
    percentage 0, then as the download and the extraction go; [reports] are
    these calls in order, each with the answer of the window test at that
    moment. There is none when a guard returns at once, or when the set-up
    throws, which is before the two checks. *)
Definition progress_calls (force : bool) (how : DependencyInit)
    (reports : list (ProgressReport * bool)) (f : Flags)
  : list (ProgressReport * bool) :=
  match initialize_enter force f with
  | (_, Some _) => []
  | (_, None) =>
      match how with
      | SetupThrows _ => []
      | ChecksReturn _ => reports
      end
  end.

(** What the calls of the callback send. *)
Definition progress_steps (calls : list (ProgressReport * bool))
  : list HandlerStep :=
  flat_map (fun call => sendDependencyProgress (snd call) (fst call)) calls.

(** The [catch] around the three dependent services. *)
Definition service_init_failed (windowLater : bool) (t : Thrown)
  : list HandlerStep :=
  if windowLater
  then [Sends (ServiceInitError
                 (message_or (js "Unknown service initialization error") t))]
  else [].

(** The inner [try] of the handler, from the flags of the game service:
    the three dependent services in turn. [adb] and [downloads] say what
    the [initialize] of [adbService] and of [downloadService] throw, if
    anything (the two services are not among the sources); [windowLater] is
    the answer of [mainWindow && !mainWindow.isDestroyed()] in the
    [catch]. *)
Definition initialize_dependent_services (adb : option Thrown)
    (how_game : GameInit) (downloads : option Thrown) (windowLater : bool)
    (fg : Flags) : Flags * list HandlerStep :=
  match adb with
  | Some t => (fg, [InitializesAdb] ++ service_init_failed windowLater t)
  | None =>
      match game_initialize false how_game fg with
      | (fg', inl t) =>
          (fg', [InitializesAdb; InitializesGames]
                ++ service_init_failed windowLater t)
      | (fg', inr INITIALIZED) =>
          (fg', [InitializesAdb; InitializesGames; InitializesDownloads]
                ++ match downloads with
                   | Some t => service_init_failed windowLater t
                   | None => []
                   end)
      | (fg', inr _) => (fg', [InitializesAdb; InitializesGames])
      end
  end.

(** The handler of 'initialize-dependencies', from the flags of the
    dependency service and of the game service: the flags afterwards and
    the steps taken, the messages of the progress callback first. [window]
    is the answer of [mainWindow && !mainWindow.isDestroyed()] at the first
    place the handler itself asks on its way. [webContents.send] is taken
    not to throw. *)
Definition on_initialize_dependencies (how_dep : DependencyInit)
    (reports : list (ProgressReport * bool))
    (adb : option Thrown) (how_game : GameInit) (downloads : option Thrown)
    (window windowLater : bool) (flags : Flags * Flags)
  : Flags * Flags * list HandlerStep :=
  let '(fd, fg) := flags in
  let progress := progress_steps (progress_calls false how_dep reports fd) in
  match dependency_initialize false how_dep fd with
  | (fd', inl error) =>
      (fd', fg,
       progress
       ++ if window
          then [Sends (DependencySetupError
                         (message_or
                            (js "Unknown dependency initialization error")
                            error))]
          else [])
  | (fd', inr INITIALIZING) => (fd', fg, progress)
  | (fd', inr _) =>
      if window then
        let '(fg', steps) :=
          initialize_dependent_services adb how_game downloads windowLater
            fg in
        (fd', fg', progress ++ Sends DependencySetupComplete :: steps)
      else (fd', fg, progress)
  end.

(** ** The games view (renderer) *)

Module GamesView.

(** The entry of [downloadStatusMap] for an item of the queue. *)
Definition status_entry (item : DownloadItem) : DownloadStatus * N :=
  (status item,
   match status item with
   | Extracting => default 0 (extractProgress item)
   | _ => progress item
   end).

(** [downloadStatusMap]: the entries are set in the order of the queue;
    an item without a release name sets none. *)
Definition downloadStatusMap (downloadQueue : list DownloadItem)
  : gmap jsstring (DownloadStatus * N) :=
  fold_left
    (fun map item =>
       if nonempty (releaseName item)
       then <[releaseName item := status_entry item]> map
       else map)
    downloadQueue ∅.

Inductive FilterType := FilterAll | FilterInstalled | FilterUpdate.

Section ColumnFilters.

(** The values of column filters, of which the view writes only [true]. *)
Variable Value : Type.
Variable value_true : Value.

Record ColumnFilter := {
  filter_id : jsstring;
  filter_value : Value
}.

(** A filter on a column other than the two of the quick filter. *)
Definition is_other_filter (f : ColumnFilter) : bool :=
  negb (bool_decide (filter_id f = js "isInstalled"))
  && negb (bool_decide (filter_id f = js "hasUpdate")).

(** The update of the column filters when [activeFilter] changes. *)
Definition applyActiveFilter (activeFilter : FilterType)
    (prev : list ColumnFilter) : list ColumnFilter :=
  let otherFilters := List.filter is_other_filter prev in
  match activeFilter with
  | FilterInstalled =>
      otherFilters
      ++ [{| filter_id := js "isInstalled"; filter_value := value_true |}]
  | FilterUpdate =>
      otherFilters
      ++ [{| filter_id := js "isInstalled"; filter_value := value_true |};
          {| filter_id := js "hasUpdate"; filter_value := value_true |}]
  | FilterAll => otherFilters
  end.

End ColumnFilters.

Arguments filter_id {Value} _.
Arguments filter_value {Value} _.
Arguments is_other_filter {Value} _.
Arguments applyActiveFilter {Value} _ _ _.

End GamesView.

(** Every line feed preceded by a carriage return. *)
Definition crlf (s : jsstring) : jsstring :=
  flat_map (fun c => if c =? LF then [CR; LF] else [c]) s.

(** The end of the name of the rclone archive for a platform and an
    architecture, [None] when one of them is not supported. *)
Definition rclone_asset_pattern (platform : Dependencies.Platform)
    (arch : Dependencies.Arch) : option jsstring :=
  match platform, arch with
  | Dependencies.OtherPlatform _, _ => None
  | _, Dependencies.OtherArch _ => None
  | _, _ =>
      Some (js "-"
            ++ match platform with
               | Dependencies.Win32 => js "windows"
               | Dependencies.Darwin => js "osx"
               | _ => js "linux"
               end
            ++ js "-"
            ++ match arch with
               | Dependencies.X64 => js "amd64"
               | Dependencies.Arm64 => js "arm64"
               | _ => js "386"
               end
            ++ js ".zip")
  end.

(** Two strings of which the first is the second, possibly with one more
    carriage return at its end. *)
Definition upto_cr (a b : jsstring) : Prop := a = b \/ a = b ++ [CR].

(** The call of execa in [startDownload] sets [buffer: false]: execa then
    keeps nothing of what the process writes, and the error it rejects with
    has no [all], no [stderr] and no [stdout]. *)
Definition unbuffered (e : ExecaError) : bool :=
  match all_ e, stderr e, stdout e with
  | None, None, None => true
  | _, _, _ => false
  end.

(** The error execa rejects with when 7z has written [err_output] to stderr
    and exited with code 2: the call in [extractMetaArchive] leaves the
    buffering on, and the message is the short message followed by the
    output. *)
Definition sample_7z_exit (err_output : jsstring) : ExecaError :=
  {| exitCode := Some 2; isCanceled := false;
     shortMessage :=
       js "Command failed with exit code 2: 7z x meta.7z -o/data -psecret -y";
     message :=
       js "Command failed with exit code 2: 7z x meta.7z -o/data -psecret -y"
       ++ [LF; LF] ++ err_output;
     all_ := None; stderr := Some err_output; stdout := Some [] |}.

(** * Properties *)

(** ** Strings and the remote object identifier *)

(** Test vectors of RFC 1321 and two longer messages. *)
Example md5_empty : hex_of_bytes (MD5.digest []) = js "d41d8cd98f00b204e9800998ecf8427e".
Proof. vm_compute. reflexivity. Qed.

Example md5_abc :
  hex_of_bytes (MD5.digest (utf8_encode (js "abc")))
  = js "900150983cd24fb0d6963f7d28e17f72".
Proof. vm_compute. reflexivity. Qed.

Example md5_two_blocks :
  hex_of_bytes (MD5.digest (repeat 120 70))
  = js "7d56c0f83fd1e320d60ea2f13dfdeedd".
Proof. vm_compute. reflexivity. Qed.

Example md5_fox :
  hex_of_bytes (MD5.digest (utf8_encode (js "The quick brown fox jumps over the lazy dog")))
  = js "9e107d9d372bb6826bd81d3542a419d6".
Proof. vm_compute. reflexivity. Qed.

Lemma utf8_line_feed_alone : utf8_encode [LF] = [LF].
Proof. reflexivity. Qed.

Lemma line_feed_not_low_surrogate : is_low_surrogate LF = false.
Proof. reflexivity. Qed.

(** Appending a line feed to a string appends one byte to its encoding: the
    line feed pairs with no surrogate before it. *)
Lemma utf8_encode_line_feed (s : jsstring) :
  utf8_encode (s ++ [LF]) = utf8_encode s ++ [LF].
Proof.
  remember (length s) as n eqn:Hn.
  revert s Hn.
  induction n as [n IH] using lt_wf_ind.
  intros s ->. destruct s as [|c s'].
  - reflexivity.
  - cbn [app utf8_encode].
    destruct (is_high_surrogate c).
    + destruct s' as [|d s''].
      * cbn [app]. rewrite line_feed_not_low_surrogate.
        rewrite utf8_line_feed_alone. reflexivity.
      * cbn [app]. destruct (is_low_surrogate d).
        -- rewrite (IH (length s'')) by (cbn [length]; lia || reflexivity).
           now rewrite <- app_assoc.
        -- change (d :: s'' ++ [LF]) with ((d :: s'') ++ [LF]).
           rewrite (IH (length (d :: s''))) by (cbn [length]; lia || reflexivity).
           now rewrite <- app_assoc.
    + destruct (is_low_surrogate c);
        rewrite (IH (length s')) by (cbn [length]; lia || reflexivity);
        now rewrite <- app_assoc.
Qed.

Lemma le_bytes_length n x : length (MD5.le_bytes n x) = n.
Proof. unfold MD5.le_bytes. now rewrite length_map, length_seq. Qed.

Lemma le_bytes_small n x : Forall (fun b => b < 256) (MD5.le_bytes n x).
Proof.
  unfold MD5.le_bytes. apply List.Forall_forall. intros b Hb.
  apply List.in_map_iff in Hb as (i & <- & _).
  change 0xFF with (N.ones 8). rewrite N.land_ones.
  apply N.mod_lt. discriminate.
Qed.

Lemma digest_length msg : length (MD5.digest msg) = 16%nat.
Proof.
  unfold MD5.digest.
  destruct (MD5.blocks _ _ _) as [[[a b] c] d].
  rewrite !length_app, !le_bytes_length. reflexivity.
Qed.

Lemma digest_bytes msg : Forall (fun b => b < 256) (MD5.digest msg).
Proof.
  unfold MD5.digest.
  destruct (MD5.blocks _ _ _) as [[[a b] c] d].
  repeat (apply Forall_app; split); apply le_bytes_small.
Qed.

Lemma hex_digit_lower d : d < 16 -> is_lower_hex (hex_digit d) = true.
Proof.
  intros Hd. unfold hex_digit, is_lower_hex.
  destruct (d <? 10) eqn:E.
  - apply N.ltb_lt in E.
    replace (48 <=? 48 + d) with true by (symmetry; apply N.leb_le; lia).
    replace (48 + d <=? 57) with true by (symmetry; apply N.leb_le; lia).
    reflexivity.
  - apply N.ltb_ge in E.
    replace (97 <=? 87 + d) with true by (symmetry; apply N.leb_le; lia).
    replace (87 + d <=? 102) with true by (symmetry; apply N.leb_le; lia).
    apply orb_true_r.
Qed.

Lemma hex_of_bytes_length bs : length (hex_of_bytes bs) = (2 * length bs)%nat.
Proof.
  unfold hex_of_bytes. induction bs as [|b bs IH]; cbn [flat_map length app].
  - reflexivity.
  - rewrite IH. lia.
Qed.

Lemma hex_of_bytes_lower bs :
  Forall (fun b => b < 256) bs ->
  Forall (fun c => is_lower_hex c = true) (hex_of_bytes bs).
Proof.
  unfold hex_of_bytes. induction 1 as [|b bs Hb _ IH]; cbn [flat_map app].
  - constructor.
  - constructor; [|constructor; [|exact IH]]; apply hex_digit_lower.
    + rewrite N.shiftr_div_pow2. change (2 ^ 4) with 16.
      apply N.Div0.div_lt_upper_bound. lia.
    + change 0xF with (N.ones 4). rewrite N.land_ones.
      apply N.mod_lt. discriminate.
Qed.

(** ** What the state updates leave alone *)

Lemma qm_updateItem_frame name u st :
  effects (fst (qm_updateItem name u st)) = effects st
  /\ activeDownloads (fst (qm_updateItem name u st)) = activeDownloads st
  /\ emitted (fst (qm_updateItem name u st)) = emitted st
  /\ queue (fst (qm_updateItem name u st)) = fst (updateItem (queue st) name u).
Proof.
  unfold qm_updateItem. destruct (updateItem (queue st) name u); cbn. auto.
Qed.

Lemma updateItemStatus_frame name s p e sp et xp st :
  effects (updateItemStatus name s p e sp et xp st) = effects st
  /\ activeDownloads (updateItemStatus name s p e sp et xp st)
     = activeDownloads st.
Proof.
  unfold updateItemStatus, qm_updateItem.
  destruct (updateItem _ _ _) as [q []]; cbn; auto.
Qed.

Lemma cleanup_effects name st : effects (cleanup name st) = effects st.
Proof.
  unfold cleanup. destruct (activeDownloads st !! name); [|reflexivity].
  now rewrite (proj1 (qm_updateItem_frame _ _ _)).
Qed.

Lemma startDownload_catch_effects name err st :
  effects (fst (startDownload_catch name err st)) = effects st.
Proof.
  unfold startDownload_catch.
  destruct err as [e| |]; cbn zeta;
    repeat match goal with
           | |- context [if ?b then _ else _] => destruct b
           end;
    cbn [fst effects debouncedEmitUpdate];
    rewrite ?(proj1 (updateItemStatus_frame _ _ _ _ _ _ _ _)),
            ?(proj1 (qm_updateItem_frame _ _ _)), ?cleanup_effects;
    reflexivity.
Qed.

Section StartDownloadFacts.

Variable path_join : jsstring -> jsstring -> jsstring.
Variable getRclonePath : option jsstring.

(** The effects of [startDownload] up to the wait for the subprocess, when
    the configuration is complete, rclone is found and the directory could
    be made: the directory, then one spawn of rclone with the documented
    arguments (whatever the spawn returned). *)
Lemma startDownload_begin_spawns item spawned st uri rclonePath :
  config_ready (vrpConfig st) = Some uri ->
  getRclonePath = Some rclonePath ->
  rclonePath <> [] ->
  let name := releaseName item in
  let downloadPath := path_join (downloadsDir st) name in
  effects (fst (startDownload_begin path_join getRclonePath item MkdirOk
                  spawned st))
  = effects st
    ++ [Mkdir downloadPath;
        Spawn rclonePath (rclone_args name downloadPath uri)].
Proof.
  intros Hcfg Hpath Hne name downloadPath.
  unfold startDownload_begin. rewrite Hcfg, Hpath.
  destruct rclonePath as [|c r]; [contradiction|]. cbn [truthy negb].
  destruct (pid_truthy spawned && proc_all spawned).
  - cbn [fst]. rewrite (proj1 (qm_updateItem_frame _ _ _)).
    cbn [with_active effects do_effects].
    rewrite (proj1 (updateItemStatus_frame _ _ _ _ _ _ _ _)).
    cbn [effects do_effects].
    rewrite (proj1 (qm_updateItem_frame _ _ _)).
    now rewrite <- app_assoc.
  - destruct (startDownload_catch _ _ _) as [st5 o] eqn:E. cbn [fst].
    change st5 with (fst (st5, o)). rewrite <- E.
    rewrite startDownload_catch_effects.
    cbn [effects do_effects].
    rewrite (proj1 (updateItemStatus_frame _ _ _ _ _ _ _ _)).
    cbn [effects do_effects].
    rewrite (proj1 (qm_updateItem_frame _ _ _)).
    now rewrite <- app_assoc.
Qed.

End StartDownloadFacts.

(** ** The queue manager *)

Lemma releaseName_merge it u : releaseName (merge it u) = releaseName it.
Proof. reflexivity. Qed.

Lemma findItem_name q name it : findItem q name = Some it -> releaseName it = name.
Proof.
  unfold findItem. intros H. apply List.find_some in H as [_ H].
  now apply bool_decide_eq_true in H.
Qed.

Lemma findItem_updateItem q name u it :
  findItem q name = Some it ->
  findItem (fst (updateItem q name u)) name = Some (merge it u).
Proof.
  unfold findItem. induction q as [|x q IH]; cbn [List.find updateItem]; [discriminate|].
  destruct (bool_decide (releaseName x = name)) eqn:E.
  - intros [= ->]. cbn [fst List.find]. rewrite releaseName_merge, E. reflexivity.
  - intros H. destruct (updateItem q name u) as [q' c] eqn:Eq.
    cbn [fst List.find]. rewrite E. exact (IH H).
Qed.

Lemma findItem_updateItem_other q name u name' :
  name' <> name ->
  findItem (fst (updateItem q name u)) name' = findItem q name'.
Proof.
  unfold findItem. intros Hne.
  induction q as [|x q IH]; cbn [List.find updateItem]; [reflexivity|].
  destruct (bool_decide (releaseName x = name)) eqn:E.
  - cbn [fst List.find]. rewrite releaseName_merge.
    apply bool_decide_eq_true in E.
    rewrite !bool_decide_eq_false_2 by congruence. reflexivity.
  - destruct (updateItem q name u) as [q' c] eqn:Eq.
    cbn [fst List.find] in *. now rewrite IH.
Qed.

Lemma updateItem_absent q name u :
  findItem q name = None -> updateItem q name u = (q, false).
Proof.
  unfold findItem. induction q as [|x q IH]; cbn [List.find updateItem]; [reflexivity|].
  destruct (bool_decide (releaseName x = name)); [discriminate|].
  intros H. now rewrite (IH H).
Qed.

(** An update that changes no field of the item leaves the queue as it is. *)
Lemma updateItem_same q name u it :
  findItem q name = Some it -> merge it u = it ->
  updateItem q name u = (q, false).
Proof.
  unfold findItem. induction q as [|x q IH]; cbn [List.find updateItem]; [discriminate|].
  destruct (bool_decide (releaseName x = name)).
  - intros [= ->] Hm. rewrite Hm. now rewrite bool_decide_eq_true_2.
  - intros H Hm. now rewrite (IH H Hm).
Qed.

Lemma updateItem_length q name u : length (fst (updateItem q name u)) = length q.
Proof.
  induction q as [|x q IH]; cbn [updateItem]; [reflexivity|].
  destruct (bool_decide (releaseName x = name)); [reflexivity|].
  destruct (updateItem q name u). cbn [fst length] in *. now rewrite IH.
Qed.

(** The fields of the item after [updateItemStatus]. *)
Lemma findItem_updateItemStatus name s p e sp et xp st it :
  findItem (queue st) name = Some it ->
  exists it',
    findItem (queue (updateItemStatus name s p e sp et xp st)) name = Some it'
    /\ status it' = s /\ progress it' = p /\ error it' = e
    /\ speed it' = sp /\ eta it' = et
    /\ pid it' = pid it /\ downloadPath it' = downloadPath it.
Proof.
  intros H. unfold updateItemStatus, qm_updateItem.
  match goal with |- context [updateItem _ _ ?u] => set (upd := u) end.
  pose proof (findItem_updateItem _ _ upd _ H) as Hf.
  destruct (updateItem (queue st) name upd) as [q c]. cbn [fst] in Hf.
  exists (merge it upd). split.
  - destruct c; exact Hf.
  - cbn. auto 8.
Qed.

Lemma config_ready_none cfg :
  truthy (cfg ≫= baseUri) = false \/ truthy (cfg ≫= password) = false ->
  config_ready cfg = None.
Proof.
  unfold config_ready. destruct cfg as [[u p]|]; cbn; [|auto].
  destruct u as [[|c u]|]; cbn; auto.
  intros [H|H]; [discriminate|]. now rewrite H.
Qed.

Lemma config_ready_some cfg uri :
  config_ready cfg = Some uri <->
  cfg ≫= baseUri = Some uri /\ uri <> [] /\ truthy (cfg ≫= password) = true.
Proof.
  unfold config_ready. destruct cfg as [[u p]|]; cbn.
  - destruct u as [[|c u]|]; cbn.
    + split; [discriminate|]. intros ([= <-] & H & _). contradiction.
    + destruct (truthy p); split.
      * intros [= <-]. repeat split; congruence.
      * now intros ([= <-] & _).
      * discriminate.
      * intros (_ & _ & H). discriminate.
    + split; [discriminate|]. intros (H & _). discriminate.
  - split; [discriminate|]. intros (H & _). discriminate.
Qed.

(** ** The remote source, the configuration and the cancel without a subprocess *)

(** The running sample is what [startDownload] makes of the queued sample
    item once rclone is spawned. *)
Example sample_running_is_started :
  let r := startDownload_begin sample_join (Some (js "/bin/rclone"))
             (sample_item Queued 0 None) MkdirOk sample_process
             (sample_idle (sample_item Queued 0 None) (Some sample_config)) in
  snd r = None
  /\ queue (fst r) = queue sample_running
  /\ activeDownloads (fst r) = activeDownloads sample_running.
Proof. vm_compute. auto. Qed.

(** C1. For every release name the remote object identifier is the
    lowercase hexadecimal MD5 digest (32 digits) of the UTF-8 bytes of the
    name followed by one line feed byte, and whenever [startDownload] gets
    as far as the spawn, rclone is started once, with the source
    [:http:/<objectId>] and the configured base URI after [--http-url]. *)
Theorem remote_object_identifier (r : jsstring) :
  let objectId := hex_of_bytes (MD5.digest (utf8_encode r ++ [LF])) in
  gameNameHash r = objectId
  /\ length objectId = 32%nat
  /\ Forall (fun c => is_lower_hex c = true) objectId
  /\ forall path_join getRclonePath item spawned st cfg uri rclonePath,
       releaseName item = r ->
       vrpConfig st = Some cfg -> baseUri cfg = Some uri -> uri <> [] ->
       truthy (password cfg) = true ->
       getRclonePath = Some rclonePath -> rclonePath <> [] ->
       effects (fst (startDownload_begin path_join getRclonePath item MkdirOk
                       spawned st))
       = effects st
         ++ [Mkdir (path_join (downloadsDir st) r);
             Spawn rclonePath
               [js "copy"; js ":http:/" ++ objectId;
                path_join (downloadsDir st) r; js "--http-url"; uri;
                js "--no-check-certificate"; js "--progress";
                js "--stats=1s"; js "--stats-one-line"]].
Proof.
  cbv zeta. unfold gameNameHash. rewrite utf8_encode_line_feed.
  split; [reflexivity|]. split.
  { now rewrite hex_of_bytes_length, digest_length. }
  split.
  { apply hex_of_bytes_lower, digest_bytes. }
  intros path_join getRclonePath item spawned st cfg uri rclonePath
    Hr Hcfg Huri Hne Hpw Hpath Hpne.
  rewrite (startDownload_begin_spawns path_join getRclonePath item spawned st
             uri rclonePath); [| |assumption|assumption].
  - rewrite Hr. unfold rclone_args, rclone_source, gameNameHash.
    now rewrite utf8_encode_line_feed.
  - apply config_ready_some. rewrite Hcfg. cbn. auto.
Qed.

Lemma remote_object_identifier_witness :
  effects (fst (startDownload_begin sample_join (Some (js "/bin/rclone"))
                  (sample_item Queued 0 None) MkdirOk sample_process
                  (sample_idle (sample_item Queued 0 None) (Some sample_config))))
  = [] ++ [Mkdir (sample_join (js "/downloads") sample_name);
       Spawn (js "/bin/rclone")
         [js "copy";
          js ":http:/"
          ++ hex_of_bytes (MD5.digest (utf8_encode sample_name ++ [LF]));
          sample_join (js "/downloads") sample_name; js "--http-url";
          js "https://host.example/files";
          js "--no-check-certificate"; js "--progress";
          js "--stats=1s"; js "--stats-one-line"]].
Proof.
  apply (proj2 (proj2 (proj2 (remote_object_identifier sample_name)))
           sample_join (Some (js "/bin/rclone")) (sample_item Queued 0 None)
           sample_process
           (sample_idle (sample_item Queued 0 None) (Some sample_config))
           sample_config (js "https://host.example/files") (js "/bin/rclone")).
  - reflexivity.
  - reflexivity.
  - reflexivity.
  - discriminate.
  - reflexivity.
  - reflexivity.
  - discriminate.
Defined.

Example gameNameHash_of_sample :
  gameNameHash sample_name = js "d21017d0feaa68f1c51eaadcb577df17".
Proof. vm_compute. reflexivity. Qed.

(** A name of 55 code units: with the line feed the padding starts a second
    block. *)
Example gameNameHash_at_block_boundary :
  gameNameHash (repeat 120 55) = js "5ca97fc392d27b1730adb8d59dc94814".
Proof. vm_compute. reflexivity. Qed.

Example gameNameHash_of_a :
  gameNameHash (js "a") = js "60b725f10c9c85c70d97880dfe8191b3".
Proof. vm_compute. reflexivity. Qed.

(** Two code units above ASCII and a surrogate pair: "é" and U+1F600. *)
Example gameNameHash_beyond_ascii :
  gameNameHash (js "Beat Saber v1.2 " ++ [0xE9; 0xD83D; 0xDE00])
  = js "bd193f79ad3e743f03974fccd6c6f25f".
Proof. vm_compute. reflexivity. Qed.

(** C10, as the code has it. When the configuration lacks the base URI or
    the password, [startDownload] returns at once with success false and
    startExtraction false, spawns nothing (no effect at all, the table of
    subprocesses unchanged) and, when the item is in the queue, leaves it
    with status Error, progress 0 and the message "Missing VRP
    configuration". *)
Theorem startDownload_missing_configuration
    path_join getRclonePath item mkdir spawned st :
  truthy (vrpConfig st ≫= baseUri) = false
  \/ truthy (vrpConfig st ≫= password) = false ->
  let r := startDownload_begin path_join getRclonePath item mkdir spawned st in
  snd r = Some {| success := false; startExtraction := false;
                  finalState := None |}
  /\ effects (fst r) = effects st
  /\ activeDownloads (fst r) = activeDownloads st
  /\ forall it, findItem (queue st) (releaseName item) = Some it ->
       exists it',
         findItem (queue (fst r)) (releaseName item) = Some it'
         /\ status it' = Error /\ progress it' = 0
         /\ error it' = Some (js "Missing VRP configuration").
Proof.
  intros Hcfg. apply config_ready_none in Hcfg.
  unfold startDownload_begin. rewrite Hcfg. cbn [fst snd].
  split; [reflexivity|].
  split; [apply updateItemStatus_frame|].
  split; [apply updateItemStatus_frame|].
  intros it Hit.
  destruct (findItem_updateItemStatus (releaseName item) Error 0
              (Some (js "Missing VRP configuration")) None None None st it Hit)
    as (it' & Hf & Hs & Hp & He & _).
  exists it'. auto.
Qed.

Lemma startDownload_missing_configuration_witness :
  let r := startDownload_begin sample_join (Some (js "/bin/rclone"))
             (sample_item Queued 0 None) MkdirOk sample_process
             (sample_idle (sample_item Queued 0 None)
                (Some {| baseUri := Some (js "https://host.example/files");
                         password := None |})) in
  snd r = Some {| success := false; startExtraction := false;
                  finalState := None |}
  /\ effects (fst r) = []
  /\ activeDownloads (fst r) = ∅
  /\ forall it,
       findItem [sample_item Queued 0 None] sample_name = Some it ->
       exists it',
         findItem (queue (fst r)) sample_name = Some it'
         /\ status it' = Error /\ progress it' = 0
         /\ error it' = Some (js "Missing VRP configuration").
Proof.
  apply (startDownload_missing_configuration sample_join
           (Some (js "/bin/rclone")) (sample_item Queued 0 None) MkdirOk
           sample_process
           (sample_idle (sample_item Queued 0 None)
              (Some {| baseUri := Some (js "https://host.example/files");
                       password := None |}))).
  right. reflexivity.
Defined.

(** C10 as stated fails on the text of the message: with no configuration
    the item's error is "Missing VRP configuration", which is not the
    string "missing configuration" and does not contain it. *)
Lemma missing_configuration_message_differs :
  (error <$> findItem
     (queue (fst (startDownload_begin sample_join (Some (js "/bin/rclone"))
                    (sample_item Queued 0 None) MkdirOk sample_process
                    (sample_idle (sample_item Queued 0 None) None))))
     sample_name)
  = Some (Some (js "Missing VRP configuration"))
  /\ js "Missing VRP configuration" <> js "missing configuration"
  /\ includes (js "missing configuration") (js "Missing VRP configuration")
     = false.
Proof. split; [vm_compute; reflexivity|]. split; [discriminate|reflexivity]. Qed.

(** C9, as the code has it. Cancelling a release that has no subprocess
    sends no signal, detaches nothing and leaves the table of subprocesses
    and every other item alone; the item itself, when it is in the queue, is
    updated all the same: its pid is cleared, its status becomes the final
    status (unless it is Error and the final status is Cancelled), its
    progress becomes 0 for Cancelled, and its error is cleared for
    Cancelled or set to the message (else the old error) for Error. *)
Theorem cancelDownload_without_handle name finalStatus errorMsg st :
  activeDownloads st !! name = None ->
  let st' := cancelDownload name finalStatus errorMsg st in
  effects st' = effects st
  /\ activeDownloads st' = activeDownloads st
  /\ (forall other, other <> name ->
        findItem (queue st') other = findItem (queue st) other)
  /\ (findItem (queue st) name = None -> st' = st)
  /\ forall it, findItem (queue st) name = Some it ->
       findItem (queue st') name
       = Some {| releaseName := releaseName it;
                 packageName := packageName it;
                 gameName := gameName it;
                 status :=
                   match status it, finalStatus with
                   | Error, FinalCancelled => Error
                   | _, FinalCancelled => Cancelled
                   | _, FinalError => Error
                   end;
                 progress :=
                   match finalStatus with
                   | FinalCancelled => 0
                   | FinalError => progress it
                   end;
                 error :=
                   match finalStatus with
                   | FinalCancelled => None
                   | FinalError => js_or errorMsg (error it)
                   end;
                 speed := speed it; eta := eta it;
                 extractProgress := extractProgress it;
                 downloadPath := downloadPath it;
                 pid := None |}.
Proof.
  intros Hnone. unfold cancelDownload. rewrite Hnone. cbv zeta.
  destruct (findItem (queue st) name) as [item|] eqn:Hitem.
  - pose proof (qm_updateItem_frame name
                  (cancel_updates item finalStatus errorMsg) st)
      as (He & Ha & _ & Hq).
    pose proof (findItem_updateItem _ _
                  (cancel_updates item finalStatus errorMsg) _ Hitem) as Hf.
    destruct (qm_updateItem name _ st) as [st2 updated]. cbn [fst] in *.
    assert (Hq' : queue (if updated then debouncedEmitUpdate st2 else st2)
                  = queue st2) by (destruct updated; reflexivity).
    split; [destruct updated; exact He|].
    split; [destruct updated; exact Ha|].
    rewrite Hq', Hq.
    split; [intros other Hne; now apply findItem_updateItem_other|].
    split; [discriminate|].
    intros it [= <-]. rewrite Hf. f_equal.
    destruct item as [rn pn gn s p e sp et xp dp pd].
    destruct finalStatus, s; reflexivity.
  - repeat split; try reflexivity. discriminate.
Qed.

Lemma cancelDownload_without_handle_witness :
  let st := sample_idle (sample_item Completed 100 None) None in
  let st' := cancelDownload sample_name FinalCancelled None st in
  effects st' = effects st
  /\ activeDownloads st' = activeDownloads st
  /\ (forall other, other <> sample_name ->
        findItem (queue st') other = findItem (queue st) other)
  /\ (findItem (queue st) sample_name = None -> st' = st)
  /\ forall it, findItem (queue st) sample_name = Some it ->
       findItem (queue st') sample_name
       = Some {| releaseName := releaseName it;
                 packageName := packageName it;
                 gameName := gameName it;
                 status :=
                   match status it, FinalCancelled with
                   | Error, FinalCancelled => Error
                   | _, FinalCancelled => Cancelled
                   | _, FinalError => Error
                   end;
                 progress := 0;
                 error := None;
                 speed := speed it; eta := eta it;
                 extractProgress := extractProgress it;
                 downloadPath := downloadPath it;
                 pid := None |}.
Proof.
  apply (cancelDownload_without_handle sample_name FinalCancelled None
           (sample_idle (sample_item Completed 100 None) None)).
  reflexivity.
Defined.

(** C9 as stated fails: a completed item with no subprocess is changed by
    the cancel (status Cancelled, progress 0), though no signal is sent. *)
Lemma cancel_without_handle_changes_item :
  let st := sample_idle (sample_item Completed 100 None) None in
  let st' := cancelDownload sample_name FinalCancelled None st in
  activeDownloads st !! sample_name = None
  /\ shown st sample_name = Some (Completed, 100, None, None)
  /\ shown st' sample_name = Some (Cancelled, 0, None, None)
  /\ effects st' = [].
Proof. vm_compute. auto. Qed.

(** ** Cancellation *)

Lemma stop_processing_frame name st :
  queue (stop_processing name st) = queue st
  /\ emitted (stop_processing name st) = emitted st.
Proof.
  unfold stop_processing. destruct (activeDownloads st !! name); auto.
Qed.

Lemma merge_clear_pid it : pid it = None -> merge it clear_pid = it.
Proof. destruct it; cbn. now intros ->. Qed.

(** The clean-up changes nothing of the queue once the pid is cleared. *)
Lemma cleanup_frame name st it :
  findItem (queue st) name = Some it -> pid it = None ->
  queue (cleanup name st) = queue st /\ emitted (cleanup name st) = emitted st.
Proof.
  intros Hit Hpid. unfold cleanup.
  destruct (activeDownloads st !! name); [|auto].
  unfold qm_updateItem. cbn [queue with_active].
  rewrite (updateItem_same _ _ clear_pid it Hit (merge_clear_pid it Hpid)).
  auto.
Qed.

(** One event of a run whose item is already Cancelled: nothing of the
    queue changes and no update is emitted. *)
Lemma run_step_cancelled name run e it :
  findItem (queue (fst run)) name = Some it ->
  status it = Cancelled -> pid it = None ->
  queue (fst (run_step name run e)) = queue (fst run)
  /\ emitted (fst (run_step name run e)) = emitted (fst run).
Proof.
  intros Hit Hst Hpid. destruct run as [st buf]. cbn [fst] in *.
  destruct e as [data| |err]; cbn [run_step fst snd].
  - unfold onData. rewrite Hit, Hst. cbn [fst]. apply stop_processing_frame.
  - unfold startDownload_resolved. rewrite Hit. cbn. rewrite Hst. cbn [fst].
    now apply (cleanup_frame name st it).
  - unfold startDownload_catch. rewrite Hit. cbn [fmap option_fmap option_map].
    rewrite Hst. cbn [negb].
    rewrite (bool_decide_eq_false_2 (Some Cancelled = Some Error)) by discriminate.
    destruct err as [e| |]; cbn zeta;
      repeat match goal with
             | |- context [if ?b then _ else _] => destruct b
             end;
      cbn [fst]; now apply (cleanup_frame name st it).
Qed.

Lemma run_events_cancelled name es : forall run it,
  findItem (queue (fst run)) name = Some it ->
  status it = Cancelled -> pid it = None ->
  queue (fst (run_events name es run)) = queue (fst run)
  /\ emitted (fst (run_events name es run)) = emitted (fst run).
Proof.
  induction es as [|e es IH]; intros run it Hit Hst Hpid; [auto|].
  cbn [run_events fold_left].
  destruct (run_step_cancelled name run e it Hit Hst Hpid) as [Hq He].
  destruct (IH (run_step name run e) it) as [Hq' He']; try assumption.
  - now rewrite Hq.
  - unfold run_events in *. rewrite Hq', He'. auto.
Qed.

(** The queue after [cancelDownload]. *)
Lemma cancelDownload_queue name finalStatus errorMsg st it :
  findItem (queue st) name = Some it ->
  queue (cancelDownload name finalStatus errorMsg st)
  = fst (updateItem (queue st) name (cancel_updates it finalStatus errorMsg)).
Proof.
  intros Hit. unfold cancelDownload.
  set (st1 := match activeDownloads st !! name with
              | Some process => _
              | None => st
              end).
  assert (Hq : queue st1 = queue st).
  { subst st1. destruct (activeDownloads st !! name) as [p|]; [|reflexivity].
    destruct (pid_truthy p); reflexivity. }
  rewrite Hq, Hit. unfold qm_updateItem. rewrite Hq.
  destruct (updateItem (queue st) name _) as [q []]; reflexivity.
Qed.

(** C3. Cancelling (with the default final status) an item that is
    Downloading leaves it Cancelled with progress 0, and whatever happens
    in that run afterwards, data events with any output, from any buffer
    content, and the end of the subprocess, fulfilled or rejected with any
    error, neither the queue nor the count of emitted updates changes: each
    data event looks at the item's status first and stops. *)
Theorem cancel_while_downloading name errorMsg st it :
  findItem (queue st) name = Some it ->
  status it = Downloading ->
  let st1 := cancelDownload name FinalCancelled errorMsg st in
  (exists it1,
     findItem (queue st1) name = Some it1
     /\ status it1 = Cancelled /\ progress it1 = 0 /\ error it1 = None)
  /\ forall (later : list RunEvent) (outputBuffer : jsstring),
       queue (fst (run_events name later (st1, outputBuffer))) = queue st1
       /\ emitted (fst (run_events name later (st1, outputBuffer)))
          = emitted st1.
Proof.
  intros Hit Hst st1.
  assert (Hf : findItem (queue st1) name
               = Some (merge it (cancel_updates it FinalCancelled errorMsg))).
  { subst st1. rewrite (cancelDownload_queue _ _ _ _ it Hit).
    now apply findItem_updateItem. }
  assert (Hs : status (merge it (cancel_updates it FinalCancelled errorMsg))
               = Cancelled).
  { cbn. rewrite Hst. reflexivity. }
  split.
  - eexists. split; [exact Hf|]. split; [exact Hs|]. split; reflexivity.
  - intros later outputBuffer.
    apply (run_events_cancelled name later (st1, outputBuffer) _ Hf Hs).
    reflexivity.
Qed.

Lemma cancel_while_downloading_witness :
  let st1 := cancelDownload sample_name FinalCancelled None sample_running in
  (exists it1,
     findItem (queue st1) sample_name = Some it1
     /\ status it1 = Cancelled /\ progress it1 = 0 /\ error it1 = None)
  /\ forall (later : list RunEvent) (outputBuffer : jsstring),
       queue (fst (run_events sample_name later (st1, outputBuffer)))
       = queue st1
       /\ emitted (fst (run_events sample_name later (st1, outputBuffer)))
          = emitted st1.
Proof.
  apply (cancel_while_downloading sample_name None sample_running
           sample_downloading); reflexivity.
Defined.

(** The run of C3 on the sample: the signal is sent once, after the
    listeners are detached, and trailing output changes nothing. *)
Example cancel_sample_run :
  let st1 := cancelDownload sample_name FinalCancelled None sample_running in
  let st2 :=
    fst (run_events sample_name
           [DataEvent (js "1 MiB / 10 MiB, 12%, 1.000 MiB/s, ETA 8s" ++ [LF]);
            ExitRejected (ThrownError (js "killed"))]
           (st1, [])) in
  shown st1 sample_name = Some (Cancelled, 0, None, None)
  /\ effects st1 = [RemoveAllListeners sample_process; Kill sample_process]
  /\ activeDownloads st1 !! sample_name = None
  /\ shown st2 sample_name = Some (Cancelled, 0, None, None)
  /\ effects st2 = effects st1.
Proof. vm_compute. auto 6. Qed.

(** ** The end of the subprocess *)

Lemma cleanup_item name st it :
  findItem (queue st) name = Some it ->
  emitted (cleanup name st) = emitted st
  /\ exists it',
       findItem (queue (cleanup name st)) name = Some it'
       /\ status it' = status it /\ error it' = error it
       /\ progress it' = progress it.
Proof.
  intros Hit. unfold cleanup. destruct (activeDownloads st !! name).
  - destruct (qm_updateItem_frame name clear_pid
                (with_active (delete name (activeDownloads st)) st))
      as (_ & _ & He & Hq).
    split; [exact He|]. rewrite Hq. cbn [queue with_active].
    exists (merge it clear_pid). split; [now apply findItem_updateItem|].
    cbn. auto.
  - split; [reflexivity|]. exists it. auto.
Qed.

Lemma js_or_strings (a b : jsstring) :
  default [] (js_or (Some a) (Some b)) = if nonempty a then a else b.
Proof. destruct a; reflexivity. Qed.

Lemma unbuffered_lastLines (e : ExecaError) :
  unbuffered e = true -> lastLines e = [].
Proof.
  unfold unbuffered, lastLines.
  destruct (all_ e), (stderr e), (stdout e); try discriminate.
  intros _. reflexivity.
Qed.

(** C5. The subprocess ends while the item is still Downloading. Rejected
    with exit code 143: the outcome is a failure that carries the item as it
    was, nothing is emitted, and status, error and progress of the item stay
    as they were. Rejected with any other exit code (and not through execa's
    own cancel, which this driver never uses): the item becomes Error, but
    its error is the execa message alone, cut to 500 code units. No line of
    the output is appended: the process was started with [buffer: false],
    the error carries no output, and the tail the [catch] clause computes
    is empty. Fulfilled (exit code 0): the outcome is success with
    startExtraction. *)
Theorem exit_while_downloading name st it :
  findItem (queue st) name = Some it ->
  status it = Downloading ->
  (forall e, exitCode e = Some 143 ->
     let r := startDownload_catch name (ThrownExeca e) st in
     snd r = {| success := false; startExtraction := false;
                finalState := Some it |}
     /\ emitted (fst r) = emitted st
     /\ exists it',
          findItem (queue (fst r)) name = Some it'
          /\ status it' = Downloading /\ error it' = error it
          /\ progress it' = progress it)
  /\ (forall e, unbuffered e = true ->
      exitCode e <> Some 143 -> isCanceled e = false ->
      let r := startDownload_catch name (ThrownExeca e) st in
      let m := if nonempty (shortMessage e) then shortMessage e
               else message e in
      lastLines e = []
      /\ success (snd r) = false /\ startExtraction (snd r) = false
      /\ exists it',
           findItem (queue (fst r)) name = Some it'
           /\ finalState (snd r) = Some it'
           /\ status it' = Error /\ error it' = Some (substring0 500 m)
           /\ progress it' = progress it)
  /\ (let r := startDownload_resolved name st in
      snd r = {| success := true; startExtraction := true;
                 finalState := Some it |}
      /\ emitted (fst r) = emitted st
      /\ exists it',
           findItem (queue (fst r)) name = Some it'
           /\ status it' = Downloading /\ error it' = error it
           /\ progress it' = progress it).
Proof.
  intros Hit Hst. split; [|split].
  - intros e Hcode. unfold startDownload_catch. rewrite Hit.
    rewrite (bool_decide_eq_true_2 _ Hcode). cbn [fst snd].
    split; [reflexivity|].
    destruct (cleanup_item name st it Hit) as (He & it' & Hf & Hs & Herr & Hp).
    split; [exact He|]. exists it'. rewrite Hs, Hst. auto.
  - intros e Hbuf Hcode Hcan. cbv zeta.
    pose proof (unbuffered_lastLines e Hbuf) as Htail.
    split; [exact Htail|].
    unfold startDownload_catch. rewrite Hit.
    rewrite (bool_decide_eq_false_2 _ Hcode), Hcan.
    cbn [fmap option_fmap option_map default]. unfold id.
    rewrite Hst. cbn [negb fst snd].
    destruct (cleanup_item name st it Hit) as (_ & it1 & Hf1 & _).
    destruct (findItem_updateItemStatus name Error (progress it)
                (Some (substring0 500 (execa_errorMessage e))) None None None
                (cleanup name st) it1 Hf1)
      as (it' & Hf & Hs & Hp & He & _).
    split; [reflexivity|]. split; [reflexivity|].
    exists it'. rewrite Hf.
    split; [reflexivity|]. split; [reflexivity|]. split; [exact Hs|].
    split; [|exact Hp].
    rewrite He. unfold execa_errorMessage. rewrite Htail.
    cbn [nonempty]. now rewrite js_or_strings.
  - cbv zeta. unfold startDownload_resolved. rewrite Hit.
    cbn [fmap option_fmap option_map]. rewrite Hst. cbn [fst snd].
    split; [reflexivity|].
    destruct (qm_updateItem_frame name clear_pid
                (with_active (delete name (activeDownloads st)) st))
      as (_ & _ & He & Hq).
    split; [exact He|]. rewrite Hq. cbn [queue with_active].
    exists (merge it clear_pid). split; [now apply findItem_updateItem|].
    cbn. auto.
Qed.

Lemma exit_while_downloading_witness :
  (forall e, exitCode e = Some 143 ->
     let r := startDownload_catch sample_name (ThrownExeca e) sample_running in
     snd r = {| success := false; startExtraction := false;
                finalState := Some sample_downloading |}
     /\ emitted (fst r) = emitted sample_running
     /\ exists it',
          findItem (queue (fst r)) sample_name = Some it'
          /\ status it' = Downloading
          /\ error it' = error sample_downloading
          /\ progress it' = progress sample_downloading)
  /\ (forall e, unbuffered e = true ->
      exitCode e <> Some 143 -> isCanceled e = false ->
      let r := startDownload_catch sample_name (ThrownExeca e) sample_running in
      let m := if nonempty (shortMessage e) then shortMessage e
               else message e in
      lastLines e = []
      /\ success (snd r) = false /\ startExtraction (snd r) = false
      /\ exists it',
           findItem (queue (fst r)) sample_name = Some it'
           /\ finalState (snd r) = Some it'
           /\ status it' = Error /\ error it' = Some (substring0 500 m)
           /\ progress it' = progress sample_downloading)
  /\ (let r := startDownload_resolved sample_name sample_running in
      snd r = {| success := true; startExtraction := true;
                 finalState := Some sample_downloading |}
      /\ emitted (fst r) = emitted sample_running
      /\ exists it',
           findItem (queue (fst r)) sample_name = Some it'
           /\ status it' = Downloading
           /\ error it' = error sample_downloading
           /\ progress it' = progress sample_downloading).
Proof.
  apply (exit_while_downloading sample_name sample_running
           sample_downloading); reflexivity.
Defined.

(** A transfer that fails: rclone writes three lines, none of them a
    progress line, and exits with code 1. The lines reach the data handler,
    which keeps the last one in its buffer; the error the promise is
    rejected with carries none of them, and the item shows the execa
    message and nothing of the output. With exit code 143 the item stays
    as it is; a fulfilled promise starts the extraction. *)
Example exit_sample_runs :
  let output :=
    js "2025/01/01 10:00:00 ERROR : game.7z.001: Failed to copy: unexpected EOF"
    ++ [LF] ++ js "2025/01/01 10:00:01 ERROR : Attempt 3/3 failed with 1 errors"
    ++ [LF] ++ js "2025/01/01 10:00:01 Failed to copy: unexpected EOF"
    ++ [LF] in
  let failed :=
    run_events sample_name
      [DataEvent output; ExitRejected (ThrownExeca (sample_exit 1 None))]
      (sample_running, []) in
  unbuffered (sample_exit 1 None) = true
  /\ shown (fst failed) sample_name
     = Some (Error, 0,
             Some (js "Command failed with exit code 1: rclone copy"), None)
  /\ snd failed = js "2025/01/01 10:00:01 Failed to copy: unexpected EOF"
  /\ shown (fst (startDownload_catch sample_name
                   (ThrownExeca (sample_exit 143 None)) sample_running))
       sample_name
     = Some (Downloading, 0, None, None)
  /\ snd (startDownload_resolved sample_name sample_running)
     = {| success := true; startExtraction := true;
          finalState := Some sample_downloading |}.
Proof. vm_compute. auto 6. Qed.

(** ** Runs on particular inputs *)

(** C2. One data event with two complete lines, 50% then 30%. The guard
    compares each percentage with [currentItemState.progress], and
    [currentItemState] is read once, when the event begins: with the item
    handed out as a value (the store of section 4.1), it still shows 0 after
    the first line has recorded 50, the second update is applied as well,
    and the recorded progress goes from 50 back to 30; two updates are
    emitted. *)
Example progress_goes_back_within_one_event :
  let l1 := js "5 MiB / 10 MiB, 50%, 1.000 MiB/s, ETA 5s" in
  let l2 := js "6 MiB / 20 MiB, 30%, 1.000 MiB/s, ETA 14s" in
  let data := l1 ++ [LF] ++ l2 ++ [LF] in
  let cur := sample_downloading in
  findItem (queue sample_running) sample_name = Some cur
  /\ take_lines [] data = ([l1; l2], [])
  /\ shown (processLine sample_name cur sample_running l1) sample_name
     = Some (Downloading, 50, None, Some (js "5s"))
  /\ shown (fst (onData sample_name (sample_running, []) data)) sample_name
     = Some (Downloading, 30, None, Some (js "14s"))
  /\ emitted (fst (onData sample_name (sample_running, []) data)) = 2%nat.
Proof. vm_compute. auto 6. Qed.

(** C4. A data event that ends with the line of the authentication failure:
    the line matches neither the percentage nor the ETA pattern, so it is
    kept in the buffer and not looked at; nothing is cancelled, no signal is
    sent, and when the subprocess then exits with code 1 the item gets the
    message of the exit, not the one of the credentials. When a progress
    line follows the failure in the same event, the cancellation is made
    and then overwritten: the item is Downloading again, with no error. *)
Example auth_failure_line_held_back :
  let auth := js "ERROR : authentication failed" in
  let next := js "6 MiB / 20 MiB, 30%, 1.000 MiB/s, ETA 14s" in
  let run1 := onData sample_name (sample_running, []) (auth ++ [LF]) in
  let run2 :=
    run_events sample_name [ExitRejected (ThrownExeca (sample_exit 1 None))]
      run1 in
  let run3 :=
    onData sample_name (sample_running, []) (auth ++ [LF] ++ next ++ [LF]) in
  includes (js "authentication failed") auth = true
  /\ shown (fst run1) sample_name = Some (Downloading, 0, None, None)
  /\ effects (fst run1) = []
  /\ snd run1 = auth
  /\ shown (fst run2) sample_name
     = Some (Error, 0,
             Some (js "Command failed with exit code 1: rclone copy"), None)
  /\ shown (processLine sample_name sample_downloading
              sample_running auth) sample_name
     = Some (Error, 0, Some (js "Auth failed (check VRP password?)"), None)
  /\ shown (fst run3) sample_name
     = Some (Downloading, 30, None, Some (js "14s"))
  /\ effects (fst run3)
     = [RemoveAllListeners sample_process; Kill sample_process].
Proof. vm_compute. auto 10. Qed.

Lemma starts_with_app_same (a b m : jsstring) :
  starts_with (a ++ b) (a ++ m) = starts_with b m.
Proof.
  induction a as [|c a IH]; [reflexivity|].
  cbn [app starts_with]. now rewrite N.eqb_refl, IH.
Qed.

(** C6. 7z exits with a code other than 0, whatever it wrote, the marker of
    a wrong password included. The call of execa sets no [reject] option,
    so the promise is rejected with the execa error, whose message starts
    with "Command failed with exit code"; the test of the exit code and of
    the wrong-password flag behind the [await] is never reached. The error
    thrown is that message behind "Failed to use password: "; it is never
    the message of the wrong-password branch. *)
Theorem wrong_password_not_classified (cfg : option VrpConfig)
    (events : list GameService.OutputEvent) (code : N)
    (err_output : jsstring) (e : ExecaError) :
  truthy (cfg ≫= password) = true ->
  code <> 0 ->
  starts_with (js "Command failed with exit code ") (message e) = true ->
  let thrown :=
    GameService.extractMetaArchive cfg events
      (GameService.execa_settles true code err_output e) in
  thrown = Some (js "Failed to use password: " ++ message e)
  /\ starts_with
       (js "Failed to use password: " ++ js "Command failed with exit code ")
       (default [] thrown) = true
  /\ thrown
     <> Some (js "Failed to use password: "
              ++ js "Extraction failed: Wrong password for archive")
  /\ thrown <> Some (js "Extraction failed: Wrong password for archive").
Proof.
  intros Hp Hcode Hm. cbv zeta.
  assert (Ht : GameService.extractMetaArchive cfg events
                 (GameService.execa_settles true code err_output e)
               = Some (js "Failed to use password: " ++ message e)).
  { unfold GameService.extractMetaArchive, GameService.execa_settles.
    rewrite Hp. apply N.eqb_neq in Hcode. rewrite Hcode. reflexivity. }
  rewrite Ht. split; [reflexivity|]. split; [|split].
  - cbn [default]. unfold id. rewrite starts_with_app_same. exact Hm.
  - intros [= H]. rewrite H in Hm. vm_compute in Hm. discriminate Hm.
  - intros H. discriminate H.
Qed.

Lemma wrong_password_not_classified_witness :
  let marker := js "ERROR: Wrong password : meta.7z" ++ [LF] in
  let thrown :=
    GameService.extractMetaArchive (Some sample_config)
      [GameService.Stderr marker]
      (GameService.execa_settles true 2 marker (sample_7z_exit marker)) in
  thrown
  = Some (js "Failed to use password: " ++ message (sample_7z_exit marker))
  /\ starts_with
       (js "Failed to use password: " ++ js "Command failed with exit code ")
       (default [] thrown) = true
  /\ thrown
     <> Some (js "Failed to use password: "
              ++ js "Extraction failed: Wrong password for archive")
  /\ thrown <> Some (js "Extraction failed: Wrong password for archive").
Proof.
  apply (wrong_password_not_classified (Some sample_config)
           [GameService.Stderr (js "ERROR: Wrong password : meta.7z" ++ [LF])]
           2 (js "ERROR: Wrong password : meta.7z" ++ [LF])
           (sample_7z_exit (js "ERROR: Wrong password : meta.7z" ++ [LF]))).
  - reflexivity.
  - discriminate.
  - vm_compute. reflexivity.
Defined.

(** 7z reports a wrong password on stderr and exits with code 2: the flag
    of the data handler is set, and the error thrown is the execa message,
    with what 7z wrote in it, behind "Failed to use password: ". *)
Example wrong_password_sample :
  let marker := js "ERROR: Wrong password : meta.7z" in
  GameService.wrongPassword
    (fold_left GameService.on_output [GameService.Stderr marker]
       GameService.started) = true
  /\ GameService.extractMetaArchive (Some sample_config)
       [GameService.Stderr marker]
       (GameService.execa_settles true 2 marker (sample_7z_exit marker))
     = Some (js "Failed to use password: Command failed with exit code 2: 7z x meta.7z -o/data -psecret -y"
             ++ [LF; LF] ++ js "ERROR: Wrong password : meta.7z").
Proof. vm_compute. auto. Qed.

(** C7. The same output, split and unsplit. Split inside the ETA token, the
    first part already matches both patterns, counts as a complete line and
    is parsed with the ETA "1"; the rest, "0s", is dropped; unsplit, the
    ETA is "10s". And a line that was complete but matched no ETA is kept
    without its line end and glued to the next line, whose percentage is
    then never seen. *)
Example split_output_parsed_differently :
  let a1 := js "1 MiB / 10 MiB, 12%, 1.000 MiB/s, ETA 1" in
  let a2 := js "0s" ++ [LF] in
  let b1 := js "Transferred: 1 MiB, 10%, " ++ [LF] in
  let b2 := js "2 MiB / 10 MiB, 20%, 1.000 MiB/s, ETA 8s" ++ [LF] in
  let run chunks :=
    fst (run_events sample_name (map DataEvent chunks) (sample_running, [])) in
  take_lines [] a1 = ([a1], [])
  /\ shown (run [a1; a2]) sample_name
     = Some (Downloading, 12, None, Some (js "1"))
  /\ shown (run [a1 ++ a2]) sample_name
     = Some (Downloading, 12, None, Some (js "10s"))
  /\ shown (run [b1; b2]) sample_name
     = Some (Downloading, 10, None, Some (js "8s"))
  /\ shown (run [b1 ++ b2]) sample_name
     = Some (Downloading, 20, None, Some (js "8s")).
Proof. vm_compute. auto 8. Qed.

(** C8. An item in Error (here: the configuration was missing) that is
    cancelled with the default final status keeps the status Error and
    loses its error message. And a cancel with final status Error and no
    message, on an item that had no error, gives the status Error with no
    error. *)
Example error_status_without_message :
  let st0 := sample_idle (sample_item Queued 0 None) None in
  let st1 :=
    fst (startDownload_begin sample_join (Some (js "/bin/rclone"))
           (sample_item Queued 0 None) MkdirOk sample_process st0) in
  let st2 := cancelDownload sample_name FinalCancelled None st1 in
  shown st1 sample_name
  = Some (Error, 0, Some (js "Missing VRP configuration"), None)
  /\ shown st2 sample_name = Some (Error, 0, None, None)
  /\ shown (cancelDownload sample_name FinalError None sample_running)
       sample_name
     = Some (Error, 0, None, None).
Proof. vm_compute. auto. Qed.

(** ** Progress *)

Lemma cancelDownload_item name finalStatus errorMsg st it :
  findItem (queue st) name = Some it ->
  findItem (queue (cancelDownload name finalStatus errorMsg st)) name
  = Some (merge it (cancel_updates it finalStatus errorMsg)).
Proof.
  intros Hit. rewrite (cancelDownload_queue _ _ _ _ it Hit).
  now apply findItem_updateItem.
Qed.

Lemma progress_update_at_least name cur st line :
  progress_at_least name (progress cur) st ->
  progress_at_least name (progress cur) (progress_update name cur st line).
Proof.
  intros (it & Hit & Hle). unfold progress_update.
  destruct (transferLineRegex line) as [g1|]; [|now exists it].
  destruct (truthy (Some g1)); [|now exists it].
  destruct (progress cur <=? parseInt g1) eqn:E; [|now exists it].
  apply N.leb_le in E.
  destruct (findItem_updateItemStatus name Downloading (parseInt g1) None
              (js_or (speedRegex line) (speed cur))
              (js_or (etaRegex line) (eta cur)) None st it Hit)
    as (it' & Hf & _ & Hp & _).
  exists it'. rewrite Hp. auto.
Qed.

Lemma auth_check_at_least name p st line :
  progress_at_least name p st -> progress_at_least name p (auth_check name st line).
Proof.
  intros (it & Hit & Hle). unfold auth_check.
  destruct (_ || _); [|now exists it].
  unfold progress_at_least.
  rewrite (cancelDownload_item _ _ _ _ it Hit). eexists. split; [reflexivity|].
  exact Hle.
Qed.

Lemma processLines_at_least name cur lines : forall st,
  progress_at_least name (progress cur) st ->
  progress_at_least name (progress cur)
    (fold_left (processLine name cur) lines st).
Proof.
  induction lines as [|l lines IH]; intros st H; [exact H|].
  cbn [fold_left]. apply IH. unfold processLine.
  now apply auth_check_at_least, progress_update_at_least.
Qed.

Lemma cleanup_at_least name p st :
  progress_at_least name p st -> progress_at_least name p (cleanup name st).
Proof.
  intros (it & Hit & Hle).
  destruct (cleanup_item name st it Hit) as (_ & it' & Hf & _ & _ & Hp).
  exists it'. rewrite Hp. auto.
Qed.

Lemma updateItemStatus_at_least name s e sp et xp p q st :
  progress_at_least name p st -> p <= q ->
  progress_at_least name p (updateItemStatus name s q e sp et xp st).
Proof.
  intros (it & Hit & Hle) Hq.
  destruct (findItem_updateItemStatus name s q e sp et xp st it Hit)
    as (it' & Hf & _ & Hp & _).
  exists it'. rewrite Hp. auto.
Qed.

Lemma qm_updateItem_at_least name p u st :
  progress_at_least name p st -> u_progress u = None ->
  progress_at_least name p (debouncedEmitUpdate (fst (qm_updateItem name u st))).
Proof.
  intros (it & Hit & Hle) Hu. unfold progress_at_least.
  cbn [queue debouncedEmitUpdate].
  rewrite (proj2 (proj2 (proj2 (qm_updateItem_frame name u st)))).
  exists (merge it u). split; [now apply findItem_updateItem|].
  cbn. now rewrite Hu.
Qed.

(** No event of a run lowers the progress of the item. *)
Lemma run_step_at_least name run e it :
  findItem (queue (fst run)) name = Some it ->
  progress_at_least name (progress it) (fst (run_step name run e)).
Proof.
  intros Hit. destruct run as [st buf]. cbn [fst] in Hit.
  assert (H0 : progress_at_least name (progress it) st)
    by (exists it; split; [exact Hit|reflexivity]).
  destruct e as [data| |err]; cbn [run_step fst snd].
  - unfold onData. rewrite Hit.
    destruct (status it);
      try (cbn [fst]; destruct (stop_processing_frame name st) as [Hq _];
           exists it; rewrite Hq; split; [exact Hit|reflexivity]).
    destruct (take_lines buf data) as [lines buf']. cbn [fst].
    now apply processLines_at_least.
  - unfold startDownload_resolved. rewrite Hit.
    cbn [fmap option_fmap option_map].
    destruct (status it); cbn [fst]; try now apply cleanup_at_least.
    destruct (qm_updateItem_frame name clear_pid
                (with_active (delete name (activeDownloads st)) st))
      as (_ & _ & _ & Hq).
    exists (merge it clear_pid). rewrite Hq. cbn [queue with_active].
    split; [now apply findItem_updateItem|reflexivity].
  - unfold startDownload_catch. rewrite Hit.
    cbn [fmap option_fmap option_map default]. unfold id.
    pose proof (cleanup_at_least name _ st H0) as H1.
    assert (Herr : forall m,
      progress_at_least name (progress it)
        (debouncedEmitUpdate
           (fst (qm_updateItem name
                   {| u_status := None; u_progress := None;
                      u_error := Some (Some m); u_speed := None;
                      u_eta := None; u_extractProgress := None;
                      u_downloadPath := None; u_pid := None |}
                   (cleanup name st))))).
    { intros m. apply (qm_updateItem_at_least name _ _ (cleanup name st) H1).
      reflexivity. }
    destruct err as [e| |]; cbn zeta;
      repeat match goal with
             | |- context [if ?b then _ else _] => destruct b
             end;
      cbn [fst];
      first [ exact H1
            | apply Herr
            | apply updateItemStatus_at_least; [exact H1|reflexivity] ].
Qed.

Lemma run_events_at_least name es : forall run it,
  findItem (queue (fst run)) name = Some it ->
  progress_at_least name (progress it) (fst (run_events name es run)).
Proof.
  induction es as [|e es IH]; intros run it Hit.
  - exists it. split; [exact Hit|reflexivity].
  - cbn [run_events fold_left].
    destruct (run_step_at_least name run e it Hit) as (it1 & Hf1 & Hle1).
    destruct (IH (run_step name run e) it1 Hf1) as (it2 & Hf2 & Hle2).
    exists it2. split; [exact Hf2|]. now transitivity (progress it1).
Qed.

(** What the guard does give. A line whose percentage is below the
    progress of [currentItemState], the item as the data event found it
    when it began, changes nothing; and no event of a run, data event or
    end of the subprocess, leaves the item with less progress than it had
    before the event: the values of progress seen between the events of a
    run never decrease. *)
Theorem progress_not_below_event_start name :
  (forall cur st line g,
     transferLineRegex line = Some g -> parseInt g < progress cur ->
     progress_update name cur st line = st)
  /\ forall (before after : list RunEvent) run it,
       findItem (queue (fst run)) name = Some it ->
       exists it1 it2,
         findItem (queue (fst (run_events name before run))) name = Some it1
         /\ findItem (queue (fst (run_events name (before ++ after) run))) name
            = Some it2
         /\ progress it <= progress it1 /\ progress it1 <= progress it2.
Proof.
  split.
  - intros cur st line g Hg Hlt. unfold progress_update. rewrite Hg.
    destruct (truthy (Some g)); [|reflexivity].
    now rewrite (proj2 (N.leb_gt _ _) Hlt).
  - intros before after run it Hit.
    destruct (run_events_at_least name before run it Hit) as (it1 & Hf1 & Hle1).
    unfold run_events at 2. rewrite fold_left_app.
    destruct (run_events_at_least name after (run_events name before run)
                it1 Hf1) as (it2 & Hf2 & Hle2).
    exists it1, it2. auto.
Qed.

Lemma progress_not_below_event_start_witness :
  progress_update sample_name (sample_item Downloading 50 None) sample_running
    (js "6 MiB / 20 MiB, 30%, 1.000 MiB/s, ETA 14s")
  = sample_running
  /\ exists it1 it2,
       findItem
         (queue (fst (run_events sample_name
                        [DataEvent (js "5 MiB / 10 MiB, 50%, 1.000 MiB/s, ETA 5s" ++ [LF])]
                        (sample_running, [])))) sample_name = Some it1
       /\ findItem
            (queue (fst (run_events sample_name
                           ([DataEvent (js "5 MiB / 10 MiB, 50%, 1.000 MiB/s, ETA 5s" ++ [LF])]
                            ++ [DataEvent (js "6 MiB / 20 MiB, 30%, 1.000 MiB/s, ETA 14s" ++ [LF])])
                           (sample_running, [])))) sample_name = Some it2
       /\ progress sample_downloading <= progress it1
       /\ progress it1 <= progress it2.
Proof.
  split.
  - apply (proj1 (progress_not_below_event_start sample_name)
             (sample_item Downloading 50 None) sample_running
             (js "6 MiB / 20 MiB, 30%, 1.000 MiB/s, ETA 14s") (js "30")).
    + vm_compute. reflexivity.
    + vm_compute. reflexivity.
  - apply (proj2 (progress_not_below_event_start sample_name)
             [DataEvent (js "5 MiB / 10 MiB, 50%, 1.000 MiB/s, ETA 5s" ++ [LF])]
             [DataEvent (js "6 MiB / 20 MiB, 30%, 1.000 MiB/s, ETA 14s" ++ [LF])]
             (sample_running, []) sample_downloading).
    reflexivity.
Defined.

(** Across two data events the smaller percentage is not applied. *)
Example progress_kept_across_events :
  shown (fst (run_events sample_name
                [DataEvent (js "5 MiB / 10 MiB, 50%, 1.000 MiB/s, ETA 5s" ++ [LF]);
                 DataEvent (js "6 MiB / 20 MiB, 30%, 1.000 MiB/s, ETA 14s" ++ [LF])]
                (sample_running, []))) sample_name
  = Some (Downloading, 50, None, Some (js "5s")).
Proof. vm_compute. reflexivity. Qed.

(** ** The error field *)

Lemma updateItem_errors q name u :
  Forall error_has_status q ->
  (forall it, findItem q name = Some it -> error_has_status (merge it u)) ->
  Forall error_has_status (fst (updateItem q name u)).
Proof.
  unfold findItem.
  induction q as [|x q IH]; intros Hq Hu; cbn [updateItem fst]; [constructor|].
  apply Forall_cons_iff in Hq as [Hx Hq]. cbn [List.find] in Hu.
  destruct (bool_decide (releaseName x = name)).
  - cbn [fst]. constructor; [now apply Hu|exact Hq].
  - specialize (IH Hq Hu). destruct (updateItem q name u). cbn [fst] in *.
    now constructor.
Qed.

Lemma qm_updateItem_errors name u st :
  errors_have_status st ->
  (forall it, findItem (queue st) name = Some it ->
              error_has_status (merge it u)) ->
  errors_have_status (fst (qm_updateItem name u st)).
Proof.
  intros Hq Hu. unfold errors_have_status.
  rewrite (proj2 (proj2 (proj2 (qm_updateItem_frame name u st)))).
  now apply updateItem_errors.
Qed.

(** An update that touches neither status nor error. *)
Lemma qm_updateItem_errors_kept name u st :
  errors_have_status st -> u_status u = None -> u_error u = None ->
  errors_have_status (fst (qm_updateItem name u st)).
Proof.
  intros Hq Hs He. apply qm_updateItem_errors; [exact Hq|].
  intros it Hit. unfold error_has_status. cbn. rewrite Hs, He. cbn.
  assert (Hin : In it (queue st)).
  { unfold findItem in Hit. now apply List.find_some in Hit as [Hin _]. }
  exact (proj1 (List.Forall_forall _ _) Hq it Hin).
Qed.

Lemma updateItemStatus_errors name s p e sp et xp st :
  errors_have_status st ->
  (truthy e = true -> s = Error \/ s = InstallError) ->
  errors_have_status (updateItemStatus name s p e sp et xp st).
Proof.
  intros Hq He. unfold updateItemStatus.
  match goal with |- context [qm_updateItem name ?u st] => set (upd := u) end.
  assert (H : errors_have_status (fst (qm_updateItem name upd st))).
  { apply qm_updateItem_errors; [exact Hq|]. intros it _. exact He. }
  destruct (qm_updateItem name upd st) as [st' []]; exact H.
Qed.

Lemma cancelDownload_errors name finalStatus errorMsg st :
  errors_have_status st ->
  errors_have_status (cancelDownload name finalStatus errorMsg st).
Proof.
  intros Hq. unfold errors_have_status.
  destruct (findItem (queue st) name) as [it|] eqn:Hit.
  - rewrite (cancelDownload_queue _ _ _ _ it Hit).
    apply updateItem_errors; [exact Hq|].
    intros it' Hit'. rewrite Hit in Hit'. injection Hit' as <-.
    unfold error_has_status. destruct finalStatus; cbn.
    + discriminate.
    + intros _. left. destruct (status it); reflexivity.
  - unfold cancelDownload.
    set (st1 := match activeDownloads st !! name with
                | Some process => _
                | None => st
                end).
    assert (Hq1 : queue st1 = queue st).
    { subst st1. destruct (activeDownloads st !! name) as [p|]; [|reflexivity].
      destruct (pid_truthy p); reflexivity. }
    rewrite Hq1, Hit, Hq1. exact Hq.
Qed.

Lemma cleanup_errors name st :
  errors_have_status st -> errors_have_status (cleanup name st).
Proof.
  intros Hq. unfold cleanup. destruct (activeDownloads st !! name); [|exact Hq].
  now apply qm_updateItem_errors_kept.
Qed.

Lemma processLine_errors name cur st line :
  errors_have_status st -> errors_have_status (processLine name cur st line).
Proof.
  intros Hq. unfold processLine, auth_check.
  assert (H1 : errors_have_status (progress_update name cur st line)).
  { unfold progress_update.
    destruct (transferLineRegex line) as [g|]; [|exact Hq].
    destruct (truthy (Some g)); [|exact Hq].
    destruct (_ <=? _); [|exact Hq].
    apply updateItemStatus_errors; [exact Hq|discriminate]. }
  destruct (_ || _); [|exact H1]. now apply cancelDownload_errors.
Qed.

Lemma startDownload_catch_errors name err st :
  errors_have_status st ->
  errors_have_status (fst (startDownload_catch name err st)).
Proof.
  intros Hq. unfold startDownload_catch.
  pose proof (cleanup_errors name st Hq) as H1.
  assert (Herr : forall m,
    bool_decide (status <$> findItem (queue st) name = Some Error) = true ->
    errors_have_status
      (debouncedEmitUpdate
         (fst (qm_updateItem name
                 {| u_status := None; u_progress := None;
                    u_error := Some (Some m); u_speed := None;
                    u_eta := None; u_extractProgress := None;
                    u_downloadPath := None; u_pid := None |}
                 (cleanup name st))))).
  { intros m Hs. apply bool_decide_eq_true in Hs.
    destruct (findItem (queue st) name) as [it|] eqn:Hit; [|discriminate].
    injection Hs as Hs.
    destruct (cleanup_item name st it Hit) as (_ & it1 & Hf1 & Hs1 & _).
    apply (qm_updateItem_errors name _ (cleanup name st) H1).
    intros it' Hit'. rewrite Hf1 in Hit'. injection Hit' as <-.
    intros _. left. cbn. now rewrite Hs1. }
  destruct (bool_decide (status <$> findItem (queue st) name = Some Error))
    eqn:Es.
  - specialize (fun m => Herr m eq_refl).
    destruct err as [e| |]; cbn zeta;
      repeat match goal with
             | |- context [if ?b then _ else _] => destruct b
             end;
      cbn [fst];
      first [ exact H1 | apply Herr
            | apply updateItemStatus_errors; [exact H1|auto; discriminate] ].
  - clear Herr.
    destruct err as [e| |]; cbn zeta;
      repeat match goal with
             | |- context [if ?b then _ else _] => destruct b
             end;
      cbn [fst];
      first [ exact H1
            | apply updateItemStatus_errors; [exact H1|auto; discriminate] ].
Qed.

Lemma onData_errors name run data :
  errors_have_status (fst run) ->
  errors_have_status (fst (onData name run data)).
Proof.
  destruct run as [st buf]. cbn [fst]. intros Hq. unfold onData.
  assert (Hstop : errors_have_status (stop_processing name st)).
  { unfold errors_have_status.
    now rewrite (proj1 (stop_processing_frame name st)). }
  destruct (findItem (queue st) name) as [cur|]; [|exact Hstop].
  destruct (status cur); try exact Hstop.
  destruct (take_lines buf data) as [lines buf']. cbn [fst].
  clear Hstop. revert st Hq.
  induction lines as [|l lines IH]; intros st Hq; [exact Hq|].
  cbn [fold_left]. apply IH. now apply processLine_errors.
Qed.

Lemma startDownload_resolved_errors name st :
  errors_have_status st ->
  errors_have_status (fst (startDownload_resolved name st)).
Proof.
  intros Hq. unfold startDownload_resolved.
  destruct (status <$> findItem (queue st) name) as [[]|]; cbn [fst];
    first [ now apply cleanup_errors
          | apply qm_updateItem_errors_kept; [exact Hq|reflexivity|reflexivity] ].
Qed.

Lemma startDownload_begin_errors path_join getRclonePath item mkdir spawned st :
  errors_have_status st ->
  errors_have_status
    (fst (startDownload_begin path_join getRclonePath item mkdir spawned st)).
Proof.
  intros Hq. unfold startDownload_begin.
  destruct (config_ready (vrpConfig st)) as [uri|]; cbn [fst];
    [|apply updateItemStatus_errors; auto].
  destruct (negb (truthy getRclonePath)); cbn [fst];
    [apply updateItemStatus_errors; auto|].
  match goal with
  | |- context [do_effects [Mkdir ?d] (fst (qm_updateItem ?n ?u st))] =>
      assert (H2 : errors_have_status
                     (do_effects [Mkdir d] (fst (qm_updateItem n u st))))
        by (apply (qm_updateItem_errors_kept n u st Hq); reflexivity);
      set (st2 := do_effects [Mkdir d] (fst (qm_updateItem n u st))) in *
  end.
  destruct mkdir; cbn [fst]; try (apply updateItemStatus_errors; auto).
  assert (H3 : errors_have_status
                 (updateItemStatus (releaseName item) Downloading 0 None None
                    None None st2))
    by (apply updateItemStatus_errors; [exact H2|discriminate]).
  destruct (pid_truthy spawned && proc_all spawned); cbn [fst].
  - apply qm_updateItem_errors_kept; [exact H3|reflexivity|reflexivity].
  - match goal with
    | |- context [startDownload_catch ?n ?e ?s] =>
        pose proof (startDownload_catch_errors n e s H3) as H4;
        destruct (startDownload_catch n e s) as [st5 o]
    end.
    exact H4.
Qed.

(** C8, as the code has it. From a state in which every item with a
    non-empty error has status Error or InstallError, every sequence of
    operations of the driver (set the configuration, start a download with
    whatever the environment answers, a data event with any buffer and any
    output, the end of the subprocess fulfilled or rejected with any error,
    a cancel with either final status and any message) leads to such a
    state. *)
Theorem error_only_with_error_status (st : State) (ops : list Operation) :
  errors_have_status st ->
  errors_have_status (fold_left perform ops st).
Proof.
  revert st. induction ops as [|op ops IH]; intros st Hq; [exact Hq|].
  cbn [fold_left]. apply IH. destruct op; cbn [perform].
  - exact Hq.
  - now apply startDownload_begin_errors.
  - now apply (onData_errors name (st, outputBuffer) data).
  - now apply startDownload_resolved_errors.
  - now apply startDownload_catch_errors.
  - now apply cancelDownload_errors.
Qed.

Lemma error_only_with_error_status_witness :
  errors_have_status
    (fold_left perform
       [OpStartDownload sample_join (Some (js "/bin/rclone"))
          (sample_item Queued 0 None) MkdirOk sample_process;
        OpCancelDownload sample_name FinalCancelled None;
        OpSetVrpConfig (Some sample_config);
        OpStartDownload sample_join (Some (js "/bin/rclone"))
          (sample_item Queued 0 None) MkdirOk sample_process;
        OpData sample_name [] (js "ERROR : Auth Error" ++ [LF] ++ js "x" ++ [LF]);
        OpRejected sample_name (ThrownExeca (sample_exit 1 None))]
       (sample_idle (sample_item Queued 0 None) None)).
Proof.
  apply (error_only_with_error_status
           (sample_idle (sample_item Queued 0 None) None)).
  repeat constructor. discriminate.
Defined.

(** ** The authentication failure, line by line *)

Lemma progress_update_frame name cur st line :
  effects (progress_update name cur st line) = effects st
  /\ activeDownloads (progress_update name cur st line) = activeDownloads st
  /\ forall it, findItem (queue st) name = Some it ->
       exists it', findItem (queue (progress_update name cur st line)) name
                   = Some it'.
Proof.
  unfold progress_update.
  destruct (transferLineRegex line) as [g|]; [|eauto].
  destruct (truthy (Some g)); [|eauto].
  destruct (_ <=? _); [|eauto].
  split; [apply updateItemStatus_frame|].
  split; [apply updateItemStatus_frame|].
  intros it Hit.
  destruct (findItem_updateItemStatus name Downloading (parseInt g) None
              (js_or (speedRegex line) (speed cur))
              (js_or (etaRegex line) (eta cur)) None st it Hit)
    as (it' & Hf & _).
  eauto.
Qed.

Lemma cancelDownload_signals name finalStatus errorMsg st proc :
  activeDownloads st !! name = Some proc -> pid_truthy proc = true ->
  effects (cancelDownload name finalStatus errorMsg st)
  = effects st ++ detach proc ++ [Kill proc]
  /\ activeDownloads (cancelDownload name finalStatus errorMsg st) !! name
     = None.
Proof.
  intros Hp Hpid. unfold cancelDownload. rewrite Hp, Hpid.
  match goal with
  | |- context [findItem (queue ?s) name] => set (st1 := s)
  end.
  assert (H1 : effects st1 = effects st ++ detach proc ++ [Kill proc]
               /\ activeDownloads st1 !! name = None).
  { subst st1. cbn [effects activeDownloads with_active do_effects].
    split; [reflexivity|apply lookup_delete_eq]. }
  destruct (findItem (queue st1) name) as [item|]; [|exact H1].
  destruct (qm_updateItem_frame name
              (cancel_updates item finalStatus errorMsg) st1)
    as (He & Ha & _).
  destruct (qm_updateItem name _ st1) as [st2 []]; cbn [fst] in *;
    cbn [effects activeDownloads debouncedEmitUpdate];
    rewrite ?He, ?Ha; exact H1.
Qed.

(** A line the loop processes that contains "Auth Error" or
    "authentication failed": the line ends with a call of [cancelDownload]
    with final status Error; right after the line the item, when it is in the
    queue, has status Error and the error "Auth failed (check VRP
    password?)", and the subprocess, when one is attached, has lost its
    listeners, got the signal and is forgotten. *)
Theorem auth_failure_cancels_at_once name cur st line :
  includes (js "Auth Error") line || includes (js "authentication failed") line
  = true ->
  let st' := processLine name cur st line in
  st' = cancelDownload name FinalError
          (Some (js "Auth failed (check VRP password?)"))
          (progress_update name cur st line)
  /\ (forall it, findItem (queue st) name = Some it ->
        exists it',
          findItem (queue st') name = Some it'
          /\ status it' = Error
          /\ error it' = Some (js "Auth failed (check VRP password?)"))
  /\ (forall proc,
        activeDownloads st !! name = Some proc -> pid_truthy proc = true ->
        effects st' = effects st ++ detach proc ++ [Kill proc]
        /\ activeDownloads st' !! name = None).
Proof.
  intros Hauth. cbv zeta. unfold processLine, auth_check. rewrite Hauth.
  destruct (progress_update_frame name cur st line) as (He & Ha & Hq).
  split; [reflexivity|]. split.
  - intros it Hit. destruct (Hq it Hit) as (it1 & Hf1).
    rewrite (cancelDownload_item _ _ _ _ it1 Hf1).
    eexists. split; [reflexivity|]. split; [|reflexivity].
    cbn. now destruct (status it1).
  - intros proc Hp Hpid. rewrite <- Ha in Hp.
    destruct (cancelDownload_signals name FinalError
                (Some (js "Auth failed (check VRP password?)"))
                (progress_update name cur st line) proc Hp Hpid) as [H1 H2].
    rewrite H1, He. auto.
Qed.

Lemma auth_failure_cancels_at_once_witness :
  let st' := processLine sample_name sample_downloading
               sample_running (js "ERROR : authentication failed") in
  st' = cancelDownload sample_name FinalError
          (Some (js "Auth failed (check VRP password?)"))
          (progress_update sample_name sample_downloading
             sample_running (js "ERROR : authentication failed"))
  /\ (forall it, findItem (queue sample_running) sample_name = Some it ->
        exists it',
          findItem (queue st') sample_name = Some it'
          /\ status it' = Error
          /\ error it' = Some (js "Auth failed (check VRP password?)"))
  /\ (forall proc,
        activeDownloads sample_running !! sample_name = Some proc ->
        pid_truthy proc = true ->
        effects st' = effects sample_running ++ detach proc ++ [Kill proc]
        /\ activeDownloads st' !! sample_name = None).
Proof.
  apply (auth_failure_cancels_at_once sample_name
           sample_downloading sample_running
           (js "ERROR : authentication failed")).
  vm_compute. reflexivity.
Defined.

(** * Further properties of the download processor *)

(** ** Cancelling twice *)

Lemma merge_cancel_updates_twice it finalStatus errorMsg :
  let it' := merge it (cancel_updates it finalStatus errorMsg) in
  merge it' (cancel_updates it' finalStatus errorMsg) = it'.
Proof.
  destruct it as [rn pn gn s p e sp et xp dp pd].
  destruct finalStatus; cbv zeta.
  - destruct s; reflexivity.
  - destruct errorMsg as [[|c m]|]; destruct s; reflexivity.
Qed.

Lemma with_queue_same st : with_queue (queue st) st = st.
Proof. now destruct st. Qed.

(** [cancelDownload] called a second time with the same arguments changes
    nothing: no further signal, no further update, no further emit. *)
Theorem cancelDownload_twice name finalStatus errorMsg st :
  cancelDownload name finalStatus errorMsg
    (cancelDownload name finalStatus errorMsg st)
  = cancelDownload name finalStatus errorMsg st.
Proof.
  set (st' := cancelDownload name finalStatus errorMsg st).
  assert (Hact : match activeDownloads st' !! name with
                 | Some p => pid_truthy p = false
                 | None => True
                 end).
  { subst st'. unfold cancelDownload.
    destruct (activeDownloads st !! name) as [p|] eqn:Ep.
    - destruct (pid_truthy p) eqn:Et.
      + match goal with
        | |- context [findItem (queue ?s) name] => set (st1 := s)
        end.
        assert (H1 : activeDownloads st1 !! name = None)
          by (subst st1; cbn; apply lookup_delete_eq).
        destruct (findItem (queue st1) name) as [item|]; [|now rewrite H1].
        destruct (qm_updateItem_frame name
                    (cancel_updates item finalStatus errorMsg) st1)
          as (_ & Ha & _).
        destruct (qm_updateItem name _ st1) as [st2 []]; cbn [fst] in *;
          cbn [activeDownloads debouncedEmitUpdate]; now rewrite Ha, H1.
      + destruct (findItem (queue st) name) as [item|]; [|now rewrite Ep].
        destruct (qm_updateItem_frame name
                    (cancel_updates item finalStatus errorMsg) st)
          as (_ & Ha & _).
        destruct (qm_updateItem name _ st) as [st2 []]; cbn [fst] in *;
          cbn [activeDownloads debouncedEmitUpdate]; now rewrite Ha, Ep.
    - destruct (findItem (queue st) name) as [item|]; [|now rewrite Ep].
      destruct (qm_updateItem_frame name
                  (cancel_updates item finalStatus errorMsg) st)
        as (_ & Ha & _).
      destruct (qm_updateItem name _ st) as [st2 []]; cbn [fst] in *;
        cbn [activeDownloads debouncedEmitUpdate]; now rewrite Ha, Ep. }
  assert (Hitem : match findItem (queue st') name with
                  | Some it' =>
                      merge it' (cancel_updates it' finalStatus errorMsg) = it'
                  | None => True
                  end).
  { destruct (findItem (queue st) name) as [it|] eqn:Hit.
    - subst st'. rewrite (cancelDownload_item _ _ _ _ it Hit).
      apply merge_cancel_updates_twice.
    - destruct (findItem (queue st') name) as [it'|] eqn:Hit'; [|exact I].
      exfalso. subst st'. unfold cancelDownload in Hit'.
      set (st1 := match activeDownloads st !! name with
                  | Some process => _
                  | None => st
                  end) in Hit'.
      assert (Hq1 : queue st1 = queue st).
      { subst st1. destruct (activeDownloads st !! name) as [p|]; [|reflexivity].
        destruct (pid_truthy p); reflexivity. }
      rewrite Hq1, Hit, Hq1, Hit in Hit'. discriminate. }
  unfold cancelDownload at 1.
  destruct (activeDownloads st' !! name) as [p|].
  - rewrite Hact.
    destruct (findItem (queue st') name) as [it'|] eqn:Hit'; [|reflexivity].
    unfold qm_updateItem. rewrite (updateItem_same _ _ _ it' Hit' Hitem).
    apply with_queue_same.
  - destruct (findItem (queue st') name) as [it'|] eqn:Hit'; [|reflexivity].
    unfold qm_updateItem. rewrite (updateItem_same _ _ _ it' Hit' Hitem).
    apply with_queue_same.
Qed.

(** ** The handle at the end of the subprocess *)

Lemma cleanup_active name st :
  activeDownloads (cleanup name st) = delete name (activeDownloads st).
Proof.
  unfold cleanup. destruct (activeDownloads st !! name) eqn:E.
  - now rewrite (proj1 (proj2 (qm_updateItem_frame _ _ _))).
  - now rewrite delete_id.
Qed.

Lemma updateItemStatus_active name s p e sp et xp st :
  activeDownloads (updateItemStatus name s p e sp et xp st) = activeDownloads st.
Proof. apply updateItemStatus_frame. Qed.

Lemma startDownload_catch_active name err st :
  activeDownloads (fst (startDownload_catch name err st))
  = delete name (activeDownloads st).
Proof.
  unfold startDownload_catch.
  destruct err as [e| |]; cbn zeta;
    repeat match goal with
           | |- context [if ?b then _ else _] => destruct b
           end;
    cbn [fst activeDownloads debouncedEmitUpdate];
    rewrite ?updateItemStatus_active,
            ?(proj1 (proj2 (qm_updateItem_frame _ _ _)));
    apply cleanup_active.
Qed.

(** However the subprocess ends, fulfilled or rejected with any error, and
    whatever the item's status is by then, the release has no handle
    afterwards ([isDownloadActive] is false), the handles of the other
    releases are the ones they had, and nothing is done to any process. *)
Theorem exit_forgets_handle name st :
  let fulfilled := fst (startDownload_resolved name st) in
  activeDownloads fulfilled = delete name (activeDownloads st)
  /\ effects fulfilled = effects st
  /\ isDownloadActive name fulfilled = false
  /\ forall err,
       let rejected := fst (startDownload_catch name err st) in
       activeDownloads rejected = delete name (activeDownloads st)
       /\ effects rejected = effects st
       /\ isDownloadActive name rejected = false.
Proof.
  cbv zeta.
  assert (Hres : activeDownloads (fst (startDownload_resolved name st))
                 = delete name (activeDownloads st)).
  { unfold startDownload_resolved.
    destruct (status <$> findItem (queue st) name) as [[]|]; cbn [fst];
      first [ apply cleanup_active
            | now rewrite (proj1 (proj2 (qm_updateItem_frame _ _ _))) ]. }
  assert (Hoff : forall m : gmap jsstring ExecaProcess,
            bool_decide (is_Some (delete name m !! name)) = false).
  { intros m. apply bool_decide_eq_false_2. rewrite lookup_delete_eq.
    now intros [x Hx]. }
  split; [exact Hres|]. split.
  { unfold startDownload_resolved.
    destruct (status <$> findItem (queue st) name) as [[]|]; cbn [fst];
      first [ apply cleanup_effects
            | now rewrite (proj1 (qm_updateItem_frame _ _ _)) ]. }
  split; [unfold isDownloadActive; rewrite Hres; apply Hoff|].
  intros err. split; [apply startDownload_catch_active|].
  split; [apply startDownload_catch_effects|].
  unfold isDownloadActive. rewrite startDownload_catch_active. apply Hoff.
Qed.

(** ** What an operation leaves alone in the queue *)


Lemma touches_only_refl name q : touches_only name q q.
Proof. split; auto. Qed.

Lemma touches_only_trans name q1 q2 q3 :
  touches_only name q1 q2 -> touches_only name q2 q3 -> touches_only name q1 q3.
Proof.
  intros [Hn1 Hf1] [Hn2 Hf2]. split.
  - now rewrite Hn2.
  - intros other Hne. now rewrite Hf2, Hf1.
Qed.

Lemma updateItem_touches q name u :
  touches_only (Some name) q (fst (updateItem q name u)).
Proof.
  split.
  - induction q as [|x q IH]; cbn [updateItem]; [reflexivity|].
    destruct (bool_decide (releaseName x = name)); [reflexivity|].
    destruct (updateItem q name u). cbn [fst map] in *. now rewrite IH.
  - intros other Hne. apply findItem_updateItem_other. congruence.
Qed.

Lemma qm_updateItem_touches name u st :
  touches_only (Some name) (queue st) (queue (fst (qm_updateItem name u st))).
Proof.
  rewrite (proj2 (proj2 (proj2 (qm_updateItem_frame name u st)))).
  apply updateItem_touches.
Qed.

Lemma updateItemStatus_touches name s p e sp et xp st :
  touches_only (Some name) (queue st)
    (queue (updateItemStatus name s p e sp et xp st)).
Proof.
  unfold updateItemStatus.
  match goal with |- context [qm_updateItem name ?u st] => set (upd := u) end.
  pose proof (qm_updateItem_touches name upd st) as H.
  destruct (qm_updateItem name upd st) as [st' []]; exact H.
Qed.

Lemma cancelDownload_touches name finalStatus errorMsg st :
  touches_only (Some name) (queue st)
    (queue (cancelDownload name finalStatus errorMsg st)).
Proof.
  destruct (findItem (queue st) name) as [it|] eqn:Hit.
  - rewrite (cancelDownload_queue _ _ _ _ it Hit). apply updateItem_touches.
  - unfold cancelDownload.
    set (st1 := match activeDownloads st !! name with
                | Some process => _
                | None => st
                end).
    assert (Hq1 : queue st1 = queue st).
    { subst st1. destruct (activeDownloads st !! name) as [p|]; [|reflexivity].
      destruct (pid_truthy p); reflexivity. }
    rewrite Hq1, Hit, Hq1. apply touches_only_refl.
Qed.

Lemma cleanup_touches name st :
  touches_only (Some name) (queue st) (queue (cleanup name st)).
Proof.
  unfold cleanup. destruct (activeDownloads st !! name).
  - apply (qm_updateItem_touches name clear_pid
             (with_active (delete name (activeDownloads st)) st)).
  - apply touches_only_refl.
Qed.

Lemma processLine_touches name cur st line :
  touches_only (Some name) (queue st) (queue (processLine name cur st line)).
Proof.
  unfold processLine, auth_check.
  assert (H1 : touches_only (Some name) (queue st)
                 (queue (progress_update name cur st line))).
  { unfold progress_update.
    destruct (transferLineRegex line) as [g|]; [|apply touches_only_refl].
    destruct (truthy (Some g)); [|apply touches_only_refl].
    destruct (_ <=? _); [|apply touches_only_refl].
    apply updateItemStatus_touches. }
  destruct (_ || _); [|exact H1].
  eapply touches_only_trans; [exact H1|apply cancelDownload_touches].
Qed.

Lemma processLines_touches name cur lines : forall st,
  touches_only (Some name) (queue st)
    (queue (fold_left (processLine name cur) lines st)).
Proof.
  induction lines as [|l lines IH]; intros st; [apply touches_only_refl|].
  cbn [fold_left].
  eapply touches_only_trans; [apply processLine_touches|apply IH].
Qed.

Lemma onData_touches name run data :
  touches_only (Some name) (queue (fst run)) (queue (fst (onData name run data))).
Proof.
  destruct run as [st buf]. cbn [fst]. unfold onData.
  assert (Hstop : touches_only (Some name) (queue st)
                    (queue (stop_processing name st))).
  { rewrite (proj1 (stop_processing_frame name st)). apply touches_only_refl. }
  destruct (findItem (queue st) name) as [cur|]; [|exact Hstop].
  destruct (status cur); try exact Hstop.
  destruct (take_lines buf data) as [lines buf']. cbn [fst].
  apply processLines_touches.
Qed.

Lemma startDownload_resolved_touches name st :
  touches_only (Some name) (queue st)
    (queue (fst (startDownload_resolved name st))).
Proof.
  unfold startDownload_resolved.
  destruct (status <$> findItem (queue st) name) as [[]|]; cbn [fst];
    first [ apply cleanup_touches
          | apply (qm_updateItem_touches name clear_pid
                     (with_active (delete name (activeDownloads st)) st)) ].
Qed.

Lemma startDownload_catch_touches name err st :
  touches_only (Some name) (queue st)
    (queue (fst (startDownload_catch name err st))).
Proof.
  unfold startDownload_catch.
  pose proof (cleanup_touches name st) as H1.
  destruct err as [e| |]; cbn zeta;
    repeat match goal with
           | |- context [if ?b then _ else _] => destruct b
           end;
    cbn [fst queue debouncedEmitUpdate];
    first [ exact H1
          | eapply touches_only_trans;
              [exact H1
              |first [ apply updateItemStatus_touches
                     | apply qm_updateItem_touches ]] ].
Qed.

Lemma startDownload_begin_touches path_join getRclonePath item mkdir spawned st :
  touches_only (Some (releaseName item)) (queue st)
    (queue (fst (startDownload_begin path_join getRclonePath item mkdir
                   spawned st))).
Proof.
  unfold startDownload_begin.
  destruct (config_ready (vrpConfig st)) as [uri|]; cbn [fst];
    [|apply updateItemStatus_touches].
  destruct (negb (truthy getRclonePath)); cbn [fst];
    [apply updateItemStatus_touches|].
  match goal with
  | |- context [do_effects [Mkdir ?d] (fst (qm_updateItem ?n ?u st))] =>
      assert (H2 : touches_only (Some n) (queue st)
                     (queue (do_effects [Mkdir d] (fst (qm_updateItem n u st)))))
        by apply (qm_updateItem_touches n u st);
      set (st2 := do_effects [Mkdir d] (fst (qm_updateItem n u st))) in *
  end.
  destruct mkdir; cbn [fst];
    try (eapply touches_only_trans;
           [exact H2|apply updateItemStatus_touches]).
  assert (H3 : touches_only (Some (releaseName item)) (queue st)
                 (queue (updateItemStatus (releaseName item) Downloading 0
                           None None None None st2)))
    by (eapply touches_only_trans; [exact H2|apply updateItemStatus_touches]).
  destruct (pid_truthy spawned && proc_all spawned); cbn [fst].
  - eapply touches_only_trans; [exact H3|].
    match goal with
    | |- context [qm_updateItem ?n ?u ?s] => apply (qm_updateItem_touches n u s)
    end.
  - match goal with
    | |- context [startDownload_catch ?n ?e ?s] =>
        pose proof (startDownload_catch_touches n e s) as H4;
        destruct (startDownload_catch n e s) as [st5 o]
    end.
    eapply touches_only_trans; [exact H3|exact H4].
Qed.

Lemma touches_only_weaken name q q' (target : option jsstring) :
  touches_only (Some name) q q' -> target = Some name ->
  touches_only target q q'.
Proof. now intros H ->. Qed.

Lemma perform_touches st op :
  touches_only (op_target op) (queue st) (queue (perform st op)).
Proof.
  destruct op; cbn [perform op_target].
  - apply touches_only_refl.
  - apply startDownload_begin_touches.
  - apply (onData_touches name (st, outputBuffer) data).
  - apply startDownload_resolved_touches.
  - apply startDownload_catch_touches.
  - apply cancelDownload_touches.
Qed.

(** No sequence of operations of the driver adds, removes or reorders an
    entry of the queue, and an item is the one it was as long as no
    operation of the sequence was about its release. *)
Theorem operations_touch_only_their_item (ops : list Operation) (st : State) :
  map releaseName (queue (fold_left perform ops st))
  = map releaseName (queue st)
  /\ forall other,
       Forall (fun op => op_target op <> Some other) ops ->
       findItem (queue (fold_left perform ops st)) other
       = findItem (queue st) other.
Proof.
  revert st. induction ops as [|op ops IH]; intros st; [split; auto|].
  cbn [fold_left]. destruct (IH (perform st op)) as [Hn Hf].
  destruct (perform_touches st op) as [Hn1 Hf1]. split.
  - now rewrite Hn.
  - intros other Hall. apply Forall_cons_iff in Hall as [Hop Hall].
    rewrite (Hf other Hall). now apply Hf1.
Qed.

Lemma operations_touch_only_their_item_witness :
  map releaseName
    (queue (fold_left perform
              [OpCancelDownload sample_name FinalCancelled None;
               OpData sample_name [] (js "x" ++ [LF])]
              {| queue := [sample_downloading;
                           sample_item_named (js "Other Game v3") Queued];
                 activeDownloads := {[ sample_name := sample_process ]};
                 vrpConfig := Some sample_config;
                 downloadsDir := js "/downloads"; effects := [];
                 emitted := 0 |}))
  = [sample_name; js "Other Game v3"]
  /\ findItem
       (queue (fold_left perform
                 [OpCancelDownload sample_name FinalCancelled None;
                  OpData sample_name [] (js "x" ++ [LF])]
                 {| queue := [sample_downloading;
                              sample_item_named (js "Other Game v3") Queued];
                    activeDownloads := {[ sample_name := sample_process ]};
                    vrpConfig := Some sample_config;
                    downloadsDir := js "/downloads"; effects := [];
                    emitted := 0 |}))
       (js "Other Game v3")
     = Some (sample_item_named (js "Other Game v3") Queued).
Proof.
  pose proof (operations_touch_only_their_item
                [OpCancelDownload sample_name FinalCancelled None;
                 OpData sample_name [] (js "x" ++ [LF])]
                {| queue := [sample_downloading;
                             sample_item_named (js "Other Game v3") Queued];
                   activeDownloads := {[ sample_name := sample_process ]};
                   vrpConfig := Some sample_config;
                   downloadsDir := js "/downloads"; effects := [];
                   emitted := 0 |}) as [Hn Hf].
  split; [exact Hn|].
  apply Hf. repeat constructor; discriminate.
Defined.

(** ** What a data event does to the outside *)

Lemma only_signals_refl name st : only_signals name st st.
Proof. exists []. rewrite app_nil_r. auto. Qed.

Lemma only_signals_same name st st' :
  effects st' = effects st -> activeDownloads st' = activeDownloads st ->
  only_signals name st st'.
Proof. intros He Ha. exists []. rewrite app_nil_r. auto. Qed.

Lemma only_signals_trans name st1 st2 st3 :
  only_signals name st1 st2 -> only_signals name st2 st3 ->
  only_signals name st1 st3.
Proof.
  intros (es1 & He1 & Hs1 & Ha1) (es2 & He2 & Hs2 & Ha2).
  exists (es1 ++ es2). split; [now rewrite He2, He1, <- app_assoc|].
  split; [now apply Forall_app|].
  destruct Ha1 as [Ha1|Ha1], Ha2 as [Ha2|Ha2]; rewrite Ha2, Ha1; auto.
  right. apply delete_delete_eq.
Qed.

Lemma detach_kill_signals p :
  Forall (fun e => is_signal e = true) (detach p ++ [Kill p]).
Proof. unfold detach. destruct (proc_all p); repeat constructor. Qed.

Lemma cancelDownload_only_signals name finalStatus errorMsg st :
  only_signals name st (cancelDownload name finalStatus errorMsg st).
Proof.
  unfold cancelDownload.
  set (st1 := match activeDownloads st !! name with
              | Some process => _
              | None => st
              end).
  assert (H1 : only_signals name st st1).
  { subst st1. destruct (activeDownloads st !! name) as [p|];
      [|apply only_signals_refl].
    destruct (pid_truthy p); [|apply only_signals_refl].
    exists (detach p ++ [Kill p]). split; [reflexivity|].
    split; [apply detach_kill_signals|]. now right. }
  destruct (findItem (queue st1) name) as [item|]; [|exact H1].
  eapply only_signals_trans; [exact H1|].
  destruct (qm_updateItem_frame name
              (cancel_updates item finalStatus errorMsg) st1)
    as (He & Ha & _).
  destruct (qm_updateItem name _ st1) as [st2 []]; cbn [fst] in *;
    now apply only_signals_same.
Qed.

Lemma processLine_only_signals name cur st line :
  only_signals name st (processLine name cur st line).
Proof.
  unfold processLine, auth_check.
  destruct (progress_update_frame name cur st line) as (He & Ha & _).
  pose proof (only_signals_same name st _ He Ha) as H1.
  destruct (_ || _); [|exact H1].
  eapply only_signals_trans; [exact H1|apply cancelDownload_only_signals].
Qed.

Lemma processLines_only_signals name cur lines : forall st,
  only_signals name st (fold_left (processLine name cur) lines st).
Proof.
  induction lines as [|l lines IH]; intros st; [apply only_signals_refl|].
  cbn [fold_left].
  eapply only_signals_trans; [apply processLine_only_signals|apply IH].
Qed.

(** A data event, whatever its text, the buffer and the state: the only
    effects it adds are the removal of listeners and the signal to a
    subprocess (it never makes a directory and never spawns), and the table
    of subprocesses stays as it is or loses the handle of this release (it
    never gains one). *)
Theorem data_event_only_signals name (run : State * jsstring) data :
  exists es,
    effects (fst (onData name run data)) = effects (fst run) ++ es
    /\ Forall (fun e => is_signal e = true) es
    /\ (activeDownloads (fst (onData name run data)) = activeDownloads (fst run)
        \/ activeDownloads (fst (onData name run data))
           = delete name (activeDownloads (fst run))).
Proof.
  change (only_signals name (fst run) (fst (onData name run data))).
  destruct run as [st buf]. cbn [fst]. unfold onData.
  assert (Hstop : only_signals name st (stop_processing name st)).
  { unfold stop_processing.
    destruct (activeDownloads st !! name) as [p|]; [|apply only_signals_refl].
    exists (detach p ++ [Kill p]). split; [reflexivity|].
    split; [apply detach_kill_signals|]. now right. }
  destruct (findItem (queue st) name) as [cur|]; [|exact Hstop].
  destruct (status cur); try exact Hstop.
  destruct (take_lines buf data) as [lines buf']. cbn [fst].
  apply processLines_only_signals.
Qed.

(** A data event for an item that is no longer Downloading, or no longer in
    the queue, while its subprocess is still attached: the listeners are
    removed, the process gets the signal and the handle is dropped; the
    queue and the buffer stay as they are and nothing is emitted. *)
Theorem late_data_event_stops_process name st buf data proc :
  (status <$> findItem (queue st) name) <> Some Downloading ->
  activeDownloads st !! name = Some proc ->
  let run' := onData name (st, buf) data in
  effects (fst run') = effects st ++ detach proc ++ [Kill proc]
  /\ activeDownloads (fst run') = delete name (activeDownloads st)
  /\ queue (fst run') = queue st
  /\ emitted (fst run') = emitted st
  /\ snd run' = buf.
Proof.
  intros Hst Hp. cbv zeta. unfold onData.
  assert (Hstop : effects (stop_processing name st)
                  = effects st ++ detach proc ++ [Kill proc]
                  /\ activeDownloads (stop_processing name st)
                     = delete name (activeDownloads st)
                  /\ queue (stop_processing name st) = queue st
                  /\ emitted (stop_processing name st) = emitted st).
  { unfold stop_processing. rewrite Hp. cbn. auto. }
  destruct (findItem (queue st) name) as [cur|]; cbn [fst snd];
    [|tauto].
  destruct (status cur) eqn:Es; cbn [fst snd]; try tauto.
  exfalso. apply Hst. cbn. now rewrite Es.
Qed.

Lemma late_data_event_stops_process_witness :
  let st := {| queue := [];
               activeDownloads := {[ sample_name := sample_process ]};
               vrpConfig := Some sample_config;
               downloadsDir := js "/downloads"; effects := [];
               emitted := 0 |} in
  let run' := onData sample_name (st, js "left over") (js "more" ++ [LF]) in
  effects (fst run')
  = effects st ++ detach sample_process ++ [Kill sample_process]
  /\ activeDownloads (fst run') = delete sample_name (activeDownloads st)
  /\ queue (fst run') = queue st
  /\ emitted (fst run') = emitted st
  /\ snd run' = js "left over".
Proof.
  apply (late_data_event_stops_process sample_name
           {| queue := [];
              activeDownloads := {[ sample_name := sample_process ]};
              vrpConfig := Some sample_config;
              downloadsDir := js "/downloads"; effects := [];
              emitted := 0 |}
           (js "left over") (js "more" ++ [LF]) sample_process).
  - vm_compute. discriminate.
  - vm_compute. reflexivity.
Defined.

(** ** The ways [startDownload] gets to, or misses, the transfer *)

Lemma findItem_qm_updateItem name u st it :
  findItem (queue st) name = Some it ->
  findItem (queue (fst (qm_updateItem name u st))) name = Some (merge it u).
Proof.
  intros H. rewrite (proj2 (proj2 (proj2 (qm_updateItem_frame name u st)))).
  now apply findItem_updateItem.
Qed.

Lemma findItem_updateItemStatus_exact name s p e sp et xp st it :
  findItem (queue st) name = Some it ->
  findItem (queue (updateItemStatus name s p e sp et xp st)) name
  = Some (merge it (status_updates s p e sp et xp)).
Proof.
  intros H. unfold updateItemStatus.
  change {| u_status := Some s; u_progress := Some p; u_error := Some e;
            u_speed := Some sp; u_eta := Some et;
            u_extractProgress := _; u_downloadPath := None; u_pid := None |}
    with (status_updates s p e sp et xp).
  pose proof (findItem_qm_updateItem name (status_updates s p e sp et xp) st
                it H) as Hf.
  destruct (qm_updateItem name _ st) as [st' []]; exact Hf.
Qed.

Lemma config_ready_of cfg c uri :
  cfg = Some c -> baseUri c = Some uri -> uri <> [] ->
  truthy (password c) = true -> config_ready cfg = Some uri.
Proof.
  intros -> Hu Hne Hp. apply config_ready_some. cbn. auto.
Qed.

(** With a complete configuration, rclone found, the directory made and a
    subprocess with a pid and an output stream: [startDownload] waits for
    the subprocess (it has not returned), the handle is registered under the
    release ([isDownloadActive] is true), and the item is Downloading at 0
    with no error, speed, ETA or extraction progress, with the pid of the
    process and the download path under the downloads directory. *)
Theorem startDownload_starts_transfer
    path_join getRclonePath item spawned st cfg uri rclonePath it :
  vrpConfig st = Some cfg -> baseUri cfg = Some uri -> uri <> [] ->
  truthy (password cfg) = true ->
  getRclonePath = Some rclonePath -> rclonePath <> [] ->
  pid_truthy spawned = true -> proc_all spawned = true ->
  findItem (queue st) (releaseName item) = Some it ->
  let r := startDownload_begin path_join getRclonePath item MkdirOk spawned st in
  snd r = None
  /\ activeDownloads (fst r) = <[releaseName item := spawned]> (activeDownloads st)
  /\ isDownloadActive (releaseName item) (fst r) = true
  /\ findItem (queue (fst r)) (releaseName item)
     = Some {| releaseName := releaseName it; packageName := packageName it;
               gameName := gameName it; status := Downloading; progress := 0;
               error := None; speed := None; eta := None;
               extractProgress := None;
               downloadPath :=
                 Some (path_join (downloadsDir st) (releaseName item));
               pid := proc_pid spawned |}.
Proof.
  intros Hcfg Huri Hne Hpw Hpath Hpne Hpid Hall Hit. cbv zeta.
  unfold startDownload_begin.
  rewrite (config_ready_of _ _ _ Hcfg Huri Hne Hpw), Hpath.
  destruct rclonePath as [|c0 r0]; [contradiction|]. cbn [truthy negb].
  rewrite Hpid, Hall. cbn [andb fst snd].
  split; [reflexivity|].
  assert (Hact : forall u s,
            activeDownloads (fst (qm_updateItem (releaseName item) u s))
            = activeDownloads s)
    by (intros; apply qm_updateItem_frame).
  split.
  { rewrite Hact. cbn [activeDownloads with_active do_effects].
    rewrite updateItemStatus_active. cbn [activeDownloads do_effects].
    now rewrite Hact. }
  split.
  { unfold isDownloadActive. apply bool_decide_eq_true_2.
    rewrite Hact. cbn [activeDownloads with_active].
    rewrite lookup_insert_eq. eauto. }
  etransitivity.
  - apply findItem_qm_updateItem. cbn [queue with_active do_effects].
    apply findItem_updateItemStatus_exact. cbn [queue do_effects].
    apply findItem_qm_updateItem. exact Hit.
  - destruct it; reflexivity.
Qed.

Lemma startDownload_starts_transfer_witness :
  let item := sample_item Queued 0 None in
  let st := sample_idle item (Some sample_config) in
  let r := startDownload_begin sample_join (Some (js "/bin/rclone")) item
             MkdirOk sample_process st in
  snd r = None
  /\ activeDownloads (fst r)
     = <[releaseName item := sample_process]> (activeDownloads st)
  /\ isDownloadActive (releaseName item) (fst r) = true
  /\ findItem (queue (fst r)) (releaseName item)
     = Some {| releaseName := releaseName item;
               packageName := packageName item;
               gameName := gameName item; status := Downloading;
               progress := 0; error := None; speed := None; eta := None;
               extractProgress := None;
               downloadPath :=
                 Some (sample_join (downloadsDir st) (releaseName item));
               pid := proc_pid sample_process |}.
Proof.
  apply (startDownload_starts_transfer sample_join (Some (js "/bin/rclone"))
           (sample_item Queued 0 None) sample_process
           (sample_idle (sample_item Queued 0 None) (Some sample_config))
           sample_config (js "https://host.example/files") (js "/bin/rclone")
           (sample_item Queued 0 None));
    try reflexivity; discriminate.
Defined.



Lemma catch_error_while_downloading name msg st it :
  findItem (queue st) name = Some it -> status it = Downloading ->
  exists it',
    findItem (queue (fst (startDownload_catch name (ThrownError msg) st))) name
    = Some it'
    /\ snd (startDownload_catch name (ThrownError msg) st) = failed (Some it')
    /\ status it' = Error /\ progress it' = progress it
    /\ error it' = Some (substring0 500 msg).
Proof.
  intros Hit Hst. unfold startDownload_catch. rewrite Hit.
  cbn [fmap option_fmap option_map default]. unfold id.
  rewrite Hst. cbn [negb fst snd].
  destruct (cleanup_item name st it Hit) as (_ & it1 & Hf1 & _).
  destruct (findItem_updateItemStatus name Error (progress it)
              (Some (substring0 500 msg)) None None None
              (cleanup name st) it1 Hf1)
    as (it' & Hf & Hs & Hp & He & _).
  exists it'. rewrite Hf. auto.
Qed.

(** When the object execa returns has no pid or no combined output stream,
    the spawn has been attempted but no handle is registered, and
    [startDownload] returns a failure carrying the item, which is in Error
    with the message "Failed to start rclone process.". *)
Theorem startDownload_spawn_failure
    path_join getRclonePath item spawned st cfg uri rclonePath it :
  vrpConfig st = Some cfg -> baseUri cfg = Some uri -> uri <> [] ->
  truthy (password cfg) = true ->
  getRclonePath = Some rclonePath -> rclonePath <> [] ->
  pid_truthy spawned && proc_all spawned = false ->
  findItem (queue st) (releaseName item) = Some it ->
  let r := startDownload_begin path_join getRclonePath item MkdirOk spawned st in
  let path := path_join (downloadsDir st) (releaseName item) in
  effects (fst r)
  = effects st ++ [Mkdir path;
                   Spawn rclonePath (rclone_args (releaseName item) path uri)]
  /\ activeDownloads (fst r) = delete (releaseName item) (activeDownloads st)
  /\ isDownloadActive (releaseName item) (fst r) = false
  /\ exists it',
       findItem (queue (fst r)) (releaseName item) = Some it'
       /\ snd r = Some {| success := false; startExtraction := false;
                          finalState := Some it' |}
       /\ status it' = Error /\ progress it' = 0
       /\ error it' = Some (js "Failed to start rclone process.").
Proof.
  intros Hcfg Huri Hne Hpw Hpath Hpne Hsp Hit. cbv zeta.
  pose proof (startDownload_begin_spawns path_join getRclonePath item spawned
                st uri rclonePath (config_ready_of _ _ _ Hcfg Huri Hne Hpw)
                Hpath Hpne) as Heff.
  cbv zeta in Heff. split; [exact Heff|]. clear Heff.
  unfold startDownload_begin.
  rewrite (config_ready_of _ _ _ Hcfg Huri Hne Hpw), Hpath.
  destruct rclonePath as [|c0 r0]; [contradiction|]. cbn [truthy negb].
  rewrite Hsp.
  set (st4 := do_effects [Spawn _ _] _).
  assert (H4 : findItem (queue st4) (releaseName item)
               = Some (merge
                         (merge it
                            {| u_status := None; u_progress := None;
                               u_error := None; u_speed := None;
                               u_eta := None; u_extractProgress := None;
                               u_downloadPath :=
                                 Some (Some (path_join (downloadsDir st)
                                               (releaseName item)));
                               u_pid := None |})
                         (status_updates Downloading 0 None None None None))).
  { subst st4. cbn [queue do_effects].
    apply findItem_updateItemStatus_exact. cbn [queue do_effects].
    now apply findItem_qm_updateItem. }
  assert (Ha4 : activeDownloads st4 = activeDownloads st).
  { subst st4. cbn [activeDownloads do_effects].
    rewrite updateItemStatus_active. cbn [activeDownloads do_effects].
    apply qm_updateItem_frame. }
  pose proof (startDownload_catch_active (releaseName item)
                (ThrownError (js "Failed to start rclone process.")) st4)
    as Hact.
  assert (Hitem : exists it',
            findItem (queue (fst (startDownload_catch (releaseName item)
                                    (ThrownError
                                       (js "Failed to start rclone process."))
                                    st4))) (releaseName item) = Some it'
            /\ snd (startDownload_catch (releaseName item)
                      (ThrownError (js "Failed to start rclone process."))
                      st4) = failed (Some it')
            /\ status it' = Error /\ progress it' = 0
            /\ error it' = Some (js "Failed to start rclone process.")).
  { destruct (catch_error_while_downloading (releaseName item)
                (js "Failed to start rclone process.") st4 _ H4 eq_refl)
      as (it' & Hf & Ho & Hs & Hp & He).
    exists it'. auto. }
  destruct (startDownload_catch _ _ st4) as [st5 o]. cbn [fst snd] in *.
  split; [now rewrite Hact, Ha4|].
  split.
  { unfold isDownloadActive. apply bool_decide_eq_false_2.
    rewrite Hact, lookup_delete_eq. now intros [x Hx]. }
  destruct Hitem as (it' & Hf & Ho & Hs & Hp & He).
  exists it'. rewrite Ho. auto.
Qed.

Lemma startDownload_spawn_failure_witness :
  let item := sample_item Queued 0 None in
  let st := sample_idle item (Some sample_config) in
  let spawned := {| proc_pid := None; proc_all := true |} in
  let r := startDownload_begin sample_join (Some (js "/bin/rclone")) item
             MkdirOk spawned st in
  let path := sample_join (downloadsDir st) (releaseName item) in
  effects (fst r)
  = effects st ++ [Mkdir path;
                   Spawn (js "/bin/rclone")
                     (rclone_args (releaseName item) path
                        (js "https://host.example/files"))]
  /\ activeDownloads (fst r) = delete (releaseName item) (activeDownloads st)
  /\ isDownloadActive (releaseName item) (fst r) = false
  /\ exists it',
       findItem (queue (fst r)) (releaseName item) = Some it'
       /\ snd r = Some {| success := false; startExtraction := false;
                          finalState := Some it' |}
       /\ status it' = Error /\ progress it' = 0
       /\ error it' = Some (js "Failed to start rclone process.").
Proof.
  apply (startDownload_spawn_failure sample_join (Some (js "/bin/rclone"))
           (sample_item Queued 0 None) {| proc_pid := None; proc_all := true |}
           (sample_idle (sample_item Queued 0 None) (Some sample_config))
           sample_config (js "https://host.example/files") (js "/bin/rclone")
           (sample_item Queued 0 None));
    try reflexivity; discriminate.
Defined.

(** ** Lines *)

Lemma split_lines_aux_no_line_end n : forall s cur,
  (length s <= n)%nat ->
  Forall (fun c => (c =? CR) = false /\ (c =? LF) = false) cur ->
  Forall no_line_end (split_lines_aux cur s).
Proof.
  induction n as [|n IH]; intros s cur Hlen Hcur.
  - destruct s; [|cbn in Hlen; lia]. cbn. constructor; [|constructor].
    unfold no_line_end. now apply Forall_rev.
  - assert (Hrev : no_line_end (rev cur))
      by (unfold no_line_end; now apply Forall_rev).
    destruct s as [|c s']; cbn [split_lines_aux].
    + constructor; [exact Hrev|constructor].
    + cbn [length] in Hlen. destruct (c =? CR) eqn:Ec.
      * destruct s' as [|d s''].
        -- constructor; [exact Hrev|]. apply IH; [cbn; lia|constructor].
        -- cbn [length] in Hlen. destruct (d =? LF);
             (constructor; [exact Hrev|]); apply IH;
             first [constructor | cbn [length]; lia].
      * destruct (c =? LF) eqn:El.
        -- constructor; [exact Hrev|]. apply IH; [lia|constructor].
        -- apply IH; [lia|]. constructor; auto.
Qed.

Lemma split_lines_no_line_end s : Forall no_line_end (split_lines s).
Proof.
  apply (split_lines_aux_no_line_end (length s)); [lia|constructor].
Qed.

(** What a data event makes of the buffer and the new text. The lines it
    hands to the loop are non-empty and hold no line terminator. Unless the
    text so far has no non-empty line at all (then it all stays in the
    buffer), the lines handed over followed by the new buffer, when that is
    not empty, are exactly the non-empty lines of the text so far: no such
    line is dropped or handed over twice by one event. A line kept in the
    buffer fails one of the two patterns. *)
Theorem take_lines_keeps_every_line (outputBuffer data : jsstring) :
  let lines := List.filter nonempty (split_lines (outputBuffer ++ data)) in
  let todo := fst (take_lines outputBuffer data) in
  let kept := snd (take_lines outputBuffer data) in
  Forall (fun l => l <> [] /\ no_line_end l) todo
  /\ ((lines = [] /\ todo = [] /\ kept = outputBuffer ++ data)
      \/ (lines = todo ++ (if nonempty kept then [kept] else [])
          /\ no_line_end kept
          /\ (kept <> [] ->
              test transferLineRegex kept && test etaRegex kept = false))).
Proof.
  cbv zeta. unfold take_lines.
  set (lines := List.filter nonempty (split_lines (outputBuffer ++ data))).
  assert (Hall : Forall (fun l => l <> [] /\ no_line_end l) lines).
  { apply List.Forall_forall. intros l Hl. subst lines.
    apply List.filter_In in Hl as [Hin Hne]. split.
    - destruct l; [discriminate|discriminate].
    - exact (proj1 (List.Forall_forall _ _)
               (split_lines_no_line_end (outputBuffer ++ data)) l Hin). }
  destruct (last lines) as [lastLine|] eqn:Hlast.
  - apply last_Some in Hlast as [front Hfront].
    assert (Hl : lastLine <> [] /\ no_line_end lastLine).
    { rewrite Hfront in Hall. apply Forall_app in Hall as [_ Hall].
      now apply Forall_cons_iff in Hall as [Hall _]. }
    destruct (test transferLineRegex lastLine && test etaRegex lastLine)
      eqn:Hc; cbn [fst snd].
    + split; [exact Hall|]. right. cbn [nonempty]. rewrite app_nil_r.
      split; [reflexivity|]. split; [constructor|]. now intros [].
    + assert (Hrm : slice_init lines = front)
        by (unfold slice_init; rewrite Hfront; apply removelast_last).
      rewrite Hrm. split.
      * rewrite Hfront in Hall. now apply Forall_app in Hall as [Hall _].
      * right. destruct Hl as [Hne Hnl].
        destruct lastLine as [|c l]; [contradiction|]. cbn [nonempty].
        split; [exact Hfront|]. split; [exact Hnl|]. intros _. exact Hc.
  - apply last_None in Hlast. cbn [fst snd]. split; [constructor|].
    left. auto.
Qed.

Example take_lines_sample :
  take_lines (js "ETA ")
    (js "5s" ++ [CR; LF] ++ [LF] ++ js "a, 7%, x, ETA 1s" ++ [CR] ++ js "tail")
  = ([js "ETA 5s"; js "a, 7%, x, ETA 1s"], js "tail").
Proof. vm_compute. reflexivity. Qed.

(** ** The tail of the output in the error message *)

Lemma split_on_aux_length sep s : forall cur,
  length (split_on_aux sep cur s)
  = S (length (List.filter (fun c => c =? sep) s)).
Proof.
  induction s as [|c s IH]; intros cur; cbn [split_on_aux List.filter];
    [reflexivity|].
  destruct (c =? sep); cbn [length]; now rewrite IH.
Qed.

Lemma split_on_aux_free sep s : forall cur,
  Forall (fun c => (c =? sep) = false) cur ->
  Forall (Forall (fun c => (c =? sep) = false)) (split_on_aux sep cur s).
Proof.
  induction s as [|c s IH]; intros cur Hcur; cbn [split_on_aux].
  - constructor; [now apply Forall_rev|constructor].
  - destruct (c =? sep) eqn:E.
    + constructor; [now apply Forall_rev|]. apply IH. constructor.
    + apply IH. now constructor.
Qed.

Lemma join_with_cons sep p rest :
  rest <> [] -> join_with sep (p :: rest) = p ++ sep :: join_with sep rest.
Proof. destruct rest; [contradiction|reflexivity]. Qed.

Lemma split_on_aux_not_nil sep cur s : split_on_aux sep cur s <> [].
Proof.
  intros H. apply (f_equal (@length _)) in H.
  rewrite split_on_aux_length in H. discriminate.
Qed.

(** [s.split(sep).join(sep)] is [s]. *)
Lemma join_split_aux sep s : forall cur,
  join_with sep (split_on_aux sep cur s) = rev cur ++ s.
Proof.
  induction s as [|c s IH]; intros cur; cbn [split_on_aux].
  - cbn. now rewrite app_nil_r.
  - destruct (c =? sep) eqn:E.
    + apply N.eqb_eq in E as ->.
      rewrite join_with_cons by apply split_on_aux_not_nil.
      now rewrite IH.
    + rewrite IH. cbn [rev]. now rewrite <- app_assoc.
Qed.

Lemma join_with_app sep l1 l2 :
  l1 <> [] -> l2 <> [] ->
  join_with sep (l1 ++ l2) = join_with sep l1 ++ sep :: join_with sep l2.
Proof.
  induction l1 as [|p l1 IH]; intros H1 H2; [contradiction|].
  destruct l1 as [|q l1].
  - cbn [app]. now rewrite join_with_cons.
  - change ((p :: q :: l1) ++ l2) with (p :: ((q :: l1) ++ l2)).
    rewrite join_with_cons by discriminate.
    rewrite IH by (discriminate || assumption).
    rewrite (join_with_cons sep p (q :: l1)) by discriminate.
    now rewrite <- app_assoc.
Qed.

Lemma count_lf_app a b : count_lf (a ++ b) = (count_lf a + count_lf b)%nat.
Proof. unfold count_lf. now rewrite List.filter_app, length_app. Qed.

Lemma count_lf_free p :
  Forall (fun c => (c =? LF) = false) p -> count_lf p = 0%nat.
Proof.
  unfold count_lf. induction 1 as [|c p Hc _ IH]; cbn [List.filter];
    [reflexivity|]. now rewrite Hc.
Qed.

Lemma count_lf_join pieces :
  Forall (Forall (fun c => (c =? LF) = false)) pieces ->
  count_lf (join_with LF pieces) = pred (length pieces).
Proof.
  induction 1 as [|p rest Hp Hrest IH]; [reflexivity|].
  destruct rest as [|q rest].
  - cbn. now apply count_lf_free.
  - rewrite join_with_cons by discriminate.
    rewrite count_lf_app, (count_lf_free p Hp).
    change (LF :: join_with LF (q :: rest))
      with ([LF] ++ join_with LF (q :: rest)).
    rewrite count_lf_app, IH. reflexivity.
Qed.

(** The diagnostic tail that the error message of a failed transfer gets:
    it is an end piece of the output the execa error carries, it holds at
    most four line feeds (five lines), and it is the whole output when the
    output has no more than that. *)
Theorem lastLines_is_tail_of_output (e : ExecaError) :
  let output :=
    default []
      (js_or (js_or (js_or (all_ e) (stderr e)) (stdout e)) (Some [])) in
  (exists before, output = before ++ lastLines e)
  /\ (count_lf (lastLines e) <= 4)%nat
  /\ ((count_lf output <= 4)%nat -> lastLines e = output).
Proof.
  cbv zeta. unfold lastLines, split_on.
  set (output := default [] _).
  pose proof (join_split_aux LF output []) as Hjoin. cbn [rev app] in Hjoin.
  pose proof (split_on_aux_length LF output []) as Hlen.
  pose proof (split_on_aux_free LF output [] ltac:(constructor)) as Hfree.
  change (length (List.filter (fun c => c =? LF) output))
    with (count_lf output) in Hlen.
  set (pieces := split_on_aux LF [] output) in *.
  change (split_on_aux LF [] output) with pieces in Hfree.
  unfold slice_last.
  set (k := (length pieces - 5)%nat).
  assert (Hskip_free : Forall (Forall (fun c => (c =? LF) = false))
                         (skipn k pieces)).
  { rewrite <- (firstn_skipn k pieces) in Hfree.
    now apply Forall_app in Hfree as [_ H]. }
  split; [|split].
  - destruct (firstn k pieces) as [|p front] eqn:Hfront.
    + exists []. rewrite <- Hjoin at 1.
      rewrite <- (firstn_skipn k pieces) at 1. now rewrite Hfront.
    + assert (Hne : skipn k pieces <> []).
      { intros H. apply (f_equal (@length _)) in H.
        rewrite length_skipn in H. cbn [length] in H.
        assert (length (firstn k pieces) = S (length front))
          by now rewrite Hfront.
        rewrite length_firstn in H0. subst k. lia. }
      exists (join_with LF (p :: front) ++ [LF]).
      rewrite <- Hjoin at 1. rewrite <- (firstn_skipn k pieces) at 1.
      rewrite Hfront, join_with_app by (discriminate || assumption).
      now rewrite <- app_assoc.
  - rewrite (count_lf_join _ Hskip_free), length_skipn. subst k. lia.
  - intros Hfew. assert (k = 0%nat) as -> by (subst k; lia).
    exact Hjoin.
Qed.

Example lastLines_sample :
  lastLines (sample_exit 1
               (Some (js "a" ++ [LF] ++ js "b" ++ [LF] ++ js "c" ++ [LF]
                      ++ js "d" ++ [LF] ++ js "e" ++ [LF] ++ js "f" ++ [LF])))
  = js "c" ++ [LF] ++ js "d" ++ [LF] ++ js "e" ++ [LF] ++ js "f" ++ [LF].
Proof. vm_compute. reflexivity. Qed.


(** ** The counters of the extraction *)

(** Over all data events of an extraction: the wrong-password flag is set
    exactly when one event holds the marker; the count of extracted files is
    the number of stdout events that hold "Extracting" (one per event,
    however many files the event names); and the total, once it is not
    zero, is not read again from later output. *)
Theorem extraction_counters (events : list GameService.OutputEvent) :
  let x := fold_left GameService.on_output events GameService.started in
  GameService.wrongPassword x = existsb mentions_wrong_password events
  /\ GameService.extractedFiles x
     = N.of_nat (length (List.filter mentions_extracting events))
  /\ (GameService.totalFiles x <> 0 ->
      forall more,
        GameService.totalFiles (fold_left GameService.on_output more x)
        = GameService.totalFiles x).
Proof.
  cbv zeta.
  assert (G : forall evs x,
             GameService.wrongPassword (fold_left GameService.on_output evs x)
             = GameService.wrongPassword x || existsb mentions_wrong_password evs
             /\ GameService.extractedFiles (fold_left GameService.on_output evs x)
                = GameService.extractedFiles x
                  + N.of_nat (length (List.filter mentions_extracting evs))
             /\ (GameService.totalFiles x <> 0 ->
                 GameService.totalFiles (fold_left GameService.on_output evs x)
                 = GameService.totalFiles x)).
  { induction evs as [|e evs IH]; intros x.
    - cbn. rewrite orb_false_r, N.add_0_r. auto.
    - cbn [fold_left existsb List.filter].
      destruct (IH (GameService.on_output x e)) as (Hw & He & Ht).
      rewrite Hw, He. split; [|split].
      + destruct e; cbn; now rewrite orb_assoc.
      + destruct e as [d|d];
          unfold GameService.on_output, GameService.on_stdout,
            GameService.on_stderr, mentions_extracting;
          cbn [GameService.extractedFiles].
        * destruct (includes _ d); cbn [length];
            rewrite ?Nat2N.inj_succ; lia.
        * cbn [length]. lia.
      + intros Hx.
        assert (Hs : GameService.totalFiles (GameService.on_output x e)
                     = GameService.totalFiles x).
        { destruct e as [d|d]; cbn; [|reflexivity].
          destruct (GameService.filesRegex d) as [g|]; [|reflexivity].
          apply N.eqb_neq in Hx. rewrite Hx, andb_false_r. reflexivity. }
        rewrite Ht; [exact Hs|]. now rewrite Hs. }
  destruct (G events GameService.started) as (Hw & He & _).
  split; [exact Hw|]. split; [exact He|].
  intros Hx more. now apply (G more).
Qed.


(** ** The game list *)

Lemma includes_single (k : char16) (s : jsstring) :
  includes [k] s = existsb (fun c => k =? c) s.
Proof.
  induction s as [|c s IH]; [reflexivity|].
  cbn [includes starts_with existsb]. rewrite IH.
  destruct s; now rewrite andb_true_r.
Qed.

Lemma includes_semicolon_nonempty (h : jsstring) :
  includes (js ";") h = true -> nonempty h = true.
Proof. destruct h; [discriminate|reflexivity]. Qed.

Lemma trim_app_space (b : jsstring) (c : char16) :
  is_space c = true -> trim (b ++ [c]) = trim b.
Proof.
  intros Hc. unfold trim. f_equal.
  induction b as [|x b IH].
  - cbn [app trim_start]. rewrite Hc. reflexivity.
  - cbn [app trim_start]. destruct (is_space x); [exact IH|].
    change (x :: b ++ [c]) with ((x :: b) ++ [c]).
    rewrite rev_unit. cbn [trim_start]. now rewrite Hc.
Qed.

Lemma upto_cr_trim a b : upto_cr a b -> trim a = trim b.
Proof.
  intros [->| ->]; [reflexivity|]. now apply trim_app_space.
Qed.

Lemma split_on_aux_app_char (sep c : char16) (s cur : jsstring) :
  (c =? sep) = false ->
  Forall2 (fun a b => a = b \/ a = b ++ [c])
    (split_on_aux sep cur (s ++ [c])) (split_on_aux sep cur s).
Proof.
  intros Hc. revert cur.
  induction s as [|x s IH]; intros cur.
  - cbn. rewrite Hc. cbn. constructor; [now right|constructor].
  - cbn [app split_on_aux]. destruct (x =? sep).
    + constructor; [now left|apply IH].
    + apply IH.
Qed.

Lemma split_on_aux_crlf (s cur : jsstring) :
  Forall2 upto_cr (split_on_aux LF cur (crlf s)) (split_on_aux LF cur s).
Proof.
  revert cur. induction s as [|x s IH]; intros cur.
  - cbn. constructor; [now left|constructor].
  - unfold crlf. cbn [flat_map]. fold (crlf s).
    cbn [split_on_aux]. destruct (x =? LF) eqn:Ex.
    + cbn [app split_on_aux].
      change (CR =? LF) with false. cbv iota.
      change (LF =? LF) with true. cbv iota.
      constructor; [right; reflexivity|apply IH].
    + cbn [app split_on_aux]. rewrite Ex. apply IH.
Qed.

Lemma header_columns_upto_cr a b :
  upto_cr a b -> GameCatalog.header_columns a = GameCatalog.header_columns b.
Proof.
  intros [->| ->]; [reflexivity|].
  unfold GameCatalog.header_columns, split_on.
  assert (H := split_on_aux_app_char 59 CR b [] eq_refl).
  induction H as [|x y l l' Hxy _ IH]; [reflexivity|].
  cbn [map]. f_equal; [|exact IH].
  destruct Hxy as [->| ->]; [reflexivity|]. now apply trim_app_space.
Qed.

Lemma includes_semicolon_upto_cr a b :
  upto_cr a b -> includes (js ";") a = includes (js ";") b.
Proof.
  intros [->| ->]; [reflexivity|].
  change (js ";") with [59]. rewrite !includes_single, existsb_app.
  cbn. now rewrite orb_false_r.
Qed.

Section GameListFacts.

Variable Number : Type.
Variable downloads_number : jsstring -> Number.
Variable path_join3 : jsstring -> jsstring -> jsstring -> jsstring.
Variable existsSync : jsstring -> bool.
Variable slug : jsstring -> jsstring.
Variable metaPath : jsstring.

Lemma parseGameLine_entry columns line g :
  GameCatalog.parseGameLine downloads_number path_join3 existsSync slug
    metaPath columns line = Some g ->
  GameCatalog.name g <> []
  /\ GameCatalog.packageName g <> []
  /\ GameCatalog.id g = GameCatalog.packageName g
  /\ GameCatalog.isInstalled g = false
  /\ (GameCatalog.thumbnailPath g = []
      \/ (GameCatalog.thumbnailPath g
          = path_join3 metaPath (js "thumbnails")
              (GameCatalog.packageName g ++ js ".jpg")
          /\ existsSync (GameCatalog.thumbnailPath g) = true)).
Proof.
  unfold GameCatalog.parseGameLine.
  destruct (_ <? _)%nat; [discriminate|].
  set (gameName := GameCatalog.column (indexOf (js "Game Name") columns) _ _).
  set (pkg := GameCatalog.column (indexOf (js "Package Name") columns) _ _).
  destruct (nonempty gameName) eqn:Eg; [|discriminate].
  destruct (nonempty pkg) eqn:Ep; [|discriminate].
  cbn [negb orb]. intros [= <-]. cbn.
  split; [now destruct gameName|].
  split; [now destruct pkg|].
  split; [reflexivity|]. split; [reflexivity|].
  destruct (existsSync _) eqn:Ee; [right|left; reflexivity].
  split; [reflexivity|exact Ee].
Qed.

(** For a list whose header line holds a semicolon, [parseGameList] replaces
    the games by the parsed ones: at most one per line after the header;
    each has a name and a package name that are not empty, the package name
    as its id, is not marked installed, and its thumbnail path is empty or
    is <metaPath>/thumbnails/<package name>.jpg and exists. The id made from
    the game name is never used. *)
Theorem parseGameList_entries (data : jsstring)
    (games : list (GameCatalog.GameInfo Number)) :
  includes (js ";") (hd [] (split_on LF data)) = true ->
  let parsed :=
    GameCatalog.parseGameList downloads_number path_join3 existsSync slug
      metaPath data games in
  (length parsed <= length (split_on LF data) - 1)%nat
  /\ List.Forall
       (fun g =>
          GameCatalog.name g <> []
          /\ GameCatalog.packageName g <> []
          /\ GameCatalog.id g = GameCatalog.packageName g
          /\ GameCatalog.isInstalled g = false
          /\ (GameCatalog.thumbnailPath g = []
              \/ (GameCatalog.thumbnailPath g
                  = path_join3 metaPath (js "thumbnails")
                      (GameCatalog.packageName g ++ js ".jpg")
                  /\ existsSync (GameCatalog.thumbnailPath g) = true)))
       parsed.
Proof.
  intros Hh. cbv zeta. unfold GameCatalog.parseGameList.
  destruct (split_on LF data) as [|h rest]; [discriminate|].
  cbn [hd] in Hh. rewrite Hh, (includes_semicolon_nonempty _ Hh).
  cbn [negb orb].
  match goal with
  | |- (length ?p <= _)%nat /\ List.Forall ?P _ =>
      enough (length p <= length rest /\ List.Forall P p)%nat
        by (cbn [length]; split; [lia|tauto])
  end.
  induction rest as [|l rest [IHl IHf]].
  - split; [cbn; lia|constructor].
  - cbn [omap list_omap length].
    destruct (nonempty (trim l)).
    + destruct (GameCatalog.parseGameLine _ _ _ _ _ _ (trim l)) as [g|] eqn:Eg.
      * split; [cbn [length]; lia|].
        constructor; [|exact IHf].
        now apply (parseGameLine_entry _ _ _ Eg).
      * split; [lia|exact IHf].
    + split; [lia|exact IHf].
Qed.

(** A game list with Windows line ends gives the same games as the list
    with plain line feeds: the carriage returns are trimmed off the header's
    last column and off every line. *)
Theorem parseGameList_crlf (data : jsstring)
    (games : list (GameCatalog.GameInfo Number)) :
  GameCatalog.parseGameList downloads_number path_join3 existsSync slug
    metaPath (crlf data) games
  = GameCatalog.parseGameList downloads_number path_join3 existsSync slug
      metaPath data games.
Proof.
  unfold GameCatalog.parseGameList, split_on.
  assert (H := split_on_aux_crlf data []).
  destruct H as [|h' h rest' rest Hh Hrest]; [reflexivity|].
  assert (Hne : forall x, negb (nonempty x) || negb (includes (js ";") x)
                          = negb (includes (js ";") x)).
  { intros [|c x]; reflexivity. }
  rewrite !Hne, (includes_semicolon_upto_cr _ _ Hh),
    (header_columns_upto_cr _ _ Hh).
  destruct (includes (js ";") h); [|reflexivity]. cbn [negb].
  induction Hrest as [|l' l rest' rest Hl _ IH]; [reflexivity|].
  cbn [omap list_omap]. rewrite (upto_cr_trim _ _ Hl), IH. reflexivity.
Qed.

End GameListFacts.

Lemma parseGameList_entries_witness :
  let data :=
    js "Game Name;Release Name;Package Name;Version Code;Last Updated;Size (MB);Downloads"
    ++ [LF]
    ++ js "Beat Saber;Beat Saber v1.37;com.beatgames.beatsaber;1337;2025-01-01;812;99.5"
    ++ [LF] in
  let join3 := fun a b c : jsstring => a ++ js "/" ++ b ++ js "/" ++ c in
  let parsed :=
    GameCatalog.parseGameList (fun s : jsstring => s) join3 (fun _ => true)
      (fun s => s) (js "/data/.meta") data [] in
  (length parsed <= length (split_on LF data) - 1)%nat
  /\ List.Forall
       (fun g =>
          GameCatalog.name g <> []
          /\ GameCatalog.packageName g <> []
          /\ GameCatalog.id g = GameCatalog.packageName g
          /\ GameCatalog.isInstalled g = false
          /\ (GameCatalog.thumbnailPath g = []
              \/ (GameCatalog.thumbnailPath g
                  = join3 (js "/data/.meta") (js "thumbnails")
                      (GameCatalog.packageName g ++ js ".jpg")
                  /\ (fun _ : jsstring => true) (GameCatalog.thumbnailPath g)
                     = true)))
       parsed.
Proof.
  apply (parseGameList_entries jsstring (fun s : jsstring => s)
           (fun a b c : jsstring => a ++ js "/" ++ b ++ js "/" ++ c)
           (fun _ => true) (fun s => s) (js "/data/.meta")).
  vm_compute. reflexivity.
Defined.

(** A list of one game, with its thumbnail in place. *)
Example parseGameList_sample :
  map (fun g => (GameCatalog.name g, GameCatalog.packageName g,
                 GameCatalog.thumbnailPath g))
    (GameCatalog.parseGameList (fun s : jsstring => s)
       (fun a b c : jsstring => a ++ js "/" ++ b ++ js "/" ++ c)
       (fun _ => true) (fun s => s) (js "/data/.meta")
       (js "Game Name;Release Name;Package Name;Version Code;Last Updated;Size (MB);Downloads"
        ++ [LF]
        ++ js "Beat Saber;Beat Saber v1.37;com.beatgames.beatsaber;1337;2025-01-01;812;99.5"
        ++ [LF]) [])
  = [(js "Beat Saber", js "com.beatgames.beatsaber",
      js "/data/.meta/thumbnails/com.beatgames.beatsaber.jpg")].
Proof. vm_compute. reflexivity. Qed.


(** ** The flags of the two services *)

(** A call of [GameService.initialize] that goes past its guards. When
    [fs.mkdir] rejects, the call is rejected with [isInitializing] left set,
    and every later call, forced or not, returns 'INITIALIZING' at once and
    changes nothing. When the body throws, the call returns 'ERROR' with
    [isInitialized] set, and every later call that is not forced returns
    'INITIALIZED' at once, without another attempt. *)
Theorem game_initialize_after_failure (force : bool) (f : Flags)
    (t : Thrown) :
  isInitializing f = false ->
  force = true \/ isInitialized f = false ->
  (let after := game_initialize force (MkdirRejects t) f in
   snd after = inl t
   /\ forall force' how',
        game_initialize force' how' (fst after)
        = (fst after, inr INITIALIZING))
  /\ (let after := game_initialize force BodyThrows f in
      snd after = inr ERROR
      /\ forall how',
           game_initialize false how' (fst after)
           = (fst after, inr INITIALIZED)).
Proof.
  intros Hi Hf. unfold game_initialize, initialize_enter. rewrite Hi.
  assert (Hg : negb force && isInitialized f = false).
  { destruct Hf as [->| ->]; [reflexivity|apply andb_false_r]. }
  rewrite Hg. cbn. split; split; try reflexivity; intros; reflexivity.
Qed.

Lemma game_initialize_after_failure_witness :
  let f := {| isInitializing := false; isInitialized := false |} in
  let t := ThrownError (js "EACCES: permission denied, mkdir") in
  (let after := game_initialize false (MkdirRejects t) f in
   snd after = inl t
   /\ forall force' how',
        game_initialize force' how' (fst after)
        = (fst after, inr INITIALIZING))
  /\ (let after := game_initialize false BodyThrows f in
      snd after = inr ERROR
      /\ forall how',
           game_initialize false how' (fst after)
           = (fst after, inr INITIALIZED)).
Proof.
  apply (game_initialize_after_failure false
           {| isInitializing := false; isInitialized := false |}
           (ThrownError (js "EACCES: permission denied, mkdir"))).
  - reflexivity.
  - right. reflexivity.
Defined.

Lemma initialize_leave_not_ready (status : Dependencies.DependencyStatus)
    (f : Flags) :
  Dependencies.ready (Dependencies.sevenZip status)
  && Dependencies.ready (Dependencies.rclone status)
  && Dependencies.ready (Dependencies.adb status) = false ->
  exists msg,
    Dependencies.initialize_leave status f
    = ({| isInitializing := false; isInitialized := true |}, inl msg)
    /\ starts_with (js "Dependency setup failed. Missing or failed: ") msg
       = true.
Proof.
  intros Hr. unfold Dependencies.initialize_leave.
  assert (Hn : negb (Dependencies.ready (Dependencies.sevenZip status))
               || negb (Dependencies.ready (Dependencies.rclone status))
               || negb (Dependencies.ready (Dependencies.adb status)) = true).
  { destruct (Dependencies.ready (Dependencies.sevenZip status)),
      (Dependencies.ready (Dependencies.rclone status)),
      (Dependencies.ready (Dependencies.adb status));
      try reflexivity; discriminate. }
  rewrite Hn. cbv zeta. eexists. split; [reflexivity|].
  destruct (truthy (Dependencies.error (Dependencies.adb status)));
    destruct (truthy (Dependencies.error (Dependencies.rclone status)));
    destruct (truthy (Dependencies.error (Dependencies.sevenZip status)));
    rewrite <- ?app_assoc; reflexivity.
Qed.

(** A call of [DependencyService.initialize] that goes past its guards and
    finds a dependency not ready is rejected with a message that starts with
    "Dependency setup failed. Missing or failed: ", but only after
    [isInitialized] has been set: every later call that is not forced
    returns 'INITIALIZED' at once, without checking anything again. When
    the directory cannot be made, or [checkBundled7zip] throws,
    [isInitializing] stays set and every later call returns
    'INITIALIZING'. *)
Theorem dependency_initialize_after_failure (force : bool) (f : Flags)
    (status : Dependencies.DependencyStatus) (t : Thrown) :
  isInitializing f = false ->
  force = true \/ isInitialized f = false ->
  Dependencies.ready (Dependencies.sevenZip status)
  && Dependencies.ready (Dependencies.rclone status)
  && Dependencies.ready (Dependencies.adb status) = false ->
  (let after := dependency_initialize force (ChecksReturn status) f in
   (exists msg,
      snd after = inl (ThrownError msg)
      /\ starts_with (js "Dependency setup failed. Missing or failed: ") msg
         = true)
   /\ forall how',
        dependency_initialize false how' (fst after)
        = (fst after, inr INITIALIZED))
  /\ (let after := dependency_initialize force (SetupThrows t) f in
      snd after = inl t
      /\ forall force' how',
           dependency_initialize force' how' (fst after)
           = (fst after, inr INITIALIZING)).
Proof.
  intros Hi Hf Hr. unfold dependency_initialize, initialize_enter. rewrite Hi.
  assert (Hg : negb force && isInitialized f = false).
  { destruct Hf as [->| ->]; [reflexivity|apply andb_false_r]. }
  rewrite Hg.
  destruct (initialize_leave_not_ready status
              {| isInitializing := true; isInitialized := isInitialized f |}
              Hr) as (msg & -> & Hmsg).
  cbn [fst snd]. split; split.
  - now exists msg.
  - intros how'. reflexivity.
  - reflexivity.
  - intros force' how'. reflexivity.
Qed.

Lemma dependency_initialize_after_failure_witness :
  let f := {| isInitializing := false; isInitialized := false |} in
  let ok := {| Dependencies.ready := true;
               Dependencies.path := Some (js "/bin/tool");
               Dependencies.error := None |} in
  let status :=
    {| Dependencies.sevenZip := ok;
       Dependencies.rclone :=
         {| Dependencies.ready := false;
            Dependencies.path := Some (js "/bin/rclone");
            Dependencies.error := Some (js "Could not find rclone download URL.") |};
       Dependencies.adb := ok |} in
  let t := ThrownError (js "Unsupported platform for bundled 7zip: freebsd") in
  (let after := dependency_initialize false (ChecksReturn status) f in
   (exists msg,
      snd after = inl (ThrownError msg)
      /\ starts_with (js "Dependency setup failed. Missing or failed: ") msg
         = true)
   /\ forall how',
        dependency_initialize false how' (fst after)
        = (fst after, inr INITIALIZED))
  /\ (let after := dependency_initialize false (SetupThrows t) f in
      snd after = inl t
      /\ forall force' how',
           dependency_initialize force' how' (fst after)
           = (fst after, inr INITIALIZING)).
Proof.
  apply (dependency_initialize_after_failure false
           {| isInitializing := false; isInitialized := false |}
           {| Dependencies.sevenZip :=
                {| Dependencies.ready := true;
                   Dependencies.path := Some (js "/bin/tool");
                   Dependencies.error := None |};
              Dependencies.rclone :=
                {| Dependencies.ready := false;
                   Dependencies.path := Some (js "/bin/rclone");
                   Dependencies.error :=
                     Some (js "Could not find rclone download URL.") |};
              Dependencies.adb :=
                {| Dependencies.ready := true;
                   Dependencies.path := Some (js "/bin/tool");
                   Dependencies.error := None |} |}
           (ThrownError (js "Unsupported platform for bundled 7zip: freebsd"))).
  - reflexivity.
  - right. reflexivity.
  - reflexivity.
Defined.

(** The message of a rejection with rclone and adb missing. *)
Example dependency_initialize_sample :
  snd (dependency_initialize false
         (ChecksReturn
            {| Dependencies.sevenZip :=
                 {| Dependencies.ready := true;
                    Dependencies.path := Some (js "/bin/tool");
                    Dependencies.error := None |};
               Dependencies.rclone :=
                 {| Dependencies.ready := false;
                    Dependencies.path := Some (js "/bin/rclone");
                    Dependencies.error :=
                      Some (js "Could not find rclone download URL.") |};
               Dependencies.adb :=
                 {| Dependencies.ready := false;
                    Dependencies.path := None;
                    Dependencies.error := None |} |})
         {| isInitializing := false; isInitialized := false |})
  = inl (ThrownError (js "Dependency setup failed. Missing or failed: rclone, adb. Rclone Error: Could not find rclone download URL.")).
Proof. vm_compute. reflexivity. Qed.

(** ** The bundled 7zip *)

Section Bundled7zipFacts.

Variable path_join3 : jsstring -> jsstring -> jsstring -> jsstring.
Variable path_join : jsstring -> jsstring -> jsstring.
Variable existsSync : jsstring -> bool.
Variable platform : Dependencies.Platform.
Variable isPackaged : bool.
Variable resourcesBinDir : jsstring.
Variable binDir : jsstring.

(** When [checkBundled7zip] returns, the entry of 7zip is ready exactly when
    it carries no error. When it is ready, the bundled binary exists, the
    path is the one in [binDir] under the binary's own name, that file was
    there already or the copy went through, and on a platform other than
    win32 the change of mode went through. A copy is made only from the
    bundled binary and only to a target that does not exist yet; on win32 no
    mode is changed. It throws exactly on a platform other than win32,
    linux and darwin. *)
Theorem checkBundled7zip_outcome (copy chmod : Dependencies.FsResult)
    (s : Dependencies.DependencyInfo) :
  let run :=
    Dependencies.checkBundled7zip path_join3 path_join existsSync platform
      isPackaged resourcesBinDir binDir copy chmod s in
  let source :=
    Dependencies.get7zPath path_join3 platform isPackaged resourcesBinDir in
  (run = None <-> exists n, platform = Dependencies.OtherPlatform n)
  /\ forall s' calls, run = Some (s', calls) ->
       (Dependencies.ready s' = true <-> Dependencies.error s' = None)
       /\ (Dependencies.ready s' = true ->
           exists src,
             source = Some src
             /\ existsSync src = true
             /\ Dependencies.path s'
                = Some (path_join binDir
                          (Dependencies.after_last_separator [] src))
             /\ (existsSync
                   (path_join binDir
                      (Dependencies.after_last_separator [] src)) = true
                 \/ copy = Dependencies.FsOk)
             /\ (platform = Dependencies.Win32
                 \/ chmod = Dependencies.FsOk))
       /\ (forall from to,
             In (Dependencies.CopyFile from to) calls ->
             source = Some from /\ existsSync from = true
             /\ existsSync to = false)
       /\ (platform = Dependencies.Win32 ->
           forall to, ~ In (Dependencies.Chmod to) calls).
Proof.
  cbv zeta. split.
  - unfold Dependencies.checkBundled7zip, Dependencies.get7zPath.
    destruct platform as [| | |n]; cbv iota beta; split;
      try (intros [n' [=]]); try (intros _; now exists n);
      try reflexivity;
      intros H; exfalso; revert H;
      repeat match goal with
             | |- context [if ?c then _ else _] => destruct c
             | |- context [match ?c with Dependencies.FsOk => _ | _ => _ end] =>
                 destruct c
             end; discriminate.
  - intros s' calls. unfold Dependencies.checkBundled7zip.
    destruct (Dependencies.get7zPath _ _ _ _) as [src|] eqn:Esrc;
      [|discriminate].
    destruct (nonempty src); cbn [negb];
      [|intros [= <- <-]; cbn; repeat split; try discriminate; tauto].
    destruct (existsSync src) eqn:Es; cbn [negb];
      [|intros [= <- <-]; cbn; repeat split; try discriminate; tauto].
    destruct (nonempty (Dependencies.after_last_separator [] src));
      cbn [negb];
      [|intros [= <- <-]; cbn; repeat split; try discriminate; tauto].
    set (target := path_join binDir _).
    destruct (existsSync target) eqn:Et.
    + destruct platform as [| | |n] eqn:Ep; destruct chmod;
        intros [= <- <-]; cbn;
        (split; [split; (reflexivity || discriminate)|]);
        (split; [intros Hr; try discriminate Hr; exists src;
                 repeat split; auto|]);
        (split; [intros from to Hin; cbn in Hin; intuition discriminate|]);
        intros Hw; try discriminate Hw;
        intros to Hin; cbn in Hin; intuition discriminate.
    + destruct copy;
        [destruct platform as [| | |n] eqn:Ep; destruct chmod|..];
        intros [= <- <-]; cbn;
        (split; [split; (reflexivity || discriminate)|]);
        (split; [intros Hr; try discriminate Hr; exists src;
                 repeat split; auto|]);
        (split; [intros from to Hin; cbn in Hin;
                 destruct Hin as [[= <- <-]|Hin];
                 [repeat split; assumption
                 |cbn in Hin; intuition discriminate]|]);
        intros Hw; try discriminate Hw;
        intros to Hin; cbn in Hin; intuition discriminate.
Qed.

End Bundled7zipFacts.

(** On linux, unpackaged, with the bundled binary in place and no copy in
    [binDir] yet: one copy, one change of mode, ready. *)
Example checkBundled7zip_sample :
  let join3 := fun a b c : jsstring => a ++ js "/" ++ b ++ js "/" ++ c in
  let join2 := fun a b : jsstring => a ++ js "/" ++ b in
  Dependencies.checkBundled7zip join3 join2
    (fun p => bool_decide (p = js "/res/bin/linux/7zzs"))
    Dependencies.Linux false (js "/res/bin") (js "/user/bin")
    Dependencies.FsOk Dependencies.FsOk
    {| Dependencies.ready := false; Dependencies.path := None;
       Dependencies.error := None |}
  = Some ({| Dependencies.ready := true;
             Dependencies.path := Some (js "/user/bin/7zzs");
             Dependencies.error := None |},
          [Dependencies.CopyFile (js "/res/bin/linux/7zzs")
             (js "/user/bin/7zzs");
           Dependencies.Chmod (js "/user/bin/7zzs")]).
Proof. vm_compute. reflexivity. Qed.

(** ** The rclone archive *)

Lemma find_first {A} (p : A -> bool) (l : list A) (x : A) :
  List.find p l = Some x <->
  exists before after,
    l = before ++ x :: after
    /\ List.Forall (fun a => p a = false) before
    /\ p x = true.
Proof.
  split.
  - induction l as [|a l IH]; [discriminate|].
    cbn [List.find]. destruct (p a) eqn:Ea.
    + intros [= ->]. exists [], l. split; [reflexivity|].
      split; [constructor|exact Ea].
    + intros H. destruct (IH H) as (before & after & -> & Hb & Hx).
      exists (a :: before), after. split; [reflexivity|].
      split; [constructor; assumption|exact Hx].
  - intros (before & after & -> & Hb & Hx).
    induction Hb as [|a before Ha _ IH]; cbn [app List.find].
    + now rewrite Hx.
    + now rewrite Ha.
Qed.

Lemma getRcloneDownloadUrl_find (platform : Dependencies.Platform)
    (arch : Dependencies.Arch) (assets : list Dependencies.GitHubAsset) :
  Dependencies.getRcloneDownloadUrl platform arch (Some (Some assets))
  = match rclone_asset_pattern platform arch with
    | Some pattern =>
        match List.find
                (fun a => ends_with pattern (Dependencies.asset_name a))
                assets with
        | Some targetAsset =>
            if truthy (Dependencies.browser_download_url targetAsset)
            then Dependencies.browser_download_url targetAsset
            else None
        | None => None
        end
    | None => None
    end.
Proof. destruct platform, arch; reflexivity. Qed.

(** [getRcloneDownloadUrl] gives a URL exactly when the request returned a
    list of assets, platform and architecture are supported, and the first
    asset whose name ends with -<platform>-<arch>.zip has a URL that is not
    empty; the URL is that asset's. A later asset of the same ending is
    never looked at, also when the first one has no URL. *)
Theorem getRcloneDownloadUrl_first_match (platform : Dependencies.Platform)
    (arch : Dependencies.Arch)
    (response : option (option (list Dependencies.GitHubAsset)))
    (url : jsstring) :
  Dependencies.getRcloneDownloadUrl platform arch response = Some url <->
  exists pattern before asset after,
    rclone_asset_pattern platform arch = Some pattern
    /\ response = Some (Some (before ++ asset :: after))
    /\ List.Forall
         (fun a => ends_with pattern (Dependencies.asset_name a) = false)
         before
    /\ ends_with pattern (Dependencies.asset_name asset) = true
    /\ Dependencies.browser_download_url asset = Some url
    /\ url <> [].
Proof.
  assert (Hurl : forall (o : option jsstring),
             (if truthy o then o else None) = Some url
             <-> o = Some url /\ url <> []).
  { intros [[|c u]|]; cbn; split;
      try discriminate; try (intros [[=] _]; fail).
    - intros [[= <-] H]. now elim H.
    - intros [= <-]. split; [reflexivity|discriminate].
    - intros [[= <-] _]. reflexivity. }
  destruct response as [[assets|]|].
  2,3: split; [discriminate|];
       intros (? & ? & ? & ? & _ & [=] & _).
  rewrite getRcloneDownloadUrl_find.
  destruct (rclone_asset_pattern platform arch) as [pat|].
  2: { split; [discriminate|]. intros (? & ? & ? & ? & [=] & _). }
  split.
  - destruct (List.find _ assets) as [t|] eqn:Ef; [|discriminate].
    intros H. apply Hurl in H. destruct H as [Hu Hne].
    apply find_first in Ef. destruct Ef as (before & after & -> & Hb & Hx).
    exists pat, before, t, after. auto 10.
  - intros (pat' & before & asset & after & [= <-] & [= ->] & Hb & Hx & Hu & Hne).
    assert (Hf : List.find
                   (fun a => ends_with pat (Dependencies.asset_name a))
                   (before ++ asset :: after) = Some asset).
    { apply find_first. exists before, after. auto. }
    rewrite Hf. apply Hurl. auto.
Qed.

(** The first asset of the ending is taken, and when it has no URL none
    is returned although a later asset has one. *)
Example getRcloneDownloadUrl_sample :
  let asset := fun n u =>
    {| Dependencies.asset_name := n;
       Dependencies.browser_download_url := u |} in
  Dependencies.getRcloneDownloadUrl Dependencies.Linux Dependencies.X64
    (Some (Some [asset (js "rclone-v1.69.0-linux-386.zip")
                   (Some (js "https://a"));
                 asset (js "rclone-v1.69.0-linux-amd64.zip")
                   (Some (js "https://b"));
                 asset (js "rclone-current-linux-amd64.zip")
                   (Some (js "https://c"))]))
  = Some (js "https://b")
  /\ Dependencies.getRcloneDownloadUrl Dependencies.Linux Dependencies.X64
       (Some (Some [asset (js "rclone-v1.69.0-linux-amd64.zip") None;
                    asset (js "rclone-current-linux-amd64.zip")
                      (Some (js "https://c"))]))
     = None.
Proof. vm_compute. split; reflexivity. Qed.


(** ** The handler of 'initialize-dependencies' *)

Lemma progress_steps_only_progress (calls : list (ProgressReport * bool))
    (step : HandlerStep) :
  In step (progress_steps calls) ->
  exists report, step = Sends (DependencyProgress report).
Proof.
  unfold progress_steps. intros H. apply in_flat_map in H.
  destruct H as ([r w] & _ & H). cbn [fst snd] in H.
  destruct w; cbn in H; [|destruct H].
  destruct H as [<-|[]]. now exists r.
Qed.

(** With the window open and a dependency missing, a first request sends
    the progress messages of the checks and then the error message of the
    dependency service, and starts no other service. A second request,
    however the checks would go, does not run them: it sends no progress
    message, reports 'dependency-setup-complete' and goes on to initialize
    the adb service. *)
Theorem second_request_reports_complete
    (status : Dependencies.DependencyStatus)
    (reports reports' : list (ProgressReport * bool))
    (adb adb' : option Thrown) (how_game how_game' : GameInit)
    (downloads downloads' : option Thrown) (how_dep' : DependencyInit)
    (later later' : bool) (fd fg : Flags) :
  isInitializing fd = false ->
  isInitialized fd = false ->
  Dependencies.ready (Dependencies.sevenZip status)
  && Dependencies.ready (Dependencies.rclone status)
  && Dependencies.ready (Dependencies.adb status) = false ->
  let first :=
    on_initialize_dependencies (ChecksReturn status) reports adb how_game
      downloads true later (fd, fg) in
  let second :=
    on_initialize_dependencies how_dep' reports' adb' how_game' downloads'
      true later' (fst first) in
  (exists msg,
     snd first = progress_steps reports ++ [Sends (DependencySetupError msg)]
     /\ starts_with (js "Dependency setup failed. Missing or failed: ") msg
        = true)
  /\ snd (fst first) = fg
  /\ exists rest,
       snd second = Sends DependencySetupComplete :: InitializesAdb :: rest.
Proof.
  intros Hi Hd Hr. cbv zeta.
  assert (Hfirst : exists msg,
             on_initialize_dependencies (ChecksReturn status) reports adb
               how_game downloads true later (fd, fg)
             = ({| isInitializing := false; isInitialized := true |}, fg,
                progress_steps reports ++ [Sends (DependencySetupError msg)])
             /\ starts_with
                  (js "Dependency setup failed. Missing or failed: ") msg
                = true).
  { unfold on_initialize_dependencies, progress_calls, dependency_initialize,
      initialize_enter.
    rewrite Hi, Hd. cbn [negb andb].
    destruct (initialize_leave_not_ready status
                {| isInitializing := true; isInitialized := false |} Hr)
      as (msg & -> & Hmsg).
    exists msg. split; [reflexivity|exact Hmsg]. }
  destruct Hfirst as (msg & -> & Hmsg). cbn [fst snd].
  split; [now exists msg|]. split; [reflexivity|].
  unfold on_initialize_dependencies, progress_calls, dependency_initialize,
    initialize_enter.
  cbn [isInitializing isInitialized negb andb progress_steps flat_map app].
  unfold initialize_dependent_services.
  destruct adb' as [t|]; [eexists; reflexivity|].
  destruct (game_initialize false how_game' fg) as [fg' [t|[| |]]];
    eexists; reflexivity.
Qed.

Lemma second_request_reports_complete_witness :
  let fresh := {| isInitializing := false; isInitialized := false |} in
  let status :=
    {| Dependencies.sevenZip :=
         {| Dependencies.ready := true;
            Dependencies.path := Some (js "/user/bin/7zzs");
            Dependencies.error := None |};
       Dependencies.rclone :=
         {| Dependencies.ready := false;
            Dependencies.path := Some (js "/user/bin/rclone");
            Dependencies.error :=
              Some (js "Could not find suitable rclone download URL.") |};
       Dependencies.adb :=
         {| Dependencies.ready := false;
            Dependencies.path := Some (js "/user/bin/adb");
            Dependencies.error := Some (js "Network Error") |} |} in
  let reports :=
    [({| report_name := js "rclone"; report_percentage := 0 |}, true);
     ({| report_name := js "adb"; report_percentage := 0 |}, true)] in
  let first :=
    on_initialize_dependencies (ChecksReturn status) reports None BodyReturns
      None true true (fresh, fresh) in
  let second :=
    on_initialize_dependencies (ChecksReturn status) reports None BodyReturns
      None true true (fst first) in
  (exists msg,
     snd first = progress_steps reports ++ [Sends (DependencySetupError msg)]
     /\ starts_with (js "Dependency setup failed. Missing or failed: ") msg
        = true)
  /\ snd (fst first) = fresh
  /\ exists rest,
       snd second = Sends DependencySetupComplete :: InitializesAdb :: rest.
Proof.
  apply (second_request_reports_complete
           {| Dependencies.sevenZip :=
                {| Dependencies.ready := true;
                   Dependencies.path := Some (js "/user/bin/7zzs");
                   Dependencies.error := None |};
              Dependencies.rclone :=
                {| Dependencies.ready := false;
                   Dependencies.path := Some (js "/user/bin/rclone");
                   Dependencies.error :=
                     Some (js "Could not find suitable rclone download URL.") |};
              Dependencies.adb :=
                {| Dependencies.ready := false;
                   Dependencies.path := Some (js "/user/bin/adb");
                   Dependencies.error := Some (js "Network Error") |} |}
           [({| report_name := js "rclone"; report_percentage := 0 |}, true);
            ({| report_name := js "adb"; report_percentage := 0 |}, true)]
           [({| report_name := js "rclone"; report_percentage := 0 |}, true);
            ({| report_name := js "adb"; report_percentage := 0 |}, true)]
           None None BodyReturns BodyReturns None None
           (ChecksReturn
              {| Dependencies.sevenZip :=
                   {| Dependencies.ready := true;
                      Dependencies.path := Some (js "/user/bin/7zzs");
                      Dependencies.error := None |};
                 Dependencies.rclone :=
                   {| Dependencies.ready := false;
                      Dependencies.path := Some (js "/user/bin/rclone");
                      Dependencies.error :=
                        Some (js "Could not find suitable rclone download URL.") |};
                 Dependencies.adb :=
                   {| Dependencies.ready := false;
                      Dependencies.path := Some (js "/user/bin/adb");
                      Dependencies.error := Some (js "Network Error") |} |})
           true true
           {| isInitializing := false; isInitialized := false |}
           {| isInitializing := false; isInitialized := false |}).
  - reflexivity.
  - reflexivity.
  - reflexivity.
Defined.

(** Without network, rclone and adb missing: the first request sends the
    two progress messages of the checks and the error; the second sends
    'dependency-setup-complete' at once and initializes the three
    services. *)
Example initialize_dependencies_sample :
  let fresh := {| isInitializing := false; isInitialized := false |} in
  let status :=
    {| Dependencies.sevenZip :=
         {| Dependencies.ready := true;
            Dependencies.path := Some (js "/user/bin/7zzs");
            Dependencies.error := None |};
       Dependencies.rclone :=
         {| Dependencies.ready := false;
            Dependencies.path := Some (js "/user/bin/rclone");
            Dependencies.error :=
              Some (js "Could not find suitable rclone download URL.") |};
       Dependencies.adb :=
         {| Dependencies.ready := false;
            Dependencies.path := Some (js "/user/bin/adb");
            Dependencies.error := Some (js "Network Error") |} |} in
  let rclone0 := {| report_name := js "rclone"; report_percentage := 0 |} in
  let adb0 := {| report_name := js "adb"; report_percentage := 0 |} in
  let first :=
    on_initialize_dependencies (ChecksReturn status)
      [(rclone0, true); (adb0, true)] None BodyReturns None true true
      (fresh, fresh) in
  let second :=
    on_initialize_dependencies (ChecksReturn status)
      [(rclone0, true); (adb0, true)] None BodyReturns None true true
      (fst first) in
  snd first
  = [Sends (DependencyProgress rclone0); Sends (DependencyProgress adb0);
     Sends (DependencySetupError
              (js "Dependency setup failed. Missing or failed: rclone, adb. Rclone Error: Could not find suitable rclone download URL.ADB Error: Network Error"))]
  /\ snd second
     = [Sends DependencySetupComplete; InitializesAdb; InitializesGames;
        InitializesDownloads].
Proof. vm_compute. auto. Qed.

Lemma service_init_failed_starts_nothing (b : bool) (t : Thrown) :
  ~ In InitializesDownloads (service_init_failed b t).
Proof. destruct b; cbn; intuition discriminate. Qed.

Lemma service_init_failed_other_message (b : bool) (t : Thrown)
    (m : jsstring) :
  ~ In (Sends (DependencySetupError m)) (service_init_failed b t).
Proof. destruct b; cbn; intuition discriminate. Qed.

Lemma dependent_services_downloads (adb : option Thrown)
    (how_game : GameInit) (downloads : option Thrown) (windowLater : bool)
    (fg : Flags) :
  In InitializesDownloads
    (snd (initialize_dependent_services adb how_game downloads windowLater
            fg))
  <-> adb = None
      /\ snd (game_initialize false how_game fg) = inr INITIALIZED.
Proof.
  unfold initialize_dependent_services.
  destruct adb as [t|].
  { cbn [snd app In]. split; [|intros [Ha _]; discriminate Ha].
    intros [H|H]; [discriminate H|].
    now apply service_init_failed_starts_nothing in H. }
  destruct (game_initialize false how_game fg) as [fg' [t|g]];
    cbn [fst snd].
  { cbn [snd app In]. split; [|intros [_ Hg]; discriminate Hg].
    intros [H|[H|H]]; try discriminate H.
    now apply service_init_failed_starts_nothing in H. }
  destruct g; cbn [snd app In].
  - split; [|intros [_ Hg]; discriminate Hg].
    intros [H|[H|H]]; try discriminate H. destruct H.
  - split; auto.
  - split; [|intros [_ Hg]; discriminate Hg].
    intros [H|[H|H]]; try discriminate H. destruct H.
Qed.

Lemma dependent_services_messages (adb : option Thrown)
    (how_game : GameInit) (downloads : option Thrown) (windowLater : bool)
    (fg : Flags) (m : jsstring) :
  ~ In (Sends (DependencySetupError m))
      (snd (initialize_dependent_services adb how_game downloads
              windowLater fg)).
Proof.
  unfold initialize_dependent_services.
  destruct adb as [t|].
  { cbn [snd app In]. intros [H|H]; [discriminate H|].
    now apply service_init_failed_other_message in H. }
  destruct (game_initialize false how_game fg) as [fg' [t|g]];
    cbn [fst snd].
  { cbn [snd app In]. intros [H|[H|H]]; try discriminate H.
    now apply service_init_failed_other_message in H. }
  destruct g; cbn [snd app In].
  - intros [H|[H|H]]; try discriminate H. destruct H.
  - intros [H|[H|[H|H]]]; try discriminate H.
    destruct downloads as [t|]; [|destruct H].
    now apply service_init_failed_other_message in H.
  - intros [H|[H|H]]; try discriminate H. destruct H.
Qed.

(** The handler initializes the download service exactly when the
    dependency service returned a status other than 'INITIALIZING', the
    window is open, the adb service did not throw and the game service
    returned 'INITIALIZED'; and when it sends the error of the dependency
    setup, that message is the last thing it does, and all it did before
    was to send the progress messages of the checks. *)
Theorem downloads_initialized_exactly_when (how_dep : DependencyInit)
    (reports : list (ProgressReport * bool))
    (adb : option Thrown) (how_game : GameInit) (downloads : option Thrown)
    (window windowLater : bool) (fd fg : Flags) :
  let steps :=
    snd (on_initialize_dependencies how_dep reports adb how_game downloads
           window windowLater (fd, fg)) in
  (In InitializesDownloads steps <->
   (exists s, snd (dependency_initialize false how_dep fd) = inr s
              /\ s <> INITIALIZING)
   /\ window = true /\ adb = None
   /\ snd (game_initialize false how_game fg) = inr INITIALIZED)
  /\ forall msg,
       In (Sends (DependencySetupError msg)) steps ->
       steps
       = progress_steps (progress_calls false how_dep reports fd)
         ++ [Sends (DependencySetupError msg)].
Proof.
  cbv zeta. unfold on_initialize_dependencies.
  set (progress := progress_steps (progress_calls false how_dep reports fd)).
  assert (Hp1 : ~ In InitializesDownloads progress).
  { intros H. apply progress_steps_only_progress in H as [r Hr].
    discriminate Hr. }
  assert (Hp2 : forall m, ~ In (Sends (DependencySetupError m)) progress).
  { intros m H. apply progress_steps_only_progress in H as [r Hr].
    discriminate Hr. }
  assert (Hd := dependent_services_downloads adb how_game downloads
                  windowLater fg).
  assert (Hm := dependent_services_messages adb how_game downloads
                  windowLater fg).
  destruct (initialize_dependent_services adb how_game downloads
              windowLater fg) as [fg' steps].
  cbn [snd] in Hd, Hm.
  destruct (dependency_initialize false how_dep fd) as [fd' [e|s]];
    cbn [fst snd].
  - split.
    + split.
      * intros H. apply in_app_or in H as [H|H]; [now apply Hp1 in H|].
        destruct window; cbn in H; intuition discriminate.
      * intros ((s & Hs & _) & _). discriminate Hs.
    + intros msg H. apply in_app_or in H as [H|H]; [now apply Hp2 in H|].
      destruct window; cbn [In] in H; [|destruct H].
      destruct H as [H|[]]. injection H as ->. reflexivity.
  - destruct s.
    + cbn [snd]. split; [|intros msg H; now apply Hp2 in H].
      split; [intros H; now apply Hp1 in H|].
      intros ((s & Hs & Hne) & _). injection Hs as <-. now elim Hne.
    + destruct window; cbn [snd].
      * split.
        -- split.
           ++ intros H. apply in_app_or in H as [H|H]; [now apply Hp1 in H|].
              destruct H as [H|H]; [discriminate H|]. apply Hd in H.
              destruct H as [Ha Hg].
              split; [exists INITIALIZED; split; [reflexivity|discriminate]
                     |auto].
           ++ intros (_ & _ & Ha & Hg). apply in_or_app. right. right.
              apply Hd. auto.
        -- intros msg H. apply in_app_or in H as [H|H]; [now apply Hp2 in H|].
           destruct H as [H|H]; [discriminate H|now apply Hm in H].
      * split; [|intros msg H; now apply Hp2 in H].
        split; [intros H; now apply Hp1 in H|].
        intros (_ & Hw & _). discriminate Hw.
    + destruct window; cbn [snd].
      * split.
        -- split.
           ++ intros H. apply in_app_or in H as [H|H]; [now apply Hp1 in H|].
              destruct H as [H|H]; [discriminate H|]. apply Hd in H.
              destruct H as [Ha Hg].
              split; [exists ERROR; split; [reflexivity|discriminate]|auto].
           ++ intros (_ & _ & Ha & Hg). apply in_or_app. right. right.
              apply Hd. auto.
        -- intros msg H. apply in_app_or in H as [H|H]; [now apply Hp2 in H|].
           destruct H as [H|H]; [discriminate H|now apply Hm in H].
      * split; [|intros msg H; now apply Hp2 in H].
        split; [intros H; now apply Hp1 in H|].
        intros (_ & Hw & _). discriminate Hw.
Qed.

(** ** The games view *)

Lemma downloadStatusMap_fold (queue : list DownloadItem)
    (m : gmap jsstring (DownloadStatus * N)) (name : jsstring) :
  fold_left
    (fun map item =>
       if nonempty (releaseName item)
       then <[releaseName item := GamesView.status_entry item]> map
       else map)
    queue m !! name
  = match (if nonempty name
           then last (List.filter
                        (fun item => bool_decide (releaseName item = name))
                        queue)
           else None) with
    | Some item => Some (GamesView.status_entry item)
    | None => m !! name
    end.
Proof.
  destruct (nonempty name) eqn:En.
  - revert m. induction queue as [|it queue IH]; intros m; [reflexivity|].
    cbn [fold_left List.filter]. rewrite IH.
    destruct (decide (releaseName it = name)) as [E|E].
    + rewrite (bool_decide_eq_true_2 _ E). rewrite last_cons, E, En.
      destruct (last _); [reflexivity|]. now rewrite lookup_insert_eq.
    + rewrite (bool_decide_eq_false_2 _ E).
      destruct (last _); [reflexivity|].
      destruct (nonempty (releaseName it)); [|reflexivity].
      now rewrite lookup_insert_ne.
  - revert m. induction queue as [|it queue IH]; intros m; [reflexivity|].
    cbn [fold_left]. rewrite IH.
    destruct (nonempty (releaseName it)) eqn:Ei; [|reflexivity].
    rewrite lookup_insert_ne; [reflexivity|].
    intros E. rewrite E, En in Ei. discriminate Ei.
Qed.

(** The status shown for a release name is that of the last item of the
    queue with that name, with the extraction progress while the item is
    Extracting (0 when that is absent) and the transfer progress otherwise;
    no entry is kept under the empty name. *)
Theorem downloadStatusMap_last_wins (queue : list DownloadItem)
    (name : jsstring) :
  GamesView.downloadStatusMap queue !! name
  = if nonempty name
    then GamesView.status_entry
           <$> last (List.filter
                       (fun item => bool_decide (releaseName item = name))
                       queue)
    else None.
Proof.
  unfold GamesView.downloadStatusMap. rewrite downloadStatusMap_fold.
  destruct (nonempty name); [|apply lookup_empty].
  destruct (last _); [reflexivity|apply lookup_empty].
Qed.

Lemma filter_filter {A} (p : A -> bool) (l : list A) :
  List.filter p (List.filter p l) = List.filter p l.
Proof.
  induction l as [|a l IH]; [reflexivity|].
  cbn [List.filter]. destruct (p a) eqn:E; [|exact IH].
  cbn [List.filter]. now rewrite E, IH.
Qed.

Section ColumnFilterFacts.

Variable Value : Type.
Variable value_true : Value.

(** The quick filter depends on the last choice only: choosing [a] and then
    [b] leaves the column filters that choosing [b] alone leaves; and no
    choice touches the filters of other columns or their order. *)
Theorem applyActiveFilter_last_choice (a b : GamesView.FilterType)
    (prev : list (GamesView.ColumnFilter Value)) :
  GamesView.applyActiveFilter value_true b
    (GamesView.applyActiveFilter value_true a prev)
  = GamesView.applyActiveFilter value_true b prev
  /\ List.filter GamesView.is_other_filter
       (GamesView.applyActiveFilter value_true a prev)
     = List.filter GamesView.is_other_filter prev.
Proof.
  assert (H : List.filter GamesView.is_other_filter
                (GamesView.applyActiveFilter value_true a prev)
              = List.filter GamesView.is_other_filter prev).
  { unfold GamesView.applyActiveFilter.
    destruct a; rewrite ?List.filter_app, filter_filter;
      [reflexivity|..]; cbn; now rewrite app_nil_r. }
  split; [|exact H].
  unfold GamesView.applyActiveFilter at 1 3. now rewrite H.
Qed.

End ColumnFilterFacts.


(** ** Numbers read from digits *)

Lemma to_double_exact (n : N) : n < 2 ^ 53 -> to_double n = n.
Proof.
  intros Hn. unfold to_double.
  destruct (N.size n <=? 53) eqn:E; [reflexivity|].
  apply N.leb_gt in E. exfalso.
  assert (H54 : 2 ^ 54 <= 2 ^ N.size n)
    by (apply N.pow_le_mono_r; lia).
  pose proof (N.size_le n) as Hle.
  change (2 ^ 54) with (2 * 2 ^ 53) in H54.
  rewrite N.succ_double_spec in Hle. lia.
Qed.

(** Up to 2^53 a number read from digits is the integer they denote;
    beyond, it is the nearest double, the even one of two that are equally
    near; and a long enough run of digits gives [Infinity]. *)
Example parseInt_rounds :
  parseInt (js "100") = 100
  /\ parseInt (js "9007199254740992") = 9007199254740992
  /\ parseInt (js "9007199254740993") = 9007199254740992
  /\ parseInt (js "9007199254740995") = 9007199254740996
  /\ parseInt (js "18446744073709551615") = 18446744073709551616
  /\ parseInt (repeat 57 400) = Infinity.
Proof. vm_compute. auto 6. Qed.
